(** * CodexLens: indexer and search engine, shallow embedding

    Source files embedded here:
    - [codex_lens/models.py]  (IndexedFile, SearchResult, IndexStats,
      LANGUAGE_MAP, DEFAULT_IGNORE_PATTERNS)
    - [codex_lens/indexer.py] (CodeIndexer)
    - [codex_lens/search.py]  (SearchEngine)

    Conventions.  Python [str] values are Rocq [string]s; a character is
    a code point below 256.  Python [int] counters that only grow from 0
    are [nat].  Python [float] scores are exact rationals ([Qc]).  A
    Python [dict] whose iteration order matters is an association list in
    insertion order; one whose order does not matter is a [gmap]. *)

From Stdlib Require Import String Ascii List Bool Arith QArith Qcanon Qcabs Lia.
From Stdlib Require Import Sorting.Sorted DecimalString OrderedTypeEx.
From stdpp Require Import base gmap strings list.

Open Scope string_scope.
Open Scope list_scope.
Open Scope nat_scope.

(* ================================================================== *)
(** * Part I.  Definitions                                             *)
(* ================================================================== *)

(** ** Python string primitives *)

(** The double quote character, code 34. *)
Definition dquote : ascii := ascii_of_nat 34.
Definition newline : ascii := ascii_of_nat 10.
Definition tab : ascii := ascii_of_nat 9.

Definition str1 (c : ascii) : string := String c EmptyString.

(** [str.isspace] on one character, for code points below 256:
    U+0009..U+000D, U+001C..U+0020, U+0085 and U+00A0. *)
Definition is_space (c : ascii) : bool :=
  let n := nat_of_ascii c in
  (((9 <=? n) && (n <=? 13)) || ((28 <=? n) && (n <=? 32))
   || (n =? 133) || (n =? 160))%nat.

(** [str.lower] on one character, for code points below 256: A..Z and
    the Latin-1 capitals U+00C0..U+00DE (U+00D7 excepted) move up by 32. *)
Definition lower_char (c : ascii) : ascii :=
  let n := nat_of_ascii c in
  if (((65 <=? n) && (n <=? 90))
      || ((192 <=? n) && (n <=? 222) && negb (n =? 215)))%nat
  then ascii_of_nat (n + 32) else c.

Fixpoint lower (s : string) : string :=
  match s with
  | EmptyString => EmptyString
  | String c s' => String (lower_char c) (lower s')
  end.

(** [s.startswith(p)] *)
Fixpoint startswith (s p : string) : bool :=
  match p, s with
  | EmptyString, _ => true
  | String _ _, EmptyString => false
  | String a p', String b s' => if Ascii.eqb a b then startswith s' p' else false
  end.

(** [sub in s] *)
Fixpoint str_in (sub s : string) : bool :=
  startswith s sub ||
  match s with
  | EmptyString => false
  | String _ s' => str_in sub s'
  end.

(** [s.replace(old, new)]: left to right, occurrences do not overlap.
    [skip] counts the characters of an occurrence still to be dropped. *)
Fixpoint replace_from (old new : string) (skip : nat) (s : string) : string :=
  match s with
  | EmptyString => EmptyString
  | String c s' =>
      match skip with
      | S k => replace_from old new k s'
      | O =>
          if startswith s old
          then new +:+ replace_from old new (String.length old - 1) s'
          else String c (replace_from old new 0 s')
      end
  end.

(** With an empty [old], Python puts [new] before every character and
    at the end. *)
Fixpoint interleave (new s : string) : string :=
  match s with
  | EmptyString => new
  | String c s' => new +:+ String c (interleave new s')
  end.

Definition replace (old new s : string) : string :=
  match old with
  | EmptyString => interleave new s
  | String _ _ => replace_from old new 0 s
  end.

(** [s.split(sep)] for a one-character separator; [cur] is the piece
    being read.  The result is never empty. *)
Fixpoint split_acc (sep : ascii) (cur : string) (s : string) : list string :=
  match s with
  | EmptyString => [cur]
  | String c s' =>
      if Ascii.eqb c sep then cur :: split_acc sep EmptyString s'
      else split_acc sep (cur +:+ str1 c) s'
  end.

Definition split (sep : ascii) (s : string) : list string :=
  split_acc sep EmptyString s.

Definition flush (cur : string) : list string :=
  match cur with
  | EmptyString => []
  | String _ _ => [cur]
  end.

(** [s.split()] without argument: pieces between runs of whitespace,
    empty pieces dropped. *)
Fixpoint split_ws_acc (cur : string) (s : string) : list string :=
  match s with
  | EmptyString => flush cur
  | String c s' =>
      if is_space c then flush cur ++ split_ws_acc EmptyString s'
      else split_ws_acc (cur +:+ str1 c) s'
  end.

Definition split_ws (s : string) : list string := split_ws_acc EmptyString s.

(** [sep.join(l)] *)
Fixpoint join (sep : string) (l : list string) : string :=
  match l with
  | [] => EmptyString
  | [x] => x
  | x :: rest => x +:+ sep +:+ join sep rest
  end.

Fixpoint lstrip (s : string) : string :=
  match s with
  | EmptyString => EmptyString
  | String c s' => if is_space c then lstrip s' else s
  end.

Fixpoint rstrip (s : string) : string :=
  match s with
  | EmptyString => EmptyString
  | String c s' =>
      match rstrip s' with
      | EmptyString => if is_space c then EmptyString else str1 c
      | r => String c r
      end
  end.

(** [s.strip()] *)
Definition strip (s : string) : string := rstrip (lstrip s).

(** [s.count(c)] for a one-character [c]. *)
Fixpoint count_char (c : ascii) (s : string) : nat :=
  match s with
  | EmptyString => 0
  | String a s' => (if Ascii.eqb a c then 1 else 0) + count_char c s'
  end.

(** [s[:n]] *)
Fixpoint str_take (n : nat) (s : string) : string :=
  match n, s with
  | S k, String c s' => String c (str_take k s')
  | _, _ => EmptyString
  end.

(** [l[start:stop]] for non-negative bounds. *)
Definition slice {A} (start stop : nat) (l : list A) : list A :=
  firstn (stop - start) (skipn start l).

(** ** search.py: [SearchEngine._prepare_fts_query] *)

Definition special_chars : list ascii :=
  ["*"%char; dquote; "'"%char; "("%char; ")"%char; "-"%char; "+"%char;
   ":"%char; "^"%char; "~"%char].

Definition _prepare_fts_query (query : string) : string :=
  if str_in " " query && negb (startswith query (str1 dquote)) then
    let escaped := replace (str1 dquote) (String dquote (str1 dquote)) query in
    str1 dquote +:+ escaped +:+ str1 dquote
  else
    let cleaned :=
      fold_left (fun cleaned char => replace (str1 char) " " cleaned)
                special_chars query in
    join " " (split_ws cleaned).

(** ** search.py: [SearchEngine._find_matches] *)

(** The dictionary [_find_matches] returns. *)
Module MatchInfo.
Record t := mk {
  line_number : nat;
  context : string;
  highlights : list string;
}.
End MatchInfo.

(** The body of the [for i, line in enumerate(lines)] loop.  The state
    is [(first_match_line, context, highlights)]; returning the state
    without visiting [rest'] is the [break]. *)
Fixpoint find_loop (lines : list string) (query_lower : string)
    (context_lines : nat) (i : nat) (rest : list string)
    (st : MatchInfo.t) : MatchInfo.t :=
  match rest with
  | [] => st
  | line :: rest' =>
      if str_in query_lower (lower line) then
        let first_match_line := i + 1 in
        let start := Nat.max 0 (i - context_lines) in
        let stop := Nat.min (List.length lines) (i + context_lines + 1) in
        let context := join (str1 newline) (slice start stop lines) in
        let highlights := MatchInfo.highlights st ++ [strip line] in
        let st' := MatchInfo.mk first_match_line context highlights in
        if (3 <=? List.length highlights)%nat then st'
        else find_loop lines query_lower context_lines (i + 1) rest' st'
      else find_loop lines query_lower context_lines (i + 1) rest' st
  end.

Definition _find_matches_ctx (content query : string) (context_lines : nat)
    : MatchInfo.t :=
  let lines := split newline content in
  let query_lower := lower query in
  find_loop lines query_lower context_lines 0 lines
            (MatchInfo.mk 0 EmptyString []).

(** [context_lines] defaults to 2 and no caller overrides it. *)
Definition _find_matches (content query : string) : MatchInfo.t :=
  _find_matches_ctx content query 2.

(** ** [fnmatch.fnmatch] (Python standard library, POSIX case rules)

    [fnmatch] translates the pattern to a regular expression and matches
    the whole name against it.  The translation is kept as a token list:
    [*] any run of characters, [?] one character, [[seq]] a character
    class ([!] negates, [a-b] is a range), anything else itself.  A [[]
    without a closing bracket is an ordinary character. *)

Inductive glob_token :=
| GStar
| GAny
| GLit (c : ascii)
| GClass (negated : bool) (body : string).

(** Index of the closing bracket in the text after [[]: a leading [!]
    and a [[]] right after it do not close the class. *)
Fixpoint find_char (c : ascii) (s : string) : option nat :=
  match s with
  | EmptyString => None
  | String a s' =>
      if Ascii.eqb a c then Some 0
      else option_map S (find_char c s')
  end.

Definition str_drop (n : nat) (s : string) : string :=
  String.substring n (String.length s - n) s.

Definition class_end (s : string) : option nat :=
  let j1 := if startswith s "!" then 1 else 0 in
  let j2 := if startswith (str_drop j1 s) "]" then j1 + 1 else j1 in
  option_map (fun k => j2 + k) (find_char "]"%char (str_drop j2 s)).

Fixpoint translate_from (skip : nat) (pat : string) : list glob_token :=
  match pat with
  | EmptyString => []
  | String c pat' =>
      match skip with
      | S k => translate_from k pat'
      | O =>
          if Ascii.eqb c "*" then GStar :: translate_from 0 pat'
          else if Ascii.eqb c "?" then GAny :: translate_from 0 pat'
          else if Ascii.eqb c "[" then
            match class_end pat' with
            | None => GLit c :: translate_from 0 pat'
            | Some j =>
                let stuff := str_take j pat' in
                (if startswith stuff "!"
                 then GClass true (str_drop 1 stuff)
                 else GClass false stuff)
                :: translate_from (j + 1) pat'
            end
          else GLit c :: translate_from 0 pat'
      end
  end.

Definition translate (pat : string) : list glob_token := translate_from 0 pat.

(** Membership in the body of a character class. *)
Fixpoint class_mem (c : ascii) (skip : nat) (body : string) : bool :=
  match body with
  | EmptyString => false
  | String lo rest =>
      match skip with
      | S k => class_mem c k rest
      | O =>
          match rest with
          | String "-"%char (String hi rest') =>
              ((nat_of_ascii lo <=? nat_of_ascii c)
               && (nat_of_ascii c <=? nat_of_ascii hi))
              || class_mem c 2 rest
          | _ => Ascii.eqb lo c || class_mem c 0 rest
          end
      end
  end.

Fixpoint glob_match (toks : list glob_token) (s : string) : bool :=
  match toks with
  | [] => match s with EmptyString => true | _ => false end
  | GStar :: toks' =>
      (fix star (s : string) : bool :=
         glob_match toks' s ||
         match s with
         | EmptyString => false
         | String _ s' => star s'
         end) s
  | GAny :: toks' =>
      match s with
      | EmptyString => false
      | String _ s' => glob_match toks' s'
      end
  | GLit c :: toks' =>
      match s with
      | EmptyString => false
      | String a s' => Ascii.eqb a c && glob_match toks' s'
      end
  | GClass neg body :: toks' =>
      match s with
      | EmptyString => false
      | String a s' => xorb neg (class_mem a 0 body) && glob_match toks' s'
      end
  end.

Definition fnmatch (name pat : string) : bool := glob_match (translate pat) name.

(** ** models.py: tables *)

Definition LANGUAGE_MAP : list (string * string) :=
  [ (".py", "python"); (".js", "javascript"); (".ts", "typescript");
    (".tsx", "typescript"); (".jsx", "javascript"); (".java", "java");
    (".c", "c"); (".cpp", "cpp"); (".cc", "cpp"); (".h", "c");
    (".hpp", "cpp"); (".go", "go"); (".rs", "rust"); (".rb", "ruby");
    (".php", "php"); (".swift", "swift"); (".kt", "kotlin");
    (".scala", "scala"); (".cs", "csharp"); (".m", "objectivec");
    (".sh", "shell"); (".bash", "shell"); (".zsh", "shell");
    (".ps1", "powershell"); (".sql", "sql"); (".html", "html");
    (".css", "css"); (".scss", "scss"); (".less", "less");
    (".json", "json"); (".yaml", "yaml"); (".yml", "yaml");
    (".xml", "xml"); (".md", "markdown"); (".toml", "toml");
    (".ini", "ini"); (".cfg", "ini"); (".vue", "vue");
    (".svelte", "svelte") ].

Definition DEFAULT_IGNORE_PATTERNS : list string :=
  [ "node_modules"; "__pycache__"; ".git"; ".svn"; ".hg"; "venv"; ".venv";
    "env"; ".env"; "dist"; "build"; "target"; ".idea"; ".vscode";
    "*.pyc"; "*.pyo"; "*.class"; "*.o"; "*.so"; "*.dll"; "*.exe";
    "*.min.js"; "*.min.css"; "package-lock.json"; "yarn.lock";
    "pnpm-lock.yaml"; "Cargo.lock"; "*.map" ].

(** [d.get(key)] on a table written as an association list. *)
Fixpoint assoc_get {V} (key : string) (d : list (string * V)) : option V :=
  match d with
  | [] => None
  | (k, v) :: d' => if String.eqb k key then Some v else assoc_get key d'
  end.

(** ** pathlib: paths relative to the indexing root

    A path below the root is the list of its components, the file name
    last; components are not empty and hold no [/]. *)

Definition rel_path := list string.

(** [str(path.relative_to(root))] *)
Definition path_str (p : rel_path) : string := join "/" p.

(** [path.name] *)
Definition path_name (p : rel_path) : string := List.last p EmptyString.

(** [str(q)] for [q] a path with the components [cs]: the empty relative
    path prints as a dot. *)
Definition parent_str (cs : list string) : string :=
  match cs with
  | [] => "."
  | _ => join "/" cs
  end.

(** [path.relative_to(root).parents], nearest first, each as [str]:
    [a/b/c.py] has the parents [a/b], [a] and [.]. *)
Fixpoint parents_upto (n : nat) (p : rel_path) : list string :=
  match n with
  | O => []
  | S k => parent_str (firstn k p) :: parents_upto k p
  end.

Definition parents (p : rel_path) : list string := parents_upto (List.length p) p.

(** Index of the last occurrence of [c]. *)
Fixpoint rfind_char (c : ascii) (s : string) : option nat :=
  match s with
  | EmptyString => None
  | String a s' =>
      match rfind_char c s' with
      | Some i => Some (S i)
      | None => if Ascii.eqb a c then Some 0 else None
      end
  end.

(** [path.suffix]: the name from its last dot on, when that dot is
    neither the first nor the last character. *)
Definition path_suffix (p : rel_path) : string :=
  let name := path_name p in
  match rfind_char "."%char name with
  | Some i =>
      if (0 <? i) && (i <? String.length name - 1) then str_drop i name
      else EmptyString
  | None => EmptyString
  end.

(** ** indexer.py: [CodeIndexer._should_ignore], [_detect_language] *)

Definition _should_ignore (ignore_patterns : list string) (path : rel_path)
    : bool :=
  let rel_path := path_str path in
  existsb
    (fun pattern =>
       fnmatch (path_name path) pattern
       || fnmatch rel_path pattern
       || existsb (fun parent => fnmatch parent pattern
                                 || String.eqb parent pattern)
                  (parents path))
    ignore_patterns.

Definition _detect_language (path : rel_path) : string :=
  match assoc_get (lower (path_suffix path)) LANGUAGE_MAP with
  | Some lang => lang
  | None => "unknown"
  end.

Definition in_LANGUAGE_MAP (suffix : string) : bool :=
  match assoc_get suffix LANGUAGE_MAP with Some _ => true | None => false end.

(** ** models.py: records *)

Module IndexedFile.
Record t := mk {
  path : string;
  content : string;
  language : string;
  size : nat;
  last_modified : nat;
  content_hash : string;
}.
End IndexedFile.

Module IndexStats.
Record t := mk {
  total_files : nat;
  total_lines : nat;
  total_size : nat;
  languages : gmap string nat;
  last_indexed : option nat;
  index_version : string;
}.
(** [IndexStats()] *)
Definition default : t := mk 0 0 0 ∅ None "1.0".
End IndexStats.

(** ** indexer.py: the SQLite store created by [_init_database]

    [files] has an AUTOINCREMENT key and a UNIQUE [path]; [files_fts] is
    an FTS5 index with external content [files], written only by the
    three triggers; [index_stats] maps a key to a value.  Time stamps
    are readings of a clock, as numbers. *)

Module FileRow.
Record t := mk {
  id : nat;
  path : string;
  content : string;
  language : string;
  size : nat;
  last_modified : nat;
  content_hash : string;
  indexed_at : nat;
}.
End FileRow.

(** One document of the full-text index. *)
Module FtsEntry.
Record t := mk {
  rowid : nat;
  path : string;
  content : string;
  language : string;
}.
End FtsEntry.

Record database := Database {
  files : list FileRow.t;
  (** sqlite_sequence: the largest [id] ever given out *)
  files_seq : nat;
  files_fts : list FtsEntry.t;
  index_stats : gmap string IndexStats.t;
}.

(** The store right after [_init_database] on a new file. *)
Definition empty_database : database := Database [] 0 [] ∅.

Definition fts_entry_eqb (a b : FtsEntry.t) : bool :=
  (FtsEntry.rowid a =? FtsEntry.rowid b)
  && String.eqb (FtsEntry.path a) (FtsEntry.path b)
  && String.eqb (FtsEntry.content a) (FtsEntry.content b)
  && String.eqb (FtsEntry.language a) (FtsEntry.language b).

Definition entry_of_row (r : FileRow.t) : FtsEntry.t :=
  FtsEntry.mk (FileRow.id r) (FileRow.path r) (FileRow.content r)
              (FileRow.language r).

(** Trigger [files_ai]: AFTER INSERT, index the new row. *)
Definition files_ai (new : FileRow.t) (fts : list FtsEntry.t) : list FtsEntry.t :=
  fts ++ [entry_of_row new].

(** Trigger [files_ad]: AFTER DELETE, the FTS5 ['delete'] command with
    the old row's values takes that document out of the index. *)
Definition files_ad (old : FileRow.t) (fts : list FtsEntry.t) : list FtsEntry.t :=
  List.filter (fun e => negb (fts_entry_eqb e (entry_of_row old))) fts.

(** Trigger [files_au]: AFTER UPDATE.  No statement of the program is an
    UPDATE of [files], so it never runs. *)
Definition files_au (old new : FileRow.t) (fts : list FtsEntry.t) : list FtsEntry.t :=
  files_ai new (files_ad old fts).

(** [DELETE FROM files WHERE cond]: every row that goes fires [files_ad]. *)
Definition delete_from_files (cond : FileRow.t -> bool) (d : database) : database :=
  let gone := List.filter cond (files d) in
  Database (List.filter (fun r => negb (cond r)) (files d))
           (files_seq d)
           (fold_left (fun fts r => files_ad r fts) gone (files_fts d))
           (index_stats d).

(** [INSERT OR REPLACE INTO files (path, ...) VALUES ...].  The rows
    that hold the same [path] are taken out first; SQLite fires the
    delete triggers for them only when [PRAGMA recursive_triggers] is on.
    The new row gets the next [id] and fires [files_ai]. *)
Definition insert_or_replace (recursive_triggers : bool)
    (path content language : string) (size last_modified : nat)
    (content_hash : string) (indexed_at : nat) (d : database) : database :=
  let clash := fun r => String.eqb (FileRow.path r) path in
  let gone := List.filter clash (files d) in
  let fts1 :=
    if recursive_triggers
    then fold_left (fun fts r => files_ad r fts) gone (files_fts d)
    else files_fts d in
  let new := FileRow.mk (files_seq d + 1) path content language size
                        last_modified content_hash indexed_at in
  Database (List.filter (fun r => negb (clash r)) (files d) ++ [new])
           (files_seq d + 1)
           (files_ai new fts1)
           (index_stats d).

(** [DELETE FROM files_fts]: the rows of an external-content index are
    read from the content table, so the statement visits the rows that
    [files] holds at that moment and drops their documents. *)
Definition delete_from_files_fts (d : database) : database :=
  Database (files d) (files_seq d)
           (fold_left (fun fts r => files_ad r fts) (files d) (files_fts d))
           (index_stats d).

(** A connection opened by [sqlite3.connect] has [recursive_triggers]
    off, and the program never issues the pragma. *)
Definition connection_recursive_triggers : bool := false.

(** [CodeIndexer._save_file]; [now] is [datetime.now()]. *)
Definition _save_file_with (recursive_triggers : bool) (now : nat)
    (indexed_file : IndexedFile.t) (d : database) : database :=
  insert_or_replace recursive_triggers
    (IndexedFile.path indexed_file) (IndexedFile.content indexed_file)
    (IndexedFile.language indexed_file) (IndexedFile.size indexed_file)
    (IndexedFile.last_modified indexed_file)
    (IndexedFile.content_hash indexed_file) now d.

Definition _save_file : nat -> IndexedFile.t -> database -> database :=
  _save_file_with connection_recursive_triggers.

(** [CodeIndexer.remove_file] *)
Definition remove_file (path : string) (d : database) : database :=
  delete_from_files (fun r => String.eqb (FileRow.path r) path) d.

(** [CodeIndexer.clear_index] *)
Definition clear_index (d : database) : database :=
  let d1 := delete_from_files (fun _ => true) d in
  let d2 := delete_from_files_fts d1 in
  Database (files d2) (files_seq d2) (files_fts d2) ∅.

(** [CodeIndexer._get_file_hash] *)
Definition _get_file_hash (path : string) (d : database) : option string :=
  match List.filter (fun r => String.eqb (FileRow.path r) path) (files d) with
  | [] => None
  | r :: _ => Some (FileRow.content_hash r)
  end.

(** [CodeIndexer._save_stats] and [CodeIndexer.get_stats]; the JSON text
    stored under the key is kept as the record it encodes. *)
Definition _save_stats (stats : IndexStats.t) (d : database) : database :=
  Database (files d) (files_seq d) (files_fts d)
           (<["stats" := stats]> (index_stats d)).

Definition get_stats (d : database) : option IndexStats.t :=
  index_stats d !! "stats".

(** The triples the two tables hold. *)
Definition triple := (string * string * string)%type.

Definition file_triples (d : database) : list triple :=
  map (fun r => (FileRow.path r, FileRow.content r, FileRow.language r))
      (files d).

Definition mirror_triples (d : database) : list triple :=
  map (fun e => (FtsEntry.path e, FtsEntry.content e, FtsEntry.language e))
      (files_fts d).

(** The three writes of the store, as a script. *)
Inductive store_op :=
| OpUpsert (now : nat) (f : IndexedFile.t)
| OpDelete (path : string)
| OpClear.

Definition run_op_with (recursive_triggers : bool) (o : store_op)
    (d : database) : database :=
  match o with
  | OpUpsert now f => _save_file_with recursive_triggers now f d
  | OpDelete p => remove_file p d
  | OpClear => clear_index d
  end.

Definition run_ops_with (recursive_triggers : bool) (ops : list store_op)
    (d : database) : database :=
  fold_left (fun d o => run_op_with recursive_triggers o d) ops d.

Definition run_ops : list store_op -> database -> database :=
  run_ops_with connection_recursive_triggers.

(** ** indexer.py: scanning and indexing

    The directory below the root is the list of its regular files in the
    order [root.rglob] yields them.  [read] is what [read_text] gives
    (UTF-8 first, Latin-1 next), [None] when both attempts raise. *)

Module FsFile.
Record t := mk {
  path : rel_path;
  read : option string;
  st_size : nat;
  st_mtime : nat;
}.
End FsFile.

(** [CodeIndexer._scan_files] *)
Definition _scan_files (ignore_patterns : list string) (tree : list FsFile.t)
    : list FsFile.t :=
  List.filter
    (fun f => negb (_should_ignore ignore_patterns (FsFile.path f))
              && in_LANGUAGE_MAP (lower (path_suffix (FsFile.path f))))
    tree.

(** The state of one pass of [index_directory]: the store, the clock,
    and the local variables of the loop. *)
Module Pass.
Record t := mk {
  db : database;
  clock : nat;
  total_lines : nat;
  total_size : nat;
  languages : gmap string nat;
  indexed_count : nat;
  skipped_count : nat;
}.
End Pass.

Section Indexer.

(** [hashlib.sha256(content.encode()).hexdigest()[:16]] *)
Variable sha256_hex16 : string -> string.

(** [IndexedFile(path, content, language, size, last_modified)]: the
    hash field is left to [__post_init__]. *)
Definition new_IndexedFile (path content language : string)
    (size last_modified : nat) : IndexedFile.t :=
  IndexedFile.mk path content language size last_modified
                 (sha256_hex16 content).

(** [CodeIndexer.index_file]: [None] for a file that cannot be read
    and for a file whose stored hash is the hash of its content. *)
Definition index_file (file : FsFile.t) (d : database)
    : option IndexedFile.t :=
  let rel_path := path_str (FsFile.path file) in
  match FsFile.read file with
  | None => None
  | Some content =>
      let indexed_file :=
        new_IndexedFile rel_path content (_detect_language (FsFile.path file))
                        (FsFile.st_size file) (FsFile.st_mtime file) in
      let stored_hash := _get_file_hash rel_path d in
      if decide (stored_hash = Some (IndexedFile.content_hash indexed_file))
      then None
      else Some indexed_file
  end.

(** One turn of the loop over [files]. *)
Definition index_step (st : Pass.t) (file : FsFile.t) : Pass.t :=
  match index_file file (Pass.db st) with
  | Some indexed_file =>
      let lang := IndexedFile.language indexed_file in
      Pass.mk
        (_save_file (Pass.clock st) indexed_file (Pass.db st))
        (Pass.clock st + 1)
        (Pass.total_lines st
         + (count_char newline (IndexedFile.content indexed_file) + 1))
        (Pass.total_size st + IndexedFile.size indexed_file)
        (<[lang := default 0 (Pass.languages st !! lang) + 1]>
           (Pass.languages st))
        (Pass.indexed_count st + 1)
        (Pass.skipped_count st)
  | None =>
      Pass.mk (Pass.db st) (Pass.clock st) (Pass.total_lines st)
              (Pass.total_size st) (Pass.languages st)
              (Pass.indexed_count st) (Pass.skipped_count st + 1)
  end.

(** [CodeIndexer.index_directory] on a root that is a directory (the
    other case raises [ValueError] before anything is read or written).
    Returns the store, the clock and the statistics. *)
Definition index_directory (ignore_patterns : list string)
    (tree : list FsFile.t) (clock : nat) (d : database)
    : database * nat * IndexStats.t :=
  let files := _scan_files ignore_patterns tree in
  let st := fold_left index_step files (Pass.mk d clock 0 0 ∅ 0 0) in
  let stats :=
    IndexStats.mk (Pass.indexed_count st) (Pass.total_lines st)
                  (Pass.total_size st) (Pass.languages st)
                  (Some (Pass.clock st)) "1.0" in
  (_save_stats stats (Pass.db st), Pass.clock st + 1, stats).

(** Number of [_save_file] calls of a pass over [tree]. *)
Definition upserts (ignore_patterns : list string)
    (tree : list FsFile.t) (clock : nat) (d : database) : nat :=
  Pass.indexed_count
    (fold_left index_step (_scan_files ignore_patterns tree)
               (Pass.mk d clock 0 0 ∅ 0 0)).

End Indexer.

(** ** search.py: results, exceptions, the SQL engine *)

Module SearchResult.
Record t := mk {
  path : string;
  content : string;
  score : Qc;
  line_number : nat;
  match_context : string;
  search_type : string;
  highlights : list string;
}.
Definition set_score (v : Qc) (r : t) : t :=
  mk (path r) (content r) v (line_number r) (match_context r)
     (search_type r) (highlights r).
Definition set_search_type (v : string) (r : t) : t :=
  mk (path r) (content r) (score r) (line_number r) (match_context r)
     v (highlights r).
End SearchResult.

(** The exceptions the search code can meet; all derive from
    [Exception]. *)
Inductive exn :=
| OperationalError (msg : string)
| OverflowError (msg : string)
| ImportError (msg : string)
| OtherException (msg : string).

Inductive outcome (A : Type) :=
| Return (a : A)
| Raise (e : exn).
Arguments Return {A} a.
Arguments Raise {A} e.

(** A truthy argument: [if language:] fails for [None] and for the
    empty string. *)
Definition truthy (o : option string) : option string :=
  match o with
  | Some (String _ _ as s) => Some s
  | _ => None
  end.

(** A row of the FTS5 SELECT: [path, content, language, bm25]. *)
Definition fts_row := (string * string * string * Qc)%type.

(** SQLite folds the case of the letters A..Z only when it compares
    with LIKE. *)
Definition like_fold (c : ascii) : ascii :=
  let n := nat_of_ascii c in
  if (65 <=? n) && (n <=? 90) then ascii_of_nat (n + 32) else c.

(** The NUL character, code 0. *)
Definition nul : ascii := ascii_of_nat 0.

(** A text the way SQLite's LIKE reads it, as a C string: the
    characters before the first NUL. *)
Fixpoint c_str (s : string) : string :=
  match s with
  | EmptyString => EmptyString
  | String c s' => if Ascii.eqb c nul then EmptyString else String c (c_str s')
  end.

(** SQLite's [patternCompare] on two C strings: [%] is any run of
    characters, [_] is one character, any other character is itself up
    to the case of A..Z. *)
Fixpoint pattern_compare (pat : string) (s : string) : bool :=
  match pat with
  | EmptyString => match s with EmptyString => true | _ => false end
  | String p pat' =>
      if Ascii.eqb p "%" then
        (fix any (s : string) : bool :=
           pattern_compare pat' s ||
           match s with
           | EmptyString => false
           | String _ s' => any s'
           end) s
      else
        match s with
        | EmptyString => false
        | String a s' =>
            (Ascii.eqb p "_" || Ascii.eqb (like_fold p) (like_fold a))
            && pattern_compare pat' s'
        end
  end.

(** What [s LIKE pat] answers when it answers: both texts are read up
    to their first NUL. *)
Definition like_match (pat s : string) : bool :=
  pattern_compare (c_str pat) (c_str s).

(** The number of bytes of the UTF-8 encoding of a text (NUL and what
    follows it included): one byte for a code point below 128, two from
    there to 255. *)
Fixpoint utf8_length (s : string) : N :=
  match s with
  | EmptyString => 0%N
  | String c s' =>
      ((if (nat_of_ascii c <? 128)%nat then 1 else 2) + utf8_length s')%N
  end.

(** [SQLITE_MAX_LIKE_PATTERN_LENGTH], SQLite's default. *)
Definition max_like_pattern_length : N := 50000%N.

Definition like_pattern_fits (pat : string) : bool :=
  (utf8_length pat <=? max_like_pattern_length)%N.

(** [s LIKE pat], evaluated on one row: a pattern of more bytes than
    SQLite admits ends the statement with an [OperationalError]. *)
Definition like (pat : string) (s : string) : outcome bool :=
  if like_pattern_fits pat then Return (like_match pat s)
  else Raise (OperationalError "LIKE or GLOB pattern too complex").

Definition percent (s : string) : string := "%" +:+ s +:+ "%".

Definition opt_test {A} (o : option A) (f : A -> bool) : bool :=
  match o with
  | Some a => f a
  | None => true
  end.

Definition result_of (path content : string) (score : Qc)
    (search_type : string) (info : MatchInfo.t) : SearchResult.t :=
  SearchResult.mk path (str_take 500 content) score
                  (MatchInfo.line_number info) (MatchInfo.context info)
                  search_type (MatchInfo.highlights info).

(** Binding a Python [int] to a statement: SQLite takes signed 64-bit
    integers, [sqlite3] raises [OverflowError] for a larger one. *)
Definition sqlite_int64 (n : nat) : bool := (Z.of_nat n <? 2 ^ 63)%Z.

Definition bind_overflow : exn :=
  OverflowError "Python int too large to convert to SQLite INTEGER".

(** [a AND b] between two terms of a WHERE clause: the terms are
    evaluated from left to right, the second only for a row that passes
    the first. *)
Definition and_then (a b : outcome bool) : outcome bool :=
  match a with
  | Return true => b
  | _ => a
  end.

(** [SELECT ... FROM rows WHERE test LIMIT limit] by a scan of [rows]:
    the rows are visited in order, the scan ends once [limit] rows are
    out, and an error of the test on a visited row ends the statement. *)
Fixpoint select_where (test : FileRow.t -> outcome bool)
    (rows : list FileRow.t) (limit : nat) {struct rows}
    : outcome (list FileRow.t) :=
  match limit, rows with
  | S limit', r :: rows' =>
      match test r with
      | Raise e => Raise e
      | Return true =>
          match select_where test rows' limit' with
          | Return out => Return (r :: out)
          | Raise e => Raise e
          end
      | Return false => select_where test rows' limit
      end
  | _, _ => Return []
  end.

(** [SearchEngine._fallback_search] *)
Definition _fallback_search (d : database) (query : string) (limit : nat)
    (language path_filter : option string) : outcome (list SearchResult.t) :=
  if sqlite_int64 limit then
    match
      select_where
        (fun r =>
           and_then (like (percent query) (FileRow.content r))
             (and_then
                (Return (opt_test (truthy language)
                           (fun l => String.eqb (FileRow.language r) l)))
                (match truthy path_filter with
                 | Some p => like (percent p) (FileRow.path r)
                 | None => Return true
                 end)))
        (files d) limit
    with
    | Raise e => Raise e
    | Return rows =>
        Return
          (map (fun r =>
                  result_of (FileRow.path r) (FileRow.content r) 1%Qc "fulltext"
                            (_find_matches (FileRow.content r) query))
               rows)
    end
  else Raise bind_overflow.

Section Search.

(** The store the engine was opened on. *)
Variable d : database.

(** SQLite's answer to the FTS5 SELECT of [_fulltext_search] on [d]:
    the MATCH string, the language to equal, the LIKE pattern for the
    path, the LIMIT; rows come in ascending [bm25] order.  A statement
    that fails answers with its exception: the [OperationalError] of a
    MATCH string that FTS5 rejects, the [OverflowError] of a limit of
    [2^63] or more. *)
Variable fts5_select :
  string -> option string -> option string -> nat -> outcome (list fts_row).

(** [SemanticSearcher(index_path).search(...)] behind its import: when
    the [semantic] extra is not installed the import raises
    [ImportError]. *)
Variable semantic_searcher :
  string -> nat -> option string -> option string ->
  outcome (list SearchResult.t).

(** [SearchEngine._fulltext_search] *)
Definition _fulltext_search (query : string) (limit : nat)
    (language path_filter : option string) : outcome (list SearchResult.t) :=
  let fts_query := _prepare_fts_query query in
  match fts5_select fts_query (truthy language)
                    (option_map percent (truthy path_filter)) limit with
  | Raise (OperationalError e) =>
      if str_in "fts5" (lower e)
      then _fallback_search d query limit language path_filter
      else Raise (OperationalError e)
  | Raise e => Raise e
  | Return rows =>
      Return
        (map (fun row : fts_row =>
                let '(path, content, lang, score) := row in
                result_of path content (Qcabs score) "fulltext"
                          (_find_matches content query))
             rows)
  end.

(** [SearchEngine._semantic_search] *)
Definition _semantic_search (query : string) (limit : nat)
    (language path_filter : option string) : outcome (list SearchResult.t) :=
  match semantic_searcher query limit language path_filter with
  | Raise (ImportError _) => _fulltext_search query limit language path_filter
  | r => r
  end.

End Search.

(** ** search.py: Reciprocal Rank Fusion in [_hybrid_search] *)

(** The RRF constant [k]. *)
Definition k : nat := 60.

Definition Qc_of_nat (n : nat) : Qc := Q2Qc (inject_Z (Z.of_nat n)).

(** [1.0 / (k + rank + 1)] *)
Definition rrf_score (rank : nat) : Qc := (1 / Qc_of_nat (k + rank + 1))%Qc.

(** [scores[key] = scores.get(key, 0) + v] on a dict kept in insertion
    order. *)
Fixpoint scores_add (key : string) (v : Qc) (scores : list (string * Qc))
    : list (string * Qc) :=
  match scores with
  | [] => [(key, (0 + v)%Qc)]
  | (k', x) :: rest =>
      if String.eqb k' key then (k', (x + v)%Qc) :: rest
      else (k', x) :: scores_add key v rest
  end.

(** [scores.get(key, 0)] *)
Definition scores_get (key : string) (scores : list (string * Qc)) : Qc :=
  match assoc_get key scores with
  | Some x => x
  | None => 0%Qc
  end.

Definition fusion := (list (string * Qc) * gmap string SearchResult.t)%type.

(** First loop: [results_map[result.path] = result] always. *)
Fixpoint fuse_fulltext (rank : nat) (results : list SearchResult.t)
    (acc : fusion) : fusion :=
  match results with
  | [] => acc
  | result :: rest =>
      let '(scores, results_map) := acc in
      fuse_fulltext (rank + 1) rest
        (scores_add (SearchResult.path result) (rrf_score rank) scores,
         <[SearchResult.path result := result]> results_map)
  end.

(** Second loop: the result is kept only for a new path. *)
Fixpoint fuse_semantic (rank : nat) (results : list SearchResult.t)
    (acc : fusion) : fusion :=
  match results with
  | [] => acc
  | result :: rest =>
      let '(scores, results_map) := acc in
      fuse_semantic (rank + 1) rest
        (scores_add (SearchResult.path result) (rrf_score rank) scores,
         match results_map !! SearchResult.path result with
         | Some _ => results_map
         | None => <[SearchResult.path result := result]> results_map
         end)
  end.

Definition Qc_ltb (a b : Qc) : bool :=
  match (a ?= b)%Qc with
  | Lt => true
  | _ => false
  end.

(** [sorted(keys, key=..., reverse=True)]: descending and stable, keys
    of equal score stay in their order. *)
Fixpoint insert_desc {A} (key : A -> Qc) (x : A) (l : list A) : list A :=
  match l with
  | [] => [x]
  | y :: l' =>
      if Qc_ltb (key x) (key y) then y :: insert_desc key x l'
      else x :: l
  end.

Definition sorted_desc {A} (key : A -> Qc) (l : list A) : list A :=
  foldr (insert_desc key) [] l.

Definition fused_scores (fulltext_results semantic_results : list SearchResult.t)
    : fusion :=
  fuse_semantic 0 semantic_results (fuse_fulltext 0 fulltext_results ([], ∅)).

Definition sorted_paths (scores : list (string * Qc)) : list string :=
  sorted_desc (fun p => scores_get p scores) (map fst scores).

Definition rrf_fuse (limit : nat)
    (fulltext_results semantic_results : list SearchResult.t)
    : list SearchResult.t :=
  let '(scores, results_map) := fused_scores fulltext_results semantic_results in
  omap (fun path =>
          match results_map !! path with
          | Some result =>
              Some (SearchResult.set_search_type "hybrid"
                      (SearchResult.set_score (scores_get path scores) result))
          | None => None
          end)
       (firstn limit (sorted_paths scores)).

(** [SearchEngine._hybrid_search] *)
Definition _hybrid_search (d : database)
    (fts5_select :
       string -> option string -> option string -> nat -> outcome (list fts_row))
    (semantic_searcher :
       string -> nat -> option string -> option string ->
       outcome (list SearchResult.t))
    (query : string) (limit : nat) (language path_filter : option string)
    : outcome (list SearchResult.t) :=
  match _fulltext_search d fts5_select query (limit * 2) language path_filter with
  | Raise e => Raise e
  | Return fulltext_results =>
      match _semantic_search d fts5_select semantic_searcher
                             query (limit * 2) language path_filter with
      | Raise _ => Return (firstn limit fulltext_results)
      | Return semantic_results =>
          Return (rrf_fuse limit fulltext_results semantic_results)
      end
  end.

(** ** search.py: the regular expressions of [search_symbol]

    Every pattern of the table is a sequence of these pieces: a literal
    text ([re.escape(symbol)] is the literal [symbol]), an alternative
    of literal texts, [\s+], [\s*], or a class of characters.  Matching
    is Python's: leftmost, greedy, with backtracking. *)

Inductive atom :=
| Lit (w : string)
| Alt (ws : list string)
| Spaces1
| Spaces0
| OneOf (cs : list ascii).

(** Length of the match of [p] at the start of [s], if there is one. *)
Fixpoint match_here (p : list atom) (s : string) : option nat :=
  match p with
  | [] => Some 0
  | a :: p' =>
      let spaces0 :=
        fix spaces0 (s : string) : option nat :=
          match s with
          | String c s' =>
              if is_space c then
                match spaces0 s' with
                | Some n => Some (S n)
                | None => match_here p' s
                end
              else match_here p' s
          | EmptyString => match_here p' s
          end in
      let lit := fun w =>
        if startswith s w
        then option_map (fun n => String.length w + n)
                        (match_here p' (str_drop (String.length w) s))
        else None in
      match a with
      | Lit w => lit w
      | Alt ws =>
          (fix alt (ws : list string) : option nat :=
             match ws with
             | [] => None
             | w :: ws' =>
                 match lit w with
                 | Some n => Some n
                 | None => alt ws'
                 end
             end) ws
      | Spaces0 => spaces0 s
      | Spaces1 =>
          match s with
          | String c s' =>
              if is_space c then option_map S (spaces0 s') else None
          | EmptyString => None
          end
      | OneOf cs =>
          match s with
          | String c s' =>
              if existsb (Ascii.eqb c) cs
              then option_map S (match_here p' s')
              else None
          | EmptyString => None
          end
      end
  end.

(** [re.finditer(pattern, content)]: start offset and text of every
    match, left to right, the search resuming where a match ended.
    [skip] counts the characters of the last match still to pass. *)
Fixpoint finditer_from (p : list atom) (pos skip : nat) (s : string)
    : list (nat * string) :=
  match skip with
  | S n =>
      match s with
      | EmptyString => []
      | String _ s' => finditer_from p (pos + 1) n s'
      end
  | O =>
      match match_here p s with
      | Some len =>
          (pos, str_take len s) ::
          match s with
          | EmptyString => []
          | String _ s' => finditer_from p (pos + 1) (len - 1) s'
          end
      | None =>
          match s with
          | EmptyString => []
          | String _ s' => finditer_from p (pos + 1) 0 s'
          end
      end
  end.

Definition finditer (p : list atom) (content : string) : list (nat * string) :=
  finditer_from p 0 0 content.

(** The table [patterns] of [search_symbol], in the order of the dict. *)
Definition patterns (symbol : string) : list (string * list (list atom)) :=
  [ ("function",
     [ [Lit "def"; Spaces1; Lit symbol; Spaces0; Lit "("];
       [Lit "function"; Spaces1; Lit symbol; Spaces0; Lit "("];
       [Lit "func"; Spaces1; Lit symbol; Spaces0; Lit "("];
       [Lit "fn"; Spaces1; Lit symbol; Spaces0; Lit "("] ]);
    ("class",
     [ [Lit "class"; Spaces1; Lit symbol; Spaces0; OneOf [":"%char; "("%char]];
       [Lit "struct"; Spaces1; Lit symbol; Spaces0; Lit "{"];
       [Lit "interface"; Spaces1; Lit symbol; Spaces0; Lit "{"] ]);
    ("variable",
     [ [Alt ["const"; "let"; "var"]; Spaces1; Lit symbol; Spaces0; Lit "="];
       [Lit symbol; Spaces0; Lit ":="];
       [Alt ["let"; "const"]; Spaces1; Lit symbol; Spaces0; Lit ":"] ]) ].

(** [if symbol_type and symbol_type in patterns: ... else: ...] *)
Definition search_patterns (symbol : string) (symbol_type : option string)
    : list (list atom) :=
  match truthy symbol_type with
  | Some ty =>
      match assoc_get ty (patterns symbol) with
      | Some ps => ps
      | None => concat (map snd (patterns symbol))
      end
  | None => concat (map snd (patterns symbol))
  end.

(** The inner loop over the patterns for one row: the first pattern with
    a match makes the result of the file. *)
Fixpoint symbol_result (pats : list (list atom)) (path content : string)
    : option SearchResult.t :=
  match pats with
  | [] => None
  | pattern :: pats' =>
      match finditer pattern content with
      | [] => symbol_result pats' path content
      | (first_match :: _) as matches =>
          let line_number :=
            count_char newline (str_take (fst first_match) content) + 1 in
          let lines := split newline content in
          let start := Nat.max 0 (line_number - 2) in
          let stop := Nat.min (List.length lines) (line_number + 3) in
          let context := join (str1 newline) (slice start stop lines) in
          Some (SearchResult.mk path (str_take 500 content)
                  (Qc_of_nat (List.length matches)) line_number context
                  "symbol" (map snd (firstn 3 matches)))
      end
  end.

(** The outer loop over the rows, with its [break] once [limit] results
    are there. *)
Fixpoint symbol_loop (pats : list (list atom)) (limit : nat)
    (rows : list FileRow.t) (results : list SearchResult.t)
    : list SearchResult.t :=
  match rows with
  | [] => results
  | row :: rows' =>
      let results' :=
        match symbol_result pats (FileRow.path row) (FileRow.content row) with
        | Some r => results ++ [r]
        | None => results
        end in
      if limit <=? List.length results' then results'
      else symbol_loop pats limit rows' results'
  end.

(** [SearchEngine.search_symbol] *)
Definition search_symbol (d : database) (symbol : string)
    (symbol_type : option string) (limit : nat) : list SearchResult.t :=
  let results := symbol_loop (search_patterns symbol symbol_type) limit
                             (files d) [] in
  firstn limit (sorted_desc SearchResult.score results).

(** ** What a finished pass leaves behind

    The key of a file in the store, and the statement that the store
    holds the hash of the content of every readable file of a list. *)

Definition file_key (f : FsFile.t) : string := path_str (FsFile.path f).

Definition hashes_ok (sha256_hex16 : string -> string)
    (files : list FsFile.t) (d : database) : Prop :=
  forall f c, In f files -> FsFile.read f = Some c ->
              _get_file_hash (file_key f) d = Some (sha256_hex16 c).

(** ** The store invariant

    The index holds the document of every row, in the order of the
    rows; no two rows share an [id]; no [id] is beyond the sequence. *)

Definition store_ok (d : database) : Prop :=
  files_fts d = map entry_of_row (files d)
  /\ NoDup (map FileRow.id (files d))
  /\ Forall (fun r => FileRow.id r <= files_seq d) (files d).

(** Two versions of [a.py]. *)
Definition version_x := IndexedFile.mk "a.py" "x" "python" 1 0 "h1".
Definition version_y := IndexedFile.mk "a.py" "y" "python" 1 0 "h2".

(** ** Reciprocal Rank Fusion in the words of its description

    What the occurrences of [p] in a ranked list of paths add to its
    score: [1 / (k + r + 1)] for an occurrence at rank [r], ranks counted
    from [rank]. *)

Fixpoint contrib (p : string) (rank : nat) (paths : list string) : Qc :=
  match paths with
  | [] => 0%Qc
  | x :: rest =>
      ((if String.eqb x p then rrf_score rank else 0) + contrib p (rank + 1) rest)%Qc
  end.

(** The invariant of the two fusion loops: every key of [scores] has a
    result in [results_map], stored under its own path. *)
Definition fusion_ok (acc : fusion) : Prop :=
  (forall p, In p (map fst (fst acc)) -> is_Some (snd acc !! p))
  /\ (forall p r, snd acc !! p = Some r -> SearchResult.path r = p).

(** Two results for the fusion example. *)
Definition hit (path : string) : SearchResult.t :=
  SearchResult.mk path "foo" 1%Qc 1 "foo" "fulltext" ["foo"].
Definition a_then_b : list SearchResult.t := [hit "a.py"; hit "b.py"].

(** ** The query sanitizer in the words of its description

    A phrase query is the text between two double quotes, every double
    quote of the text written twice.  A bag-of-words query is the text
    with every special character turned into a space, the runs of
    whitespace then shrunk to one space each and dropped at both ends. *)

Fixpoint str_exists (f : ascii -> bool) (s : string) : bool :=
  match s with
  | EmptyString => false
  | String c s' => f c || str_exists f s'
  end.

Fixpoint str_map (f : ascii -> ascii) (s : string) : string :=
  match s with
  | EmptyString => EmptyString
  | String c s' => String (f c) (str_map f s')
  end.

Definition has_whitespace (q : string) : bool := str_exists is_space q.

Definition has_space (q : string) : bool := str_exists (Ascii.eqb " ") q.

Definition starts_with_dquote (q : string) : bool :=
  match q with
  | String c _ => Ascii.eqb c dquote
  | EmptyString => false
  end.

Fixpoint double_quotes (s : string) : string :=
  match s with
  | EmptyString => EmptyString
  | String c s' =>
      if Ascii.eqb c dquote then String dquote (String dquote (double_quotes s'))
      else String c (double_quotes s')
  end.

Definition phrase_query (q : string) : string :=
  String dquote (double_quotes q +:+ str1 dquote).

Definition is_special (c : ascii) : bool := existsb (Ascii.eqb c) special_chars.

Definition blank_special (q : string) : string :=
  str_map (fun c => if is_special c then " "%char else c) q.

(** [started]: a word was written already; [pending]: whitespace was
    read since. *)
Fixpoint collapse_ws (started pending : bool) (s : string) : string :=
  match s with
  | EmptyString => EmptyString
  | String c s' =>
      if is_space c then collapse_ws started true s'
      else if started && pending
           then String " " (String c (collapse_ws true false s'))
           else String c (collapse_ws true false s')
  end.

Definition bag_of_words (q : string) : string :=
  collapse_ws false false (blank_special q).

Definition nonempty (s : string) : bool :=
  match s with
  | EmptyString => false
  | String _ _ => true
  end.

(** ** Values used in the examples *)

(** Two lines, one under the other. *)
Definition nl (a b : string) : string := a +:+ str1 newline +:+ b.

(** A file with three lines, the first and the last hold [foo]. *)
Definition foo_bar_foo : string := nl "foo" (nl "bar" "foo").

(** [src/node_modules/foo/bar.js] below the indexing root. *)
Definition nested_node_modules : FsFile.t :=
  FsFile.mk ["src"; "node_modules"; "foo"; "bar.js"] (Some "x = 1") 5 0.

(** Two stored files: [a.py] defines [f] once, [b.py] twice. *)
Definition one_def : FileRow.t :=
  FileRow.mk 1 "a.py" "def f(): pass" "python" 13 0 "h1" 0.
Definition two_defs : FileRow.t :=
  FileRow.mk 2 "b.py" (nl "def f(): pass" "def f(x): pass") "python" 28 0 "h2" 0.
Definition two_files : database := Database [one_def; two_defs] 2 [] ∅.

(** The FTS5 engine of the hybrid example: two files hold [foo], the
    better [bm25] first. *)
Definition two_hits : string -> option string -> option string -> nat
                      -> outcome (list fts_row) :=
  fun _ _ _ limit =>
    Return (firstn limit
              [ ("a.py", "x foo", "python", (- Q2Qc (3 # 2))%Qc);
                ("b.py", "foo", "python", (- 1)%Qc) ]).

(** The semantic extra is not installed: the import fails. *)
Definition not_installed : string -> nat -> option string -> option string
                           -> outcome (list SearchResult.t) :=
  fun _ _ _ _ => Raise (ImportError "No module named codex_lens.semantic").

(** An engine that rejects every MATCH string as FTS5 does. *)
Definition rejects : string -> option string -> option string -> nat
                     -> outcome (list fts_row) :=
  fun _ _ _ _ => Raise (OperationalError "fts5: syntax error near ").

(** The one-file tree of the examples. *)
Definition hello_py : FsFile.t :=
  FsFile.mk ["hello.py"]
            (Some (nl "def greet():" (nl "    return hi" EmptyString))) 27 7.

(** ** Symbol planner: the matching files

    The result of every stored file that has one, in table order. *)
Definition symbol_matches (pats : list (list atom)) (rows : list FileRow.t)
    : list SearchResult.t :=
  omap (fun row => symbol_result pats (FileRow.path row) (FileRow.content row))
       rows.

(** ** Match extractor: the matching lines

    The lines of [rest] that hold the lowered query, each with its
    0-based number, counted from [i]; and the context around line [i]. *)
Fixpoint matching_lines (query_lower : string) (i : nat) (rest : list string)
    : list (nat * string) :=
  match rest with
  | [] => []
  | line :: rest' =>
      if str_in query_lower (lower line)
      then (i, line) :: matching_lines query_lower (i + 1) rest'
      else matching_lines query_lower (i + 1) rest'
  end.

Definition context_around (lines : list string) (context_lines i : nat)
    : string :=
  join (str1 newline)
       (slice (Nat.max 0 (i - context_lines))
              (Nat.min (List.length lines) (i + context_lines + 1)) lines).

(** ** Query sanitizer: reading the output back

    A character the bag-of-words query must not hold: a special
    character, or whitespace other than the space. *)
Definition unsafe_char (c : ascii) : bool :=
  is_special c || (is_space c && negb (Ascii.eqb c " ")).

(** Reading a quoted phrase back: after the opening quote a doubled
    quote stands for one quote and a single quote must end the text. *)
Fixpoint unquote_body (s : string) : option string :=
  match s with
  | EmptyString => None
  | String c s' =>
      if Ascii.eqb c dquote then
        match s' with
        | EmptyString => Some EmptyString
        | String c' s'' =>
            if Ascii.eqb c' dquote
            then option_map (String dquote) (unquote_body s'')
            else None
        end
      else option_map (String c) (unquote_body s')
  end.

Definition unquote (s : string) : option string :=
  match s with
  | String c s' => if Ascii.eqb c dquote then unquote_body s' else None
  | EmptyString => None
  end.

(** ** Fallback planner: queries without LIKE wildcards *)

Definition like_wildcard (c : ascii) : bool :=
  Ascii.eqb c "%" || Ascii.eqb c "_".

(** The test the LIKE of [_fallback_search] comes to for such a query:
    the query is part of the text, the letters A..Z read as a..z. *)
Definition contains_folded (query content : string) : bool :=
  str_in (str_map like_fold query) (str_map like_fold content).

(** ** Hybrid planner: examples of backends *)

(** A semantic backend that is installed and breaks at search time. *)
Definition backend_fails : string -> nat -> option string -> option string
                           -> outcome (list SearchResult.t) :=
  fun _ _ _ _ => Raise (OtherException "model file missing").

(** What the fused branch makes of a result at rank [i] that both lists
    hold at that rank. *)
Definition fused_twice (i : nat) (r : SearchResult.t) : SearchResult.t :=
  SearchResult.set_search_type "hybrid"
    (SearchResult.set_score (rrf_score i + rrf_score i)%Qc r).

(** A semantic result for [a.py] that differs from the full-text one. *)
Definition semantic_hit : SearchResult.t :=
  SearchResult.mk "a.py" "embedding match" 1%Qc 0 EmptyString "semantic" [].

(** ** Indexer: the readable files of a scan *)

(** The files of a list that can be read, each with its content. *)
Definition readable (files : list FsFile.t) : list (FsFile.t * string) :=
  omap (fun f => option_map (fun c => (f, c)) (FsFile.read f)) files.

Definition sum_nat (l : list nat) : nat := fold_right Nat.add 0 l.

(** [languages.get(lang, 0)] *)
Definition language_count (languages : gmap string nat) (lang : string) : nat :=
  default 0 (languages !! lang).

(** A tree of three files: one indexable, one ignored, one unreadable. *)
Definition small_tree : list FsFile.t :=
  [ hello_py;
    FsFile.mk ["node_modules"; "x.js"] (Some "x") 1 0;
    FsFile.mk ["broken.py"] None 9 0 ].

(** A store that holds two files the tree does not have. *)
Definition old_store : database :=
  Database [one_def; two_defs] 2 [entry_of_row one_def; entry_of_row two_defs] ∅.

(** ** Ignore matcher: patterns without wildcards *)

(** The characters [fnmatch] gives a meaning to. *)
Definition glob_meta (c : ascii) : bool :=
  Ascii.eqb c "*" || Ascii.eqb c "?" || Ascii.eqb c "[".

(** A pattern that holds none of them. *)
Definition literal_pattern (pat : string) : bool :=
  negb (str_exists glob_meta pat).

(** What [_should_ignore] comes to for one such pattern: the pattern is
    the file name, the relative path, or one of the parents, each taken
    as a whole. *)
Definition matches_literally (path : rel_path) (pattern : string) : bool :=
  String.eqb (path_name path) pattern
  || String.eqb (path_str path) pattern
  || existsb (fun parent => String.eqb parent pattern) (parents path).

(** ** Storage: scripts that never overwrite

    [fresh_upserts ops d]: run from [d], every upsert of the script
    meets a store without a row for its path. *)
Fixpoint fresh_upserts (ops : list store_op) (d : database) : bool :=
  match ops with
  | [] => true
  | o :: ops' =>
      match o with
      | OpUpsert _ f =>
          match _get_file_hash (IndexedFile.path f) d with
          | None => true
          | Some _ => false
          end
      | _ => true
      end
      && fresh_upserts ops' (run_op_with connection_recursive_triggers o d)
  end.

(** The rows of [files] that hold [path]. *)
Definition rows_at (path : string) (d : database) : list FileRow.t :=
  List.filter (fun r => String.eqb (FileRow.path r) path) (files d).

(** ** search.py: [SearchEngine.search], [SearchEngine.search_file];
    indexer.py: [CodeIndexer.get_indexed_files] *)

(** [SearchEngine.search]: the planner is chosen by [self.search_mode]. *)
Definition search (search_mode : string) (d : database)
    (fts5_select :
       string -> option string -> option string -> nat -> outcome (list fts_row))
    (semantic_searcher :
       string -> nat -> option string -> option string ->
       outcome (list SearchResult.t))
    (query : string) (limit : nat) (language path_filter : option string)
    : outcome (list SearchResult.t) :=
  if String.eqb search_mode "semantic" then
    _semantic_search d fts5_select semantic_searcher query limit
                     language path_filter
  else if String.eqb search_mode "hybrid" then
    _hybrid_search d fts5_select semantic_searcher query limit
                   language path_filter
  else _fulltext_search d fts5_select query limit language path_filter.

(** [ORDER BY path]: the paths compared character by character, by code
    point. *)
Definition path_leb (a b : string) : bool :=
  match String.compare a b with
  | Gt => false
  | _ => true
  end.

Fixpoint insert_by_path (r : FileRow.t) (l : list FileRow.t) : list FileRow.t :=
  match l with
  | [] => [r]
  | y :: l' =>
      if path_leb (FileRow.path r) (FileRow.path y) then r :: l
      else y :: insert_by_path r l'
  end.

Definition order_by_path (rows : list FileRow.t) : list FileRow.t :=
  foldr insert_by_path [] rows.

(** [str(n)] *)
Definition str_of_nat (n : nat) : string :=
  NilEmpty.string_of_uint (Nat.to_uint n).

(** [f"{line_count} lines, {len(content)} bytes"] *)
Definition file_summary (content : string) : string :=
  str_of_nat (count_char newline content + 1) +:+ " lines, "
  +:+ str_of_nat (String.length content) +:+ " bytes".

(** [pattern.replace('*', '%').replace('?', '_')] *)
Definition sql_pattern (pattern : string) : string :=
  replace "?" "_" (replace "*" "%" pattern).

(** [SearchEngine.search_file]: SQLite answers [ORDER BY path] by a scan
    of the index of the UNIQUE column [path], so the rows are visited in
    ascending order of path. *)
Definition search_file (d : database) (pattern : string) (limit : nat)
    : outcome (list SearchResult.t) :=
  if sqlite_int64 limit then
    match
      select_where
        (fun r => like (percent (sql_pattern pattern)) (FileRow.path r))
        (order_by_path (files d)) limit
    with
    | Raise e => Raise e
    | Return rows =>
        Return
          (map (fun r =>
                  SearchResult.mk (FileRow.path r)
                                  (file_summary (FileRow.content r))
                                  1%Qc 0 EmptyString "file" [])
               rows)
    end
  else Raise bind_overflow.

(** [CodeIndexer.get_indexed_files] *)
Definition get_indexed_files (d : database) (language : option string)
    : list string :=
  map FileRow.path
      (order_by_path
         (List.filter
            (fun r => opt_test (truthy language)
                               (fun l => String.eqb (FileRow.language r) l))
            (files d))).

(** What FTS5 answers to the MATCH string [a{b]: it reads [{b] as a
    column filter, and the table has no column [b]. *)
Definition no_such_column_b : exn := OperationalError "no such column: b".

(** An engine that rejects the MATCH string [a{b] as FTS5 does. *)
Definition rejects_column : string -> option string -> option string -> nat
                            -> outcome (list fts_row) :=
  fun q _ _ _ =>
    if String.eqb q "a{b" then Raise no_such_column_b else Return [].

(** A store whose one file holds the text [a{b]. *)
Definition brace_file : FileRow.t :=
  FileRow.mk 1 "x.py" "x = a{b" "python" 7 0 "h3" 0.
Definition brace_store : database := Database [brace_file] 1 [] ∅.

(** Three stored files that hold [def]; in the third a NUL stands before
    it. *)
Definition nul_file : FileRow.t :=
  FileRow.mk 3 "c.js" ("a" +:+ str1 nul +:+ "def z") "javascript" 7 0 "h4" 0.
Definition nul_files : database :=
  Database [one_def; two_defs; nul_file] 3 [] ∅.

(** Three stored files, out of order of path; the path of the third
    holds a NUL. *)
Definition nul_paths : database :=
  Database
    [ FileRow.mk 1 "b.py" "x" "python" 1 0 "h5" 0;
      FileRow.mk 2 "a.py" "y" "python" 1 0 "h6" 0;
      FileRow.mk 3 ("d" +:+ str1 nul +:+ "e.py") "q" "python" 1 0 "h7" 0 ]
    3 [] ∅.

(* ================================================================== *)
(** * Part II.  Properties                                             *)
(* ================================================================== *)

(** ** Match extractor *)

Lemma find_loop_no_match lines q c i rest st :
  Forall (fun line => str_in q (lower line) = false) rest ->
  find_loop lines q c i rest st = st.
Proof.
  intros H. revert i. induction H as [|line rest Hl _ IH]; intros i.
  - reflexivity.
  - cbn [find_loop]. rewrite Hl. apply IH.
Qed.

(** When no line holds the query the answer is line 0 with an empty
    context and no highlight. *)
Lemma find_matches_no_match content query :
  Forall (fun line => str_in (lower query) (lower line) = false)
         (split newline content) ->
  _find_matches content query = MatchInfo.mk 0 EmptyString [].
Proof.
  intros H. unfold _find_matches, _find_matches_ctx.
  now apply find_loop_no_match.
Qed.

(** A single matching line is reported with its own number. *)
Example find_matches_greet :
  _find_matches (nl "def greet():" (nl "    return hi" EmptyString)) "greet"
  = MatchInfo.mk 1 (nl "def greet():" (nl "    return hi" EmptyString))
                 ["def greet():"].
Proof. reflexivity. Qed.

(** C4 (code_bug).  On [foo / bar / foo] with the query [foo] the first
    matching line is line 1, yet [_find_matches] answers line 3 with the
    context of line 3: the line number and the context are written again
    at every match, up to the third. *)
Theorem find_matches_reports_later_match :
  str_in (lower "foo") (lower "foo") = true /\
  split newline foo_bar_foo = ["foo"; "bar"; "foo"] /\
  _find_matches foo_bar_foo "foo"
  = MatchInfo.mk 3 foo_bar_foo ["foo"; "foo"].
Proof. repeat split; reflexivity. Qed.

(** ** Ignore matcher *)

(** A pattern at the top of the relative path is seen: the parent
    [node_modules] is the pattern itself. *)
Example ignore_top_level :
  _should_ignore DEFAULT_IGNORE_PATTERNS ["node_modules"; "foo"; "bar.js"] = true.
Proof. reflexivity. Qed.

Lemma parents_upto_In n (path : rel_path) i :
  i < n -> In (parent_str (firstn i path)) (parents_upto n path).
Proof.
  induction n as [|n IH]; intros Hi; [lia|].
  cbn [parents_upto]. destruct (Nat.eq_dec i n) as [->|Hne]; [now left|].
  right. apply IH. lia.
Qed.

(** X23.  What does hold: a first component that is one of the patterns
    hides everything below it. *)
Lemma should_ignore_top_component patterns p q rest :
  In p patterns ->
  _should_ignore patterns (p :: q :: rest) = true.
Proof.
  intros Hp. unfold _should_ignore. apply existsb_exists.
  exists p. split; [exact Hp|].
  apply orb_true_iff. right. apply existsb_exists.
  exists p. split; [|now rewrite String.eqb_refl, orb_true_r].
  pose proof (parents_upto_In (List.length (p :: q :: rest)) (p :: q :: rest) 1)
    as H.
  cbn [firstn parent_str join] in H. apply H. cbn. lia.
Qed.

(** C3 (code_bug).  [src/node_modules/foo/bar.js] has the component
    [node_modules], a default pattern, yet [_should_ignore] answers false
    and the scanner yields the file: the parents are compared as whole
    paths ([src/node_modules/foo], [src/node_modules], [src], [.]), never
    component by component. *)
Theorem should_ignore_misses_nested_component :
  In "node_modules" DEFAULT_IGNORE_PATTERNS /\
  In "node_modules" (FsFile.path nested_node_modules) /\
  parents (FsFile.path nested_node_modules)
  = ["src/node_modules/foo"; "src/node_modules"; "src"; "."] /\
  _should_ignore DEFAULT_IGNORE_PATTERNS (FsFile.path nested_node_modules) = false /\
  _scan_files DEFAULT_IGNORE_PATTERNS [nested_node_modules] = [nested_node_modules].
Proof.
  split; [now left|]. split; [right; now left|].
  repeat split; reflexivity.
Qed.

(** ** Symbol planner *)

Lemma search_patterns_unknown symbol ty :
  ty <> "function" -> ty <> "class" -> ty <> "variable" ->
  search_patterns symbol (Some ty) = search_patterns symbol None.
Proof.
  intros Hf Hc Hv. unfold search_patterns.
  destruct ty as [|c ty]; [reflexivity|].
  cbn [truthy patterns assoc_get].
  apply not_eq_sym, String.eqb_neq in Hf, Hc, Hv.
  now rewrite Hf, Hc, Hv.
Qed.

(** C10.  A [symbol_type] that is none of [function], [class],
    [variable] gives the results of a call without [symbol_type]: the
    union of all patterns is searched, and nothing is raised (the
    function is total). *)
Theorem search_symbol_unknown_type d symbol ty limit :
  ty <> "function" -> ty <> "class" -> ty <> "variable" ->
  search_symbol d symbol (Some ty) limit = search_symbol d symbol None limit
  /\ search_patterns symbol (Some ty) = concat (map snd (patterns symbol)).
Proof.
  intros Hf Hc Hv. unfold search_symbol.
  rewrite (search_patterns_unknown symbol ty Hf Hc Hv).
  split; reflexivity.
Qed.

Lemma search_symbol_unknown_type_witness :
  search_symbol two_files "f" (Some "method") 5
  = search_symbol two_files "f" None 5
  /\ search_patterns "f" (Some "method") = concat (map snd (patterns "f")).
Proof.
  apply (search_symbol_unknown_type two_files "f" "method" 5); discriminate.
Defined.

(** C6 (code_bug).  With [limit = 1] and the stored files [a.py] (one
    match) and [b.py] (two matches) the answer is [a.py] with score 1:
    the loop leaves as soon as [limit] results are collected, so the
    sort sees the first [limit] matching files only and [b.py], the
    highest score, is never looked at. *)
Theorem search_symbol_stops_at_limit :
  map (fun r => (SearchResult.path r, SearchResult.score r))
      (search_symbol two_files "f" (Some "function") 2)
  = [("b.py", Qc_of_nat 2); ("a.py", Qc_of_nat 1)] /\
  map (fun r => (SearchResult.path r, SearchResult.score r))
      (search_symbol two_files "f" (Some "function") 1)
  = [("a.py", Qc_of_nat 1)].
Proof. split; vm_compute; reflexivity. Qed.

(** ** Query sanitizer *)

Lemma append_cons c s t : String c s +:+ t = String c (s +:+ t).
Proof. reflexivity. Qed.

Lemma append_nil_r s : s +:+ EmptyString = s.
Proof. induction s as [|c s IH]; [reflexivity|]. now rewrite append_cons, IH. Qed.

Lemma append_assoc s t u : (s +:+ t) +:+ u = s +:+ (t +:+ u).
Proof.
  induction s as [|c s IH]; [reflexivity|]. now rewrite !append_cons, IH.
Qed.

Lemma startswith_str1 a s c : startswith (String a s) (str1 c) = Ascii.eqb c a.
Proof. cbn. destruct (Ascii.eqb c a); [now destruct s | reflexivity]. Qed.

Lemma str_in_space q : str_in " " q = has_space q.
Proof.
  induction q as [|a q IH]; [reflexivity|].
  cbn [str_in]. change " " with (str1 " "%char) at 1.
  rewrite startswith_str1. unfold has_space in *. cbn [str_exists].
  now rewrite IH.
Qed.

Lemma startswith_dquote q : startswith q (str1 dquote) = starts_with_dquote q.
Proof.
  destruct q as [|a q]; [reflexivity|].
  rewrite startswith_str1. apply eqb_sym.
Qed.

Lemma replace_dquote q :
  replace (str1 dquote) (String dquote (str1 dquote)) q = double_quotes q.
Proof.
  change (replace_from (str1 dquote) (String dquote (str1 dquote)) 0 q
          = double_quotes q).
  induction q as [|a q IH]; [reflexivity|].
  cbn [replace_from double_quotes].
  rewrite startswith_str1, (eqb_sym dquote a).
  change (String.length (str1 dquote) - 1) with 0.
  destruct (Ascii.eqb a dquote); rewrite IH; reflexivity.
Qed.

Lemma replace_char ch q :
  replace (str1 ch) " " q
  = str_map (fun c => if Ascii.eqb ch c then " "%char else c) q.
Proof.
  change (replace_from (str1 ch) " " 0 q
          = str_map (fun c => if Ascii.eqb ch c then " "%char else c) q).
  induction q as [|a q IH]; [reflexivity|].
  cbn [replace_from str_map].
  rewrite startswith_str1.
  change (String.length (str1 ch) - 1) with 0.
  destruct (Ascii.eqb ch a); rewrite IH; reflexivity.
Qed.

Lemma str_map_compose f g s : str_map f (str_map g s) = str_map (fun c => f (g c)) s.
Proof. induction s as [|a s IH]; [reflexivity|]. cbn. now rewrite IH. Qed.

Lemma str_map_ext f g s : (forall c, f c = g c) -> str_map f s = str_map g s.
Proof. intros H. induction s as [|a s IH]; [reflexivity|]. cbn. now rewrite H, IH. Qed.

Lemma replace_special_chars q :
  fold_left (fun cleaned char => replace (str1 char) " " cleaned)
            special_chars q
  = blank_special q.
Proof.
  unfold special_chars, blank_special. cbn [fold_left].
  rewrite !replace_char, !str_map_compose.
  apply str_map_ext.
  intros [[] [] [] [] [] [] [] []]; reflexivity.
Qed.

Lemma collapse_ws_not_started s :
  collapse_ws false true s = collapse_ws false false s.
Proof. destruct s as [|c s]; [reflexivity|]. cbn. reflexivity. Qed.

Lemma split_ws_acc_nonempty s : forall cur,
  nonempty cur = true -> split_ws_acc cur s <> [].
Proof.
  induction s as [|c s IH]; intros cur Hcur; cbn [split_ws_acc].
  - destruct cur; [discriminate|]. discriminate.
  - destruct (is_space c).
    + destruct cur; [discriminate|]. discriminate.
    + apply IH. now destruct cur.
Qed.

Lemma join_split_ws_acc s :
  (forall cur, join " " (split_ws_acc cur s)
               = cur +:+ collapse_ws (nonempty cur) false s)
  /\ collapse_ws true true s
     = match split_ws_acc EmptyString s with
       | [] => EmptyString
       | l => " " +:+ join " " l
       end.
Proof.
  induction s as [|c s [IHg IHk]].
  - split; [|reflexivity].
    intros [|a cur]; [reflexivity|]. cbn. now rewrite append_nil_r.
  - split.
    + intros cur. cbn [split_ws_acc collapse_ws].
      destruct (is_space c).
      * destruct cur as [|a cur].
        -- cbn [flush app nonempty]. rewrite IHg. cbn [nonempty].
           now rewrite collapse_ws_not_started.
        -- cbn [flush app nonempty]. rewrite IHk.
           destruct (split_ws_acc EmptyString s) as [|x l].
           ++ cbn. now rewrite append_nil_r.
           ++ reflexivity.
      * rewrite IHg, andb_false_r.
        replace (nonempty (cur +:+ str1 c)) with true by now destruct cur.
        now rewrite append_assoc.
    + cbn [split_ws_acc collapse_ws].
      destruct (is_space c); [exact IHk|].
      cbn [andb]. change (EmptyString +:+ str1 c) with (str1 c).
      pose proof (split_ws_acc_nonempty s (str1 c) eq_refl) as Hne.
      specialize (IHg (str1 c)).
      destruct (split_ws_acc (str1 c) s) as [|x l]; [congruence|].
      now rewrite IHg.
Qed.

Lemma join_split_ws s : join " " (split_ws s) = collapse_ws false false s.
Proof. unfold split_ws. now rewrite (proj1 (join_split_ws_acc s)). Qed.

(** C8 (amended).  A query that holds a space character (U+0020) and
    does not start with a double quote becomes the phrase query; every
    other query, also one whose only whitespace is a tab or a newline,
    becomes the bag-of-words query, whose whitespace runs are shrunk to
    one space and dropped at both ends. *)
Theorem prepare_fts_query_policy q :
  _prepare_fts_query q
  = if has_space q && negb (starts_with_dquote q)
    then phrase_query q
    else bag_of_words q.
Proof.
  unfold _prepare_fts_query.
  rewrite str_in_space, startswith_dquote.
  destruct (has_space q && negb (starts_with_dquote q)).
  - rewrite replace_dquote. reflexivity.
  - now rewrite replace_special_chars, join_split_ws.
Qed.

(** C8 as stated fails: [a<TAB>b] holds whitespace and does not start
    with a double quote, yet the answer is the bag of words [a b], not
    the quoted phrase. *)
Lemma prepare_fts_query_tab_is_not_phrase :
  let q := "a" +:+ str1 tab +:+ "b" in
  has_whitespace q = true /\
  starts_with_dquote q = false /\
  _prepare_fts_query q = "a b" /\
  _prepare_fts_query q <> phrase_query q.
Proof. repeat split; try reflexivity. discriminate. Qed.

(** The bag-of-words branch also drops what the words of the claim would
    keep: a lone parenthesis gives the empty query, not one space. *)
Example prepare_fts_query_paren : _prepare_fts_query "(" = EmptyString.
Proof. reflexivity. Qed.

(** ** Full-text planner and fallback *)

(** The rows a scan gives out when the test raises on none of them. *)
Lemma select_where_total test f rows : forall limit,
  (forall r, In r rows -> test r = Return (f r)) ->
  select_where test rows limit = Return (firstn limit (List.filter f rows)).
Proof.
  induction rows as [|r rows IH]; intros limit H.
  - destruct limit; reflexivity.
  - assert (Hr : test r = Return (f r)) by (apply H; now left).
    assert (Hrows : forall x, In x rows -> test x = Return (f x))
      by (intros x Hx; apply H; now right).
    destruct limit as [|limit]; [reflexivity|].
    cbn [select_where List.filter]. rewrite Hr.
    destruct (f r).
    + rewrite (IH limit Hrows). reflexivity.
    + apply (IH (S limit) Hrows).
Qed.

Lemma fallback_results_shape d query limit language path_filter results :
  _fallback_search d query limit language path_filter = Return results ->
  Forall (fun r => SearchResult.score r = 1%Qc
                   /\ SearchResult.search_type r = "fulltext")
         results.
Proof.
  unfold _fallback_search.
  destruct (sqlite_int64 limit); [|discriminate].
  destruct (select_where _ (files d) limit) as [rows|e]; [|discriminate].
  intros H. injection H as <-.
  apply Forall_map, Forall_forall. intros r _. split; reflexivity.
Qed.

(** An [OperationalError] of the engine whose message mentions [fts5],
    in any case of the letters, is answered by the fallback. *)
Lemma fulltext_search_falls_back
    d fts5_select query limit language path_filter msg :
  fts5_select (_prepare_fts_query query) (truthy language)
              (option_map percent (truthy path_filter)) limit
  = Raise (OperationalError msg) ->
  str_in "fts5" (lower msg) = true ->
  _fulltext_search d fts5_select query limit language path_filter
  = _fallback_search d query limit language path_filter.
Proof.
  intros Hanswer Hmsg. unfold _fulltext_search.
  rewrite Hanswer. cbv beta iota. now rewrite Hmsg.
Qed.

(** Any other error of the engine is raised to the caller. *)
Lemma fulltext_search_raises
    d fts5_select query limit language path_filter msg :
  fts5_select (_prepare_fts_query query) (truthy language)
              (option_map percent (truthy path_filter)) limit
  = Raise (OperationalError msg) ->
  str_in "fts5" (lower msg) = false ->
  _fulltext_search d fts5_select query limit language path_filter
  = Raise (OperationalError msg).
Proof.
  intros Hanswer Hmsg. unfold _fulltext_search.
  rewrite Hanswer. cbv beta iota. now rewrite Hmsg.
Qed.

(** C7 (code_bug).  The sanitizer leaves the query [a{b] as it is.  The
    engine rejects that MATCH string the way FTS5 does, reading [{b] as
    a column filter: [OperationalError], [no such column: b].  The
    message does not mention [fts5], so [_fulltext_search] does not run
    the fallback and raises the error to the caller. *)
Theorem fulltext_search_raises_query_error
    d fts5_select limit language path_filter :
  fts5_select "a{b" (truthy language)
              (option_map percent (truthy path_filter)) limit
  = Raise no_such_column_b ->
  _prepare_fts_query "a{b" = "a{b"
  /\ _fulltext_search d fts5_select "a{b" limit language path_filter
     = Raise no_such_column_b.
Proof.
  intros Hanswer. split; [reflexivity|].
  unfold _fulltext_search.
  change (_prepare_fts_query "a{b") with "a{b".
  rewrite Hanswer. reflexivity.
Qed.

Lemma fulltext_search_raises_query_error_witness :
  _prepare_fts_query "a{b" = "a{b"
  /\ _fulltext_search brace_store rejects_column "a{b" 5 None None
     = Raise no_such_column_b.
Proof.
  apply (fulltext_search_raises_query_error brace_store rejects_column
           5 None None).
  reflexivity.
Defined.

(** What the fallback answers to the same call: the stored file that
    holds [a{b], with score 1 and type [fulltext]. *)
Example fallback_search_brace :
  _fallback_search brace_store "a{b" 5 None None
  = Return [ SearchResult.mk "x.py" "x = a{b" 1%Qc 1 "x = a{b" "fulltext"
                             ["x = a{b"] ].
Proof. reflexivity. Qed.

(** The fallback at work: the engine rejects the empty MATCH string that
    a lone parenthesis is sanitized to with a message that mentions
    [fts5], and the caller gets the files that hold the parenthesis. *)
Example fulltext_search_paren :
  _fulltext_search two_files rejects "(" 5 None None
  = _fallback_search two_files "(" 5 None None
  /\ match _fallback_search two_files "(" 5 None None with
     | Return results => map SearchResult.path results = ["a.py"; "b.py"]
     | Raise _ => False
     end.
Proof. split; reflexivity. Qed.

(** A limit of [2^63] or more does not reach SQLite. *)
Lemma fallback_search_overflow d query limit language path_filter :
  sqlite_int64 limit = false ->
  _fallback_search d query limit language path_filter = Raise bind_overflow.
Proof. intros H. unfold _fallback_search. now rewrite H. Qed.

(** ** Hybrid planner: degradation *)

(** X12.  When the semantic search raises anything but [ImportError]
    the full-text results come back as they are. *)
Lemma hybrid_search_semantic_raises
    d fts5_select semantic_searcher query limit language path_filter
    fulltext_results e :
  _fulltext_search d fts5_select query (limit * 2) language path_filter
  = Return fulltext_results ->
  semantic_searcher query (limit * 2) language path_filter = Raise e ->
  (forall msg, e <> ImportError msg) ->
  _hybrid_search d fts5_select semantic_searcher query limit language path_filter
  = Return (firstn limit fulltext_results).
Proof.
  intros Hft Hsem He. unfold _hybrid_search, _semantic_search.
  rewrite Hft, Hsem.
  destruct e as [msg|msg|msg|msg]; try reflexivity.
  now destruct (He msg).
Qed.

(** C5 (code_bug).  With the semantic extra not installed and
    [limit = 1], the first full-text result is [a.py] with score 3/2 and
    type [fulltext]; the hybrid search returns [a.py] with score 2/61 and
    type [hybrid].  [_semantic_search] turns the [ImportError] into a
    second full-text search, so [_hybrid_search] never sees a failure and
    fuses the full-text list with itself. *)
Theorem hybrid_search_relabels_when_not_installed :
  (exists fulltext_results,
     _fulltext_search empty_database two_hits "foo" (1 * 2) None None
     = Return fulltext_results
     /\ map (fun r => (SearchResult.path r, SearchResult.score r,
                       SearchResult.search_type r))
            (firstn 1 fulltext_results)
        = [("a.py", Q2Qc (3 # 2), "fulltext")])
  /\ (exists results,
        _hybrid_search empty_database two_hits not_installed "foo" 1 None None
        = Return results
        /\ map (fun r => (SearchResult.path r, SearchResult.score r,
                          SearchResult.search_type r))
               results
           = [("a.py", Q2Qc (2 # 61), "hybrid")]).
Proof.
  split; eexists; (split; [reflexivity|]); vm_compute.
  - apply (f_equal (fun q : Qc => [("a.py", q, "fulltext")])).
    now apply Qc_is_canon.
  - apply (f_equal (fun q : Qc => [("a.py", q, "hybrid")])).
    now apply Qc_is_canon.
Qed.

(** ** Hybrid planner: Reciprocal Rank Fusion *)

Lemma Qc_of_nat_lt a b : a < b -> (Qc_of_nat a < Qc_of_nat b)%Qc.
Proof.
  intros H. unfold Qc_of_nat, Qclt. cbn [this Q2Qc].
  rewrite !Qred_correct. rewrite <- Zlt_Qlt. lia.
Qed.
Lemma Qc_of_nat_pos a : 0 < a -> (0 < Qc_of_nat a)%Qc.
Proof. intros H. apply (Qc_of_nat_lt 0 a H). Qed.

Lemma rrf_score_decreasing ra rb : ra < rb -> (rrf_score rb < rrf_score ra)%Qc.
Proof.
  intros H. unfold rrf_score.
  set (na := Qc_of_nat (k + ra + 1)). set (nb := Qc_of_nat (k + rb + 1)).
  assert (Ha : (0 < na)%Qc) by (apply Qc_of_nat_pos; lia).
  assert (Hb : (0 < nb)%Qc) by (apply Qc_of_nat_pos; lia).
  assert (Hab : (na < nb)%Qc) by (apply Qc_of_nat_lt; lia).
  apply (Qcmult_lt_mono_pos_r _ _ (na * nb)%Qc).
  - now apply Qcmult_pos_pos.
  - assert (Hna : na <> 0%Qc) by (apply not_eq_sym, Qclt_not_eq, Ha).
    assert (Hnb : nb <> 0%Qc) by (apply not_eq_sym, Qclt_not_eq, Hb).
    replace (1 / nb * (na * nb))%Qc with na by (field; assumption).
    replace (1 / na * (na * nb))%Qc with nb by (field; assumption).
    exact Hab.
Qed.
Lemma rrf_score_pos r : (0 < rrf_score r)%Qc.
Proof.
  unfold rrf_score. unfold Qcdiv. rewrite Qcmult_1_l. apply Qcinv_pos, Qc_of_nat_pos. lia.
Qed.

Lemma scores_get_add key v scores p :
  scores_get p (scores_add key v scores)
  = if String.eqb key p then (scores_get p scores + v)%Qc else scores_get p scores.
Proof.
  unfold scores_get.
  induction scores as [|[k' x] rest IH]; cbn [scores_add assoc_get].
  - destruct (String.eqb key p); reflexivity.
  - destruct (String.eqb_spec k' key) as [->|Hk]; cbn [assoc_get].
    + destruct (String.eqb key p); reflexivity.
    + destruct (String.eqb_spec k' p) as [->|Hp].
      * apply String.eqb_neq in Hk. rewrite String.eqb_sym in Hk. now rewrite Hk.
      * exact IH.
Qed.

Lemma fuse_fulltext_scores l : forall rank scores m p,
  scores_get p (fst (fuse_fulltext rank l (scores, m)))
  = (scores_get p scores + contrib p rank (map SearchResult.path l))%Qc.
Proof.
  induction l as [|r l IH]; intros rank scores m p; cbn [fuse_fulltext map contrib].
  - cbn. ring.
  - rewrite IH, scores_get_add.
    destruct (String.eqb (SearchResult.path r) p); ring.
Qed.

Lemma fuse_semantic_scores l : forall rank scores m p,
  scores_get p (fst (fuse_semantic rank l (scores, m)))
  = (scores_get p scores + contrib p rank (map SearchResult.path l))%Qc.
Proof.
  induction l as [|r l IH]; intros rank scores m p; cbn [fuse_semantic map contrib].
  - cbn. ring.
  - rewrite IH, scores_get_add.
    destruct (String.eqb (SearchResult.path r) p); ring.
Qed.

Lemma contrib_not_in p paths : forall rank, ~ In p paths -> contrib p rank paths = 0%Qc.
Proof.
  induction paths as [|x rest IH]; intros rank Hp; cbn [contrib]; [reflexivity|].
  destruct (String.eqb_spec x p) as [->|_].
  - exfalso. apply Hp. now left.
  - rewrite IH; [ring|]. intros H. apply Hp. now right.
Qed.

Lemma contrib_at p paths : forall rank i,
  NoDup paths -> paths !! i = Some p ->
  contrib p rank paths = rrf_score (rank + i).
Proof.
  induction paths as [|x rest IH]; intros rank i Hnd Hi; [discriminate|].
  apply NoDup_cons in Hnd as [Hx Hnd]. cbn [contrib].
  destruct i as [|i]; cbn in Hi.
  - injection Hi as ->. rewrite String.eqb_refl, Nat.add_0_r.
    rewrite contrib_not_in; [ring|]. now rewrite <- list_elem_of_In.
  - destruct (String.eqb_spec x p) as [->|_].
    + exfalso. apply Hx. eapply list_elem_of_lookup_2; eauto.
    + rewrite (IH (rank + 1) i Hnd Hi). replace (rank + 1 + i) with (rank + S i) by lia. ring.
Qed.

Lemma fused_score p ft sem i j :
  NoDup (map SearchResult.path ft) -> NoDup (map SearchResult.path sem) ->
  map SearchResult.path ft !! i = Some p ->
  map SearchResult.path sem !! j = Some p ->
  scores_get p (fst (fused_scores ft sem)) = (rrf_score i + rrf_score j)%Qc.
Proof.
  intros Hft Hsem Hi Hj. unfold fused_scores.
  destruct (fuse_fulltext 0 ft ([], ∅)) as [s1 m1] eqn:E1.
  rewrite fuse_semantic_scores.
  replace s1 with (fst (fuse_fulltext 0 ft ([], ∅))) by now rewrite E1.
  rewrite fuse_fulltext_scores.
  rewrite (contrib_at p _ 0 i Hft Hi), (contrib_at p _ 0 j Hsem Hj).
  cbn. ring.
Qed.

Lemma scores_add_keys key v scores p :
  In p (map fst (scores_add key v scores)) <-> p = key \/ In p (map fst scores).
Proof.
  induction scores as [|[k' x] rest IH]; cbn [scores_add map fst In].
  - cbn. intuition.
  - destruct (String.eqb_spec k' key) as [->|Hk]; cbn [map fst In].
    + intuition.
    + rewrite IH. intuition.
Qed.

Lemma fuse_fulltext_ok l : forall rank acc,
  fusion_ok acc -> fusion_ok (fuse_fulltext rank l acc).
Proof.
  induction l as [|r l IH]; intros rank [scores m] [Hk Hm]; [now split|].
  cbn [fuse_fulltext]. apply IH. cbn [fst snd] in *. split; cbn [fst snd].
  - intros p Hp. apply scores_add_keys in Hp.
    destruct (decide (SearchResult.path r = p)) as [<-|Hne].
    + rewrite lookup_insert_eq. eauto.
    + rewrite lookup_insert_ne by exact Hne. apply Hk.
      destruct Hp as [->|Hp]; [congruence | exact Hp].
  - intros p r0. destruct (decide (SearchResult.path r = p)) as [<-|Hne].
    + rewrite lookup_insert_eq. now intros [= <-].
    + rewrite lookup_insert_ne by exact Hne. apply Hm.
Qed.

Lemma fuse_semantic_ok l : forall rank acc,
  fusion_ok acc -> fusion_ok (fuse_semantic rank l acc).
Proof.
  induction l as [|r l IH]; intros rank [scores m] [Hk Hm]; [now split|].
  cbn [fuse_semantic]. apply IH. cbn [fst snd] in *.
  destruct (m !! SearchResult.path r) as [r0|] eqn:E; split; cbn [fst snd].
  - intros p Hp. apply scores_add_keys in Hp.
    destruct Hp as [->|Hp]; [rewrite E; eauto | now apply Hk].
  - exact Hm.
  - intros p Hp. apply scores_add_keys in Hp.
    destruct (decide (SearchResult.path r = p)) as [<-|Hne].
    + rewrite lookup_insert_eq. eauto.
    + rewrite lookup_insert_ne by exact Hne. apply Hk.
      destruct Hp as [->|Hp]; [congruence | exact Hp].
  - intros p r0. destruct (decide (SearchResult.path r = p)) as [<-|Hne].
    + rewrite lookup_insert_eq. now intros [= <-].
    + rewrite lookup_insert_ne by exact Hne. apply Hm.
Qed.

Lemma fused_scores_ok ft sem : fusion_ok (fused_scores ft sem).
Proof.
  unfold fused_scores. apply fuse_semantic_ok, fuse_fulltext_ok.
  split; [intros p []|]. intros p r. cbn. now rewrite lookup_empty.
Qed.

Lemma fuse_fulltext_keys l : forall rank scores m p,
  In p (map fst scores) \/ In p (map SearchResult.path l) ->
  In p (map fst (fst (fuse_fulltext rank l (scores, m)))).
Proof.
  induction l as [|r l IH]; intros rank scores m p H; cbn [fuse_fulltext].
  - destruct H as [H|[]]. exact H.
  - apply IH. cbn [map In] in H. rewrite scores_add_keys. intuition.
Qed.

Lemma fuse_semantic_keys l : forall rank scores m p,
  In p (map fst scores) \/ In p (map SearchResult.path l) ->
  In p (map fst (fst (fuse_semantic rank l (scores, m)))).
Proof.
  induction l as [|r l IH]; intros rank scores m p H; cbn [fuse_semantic].
  - destruct H as [H|[]]. exact H.
  - apply IH. cbn [map In] in H. rewrite scores_add_keys. intuition.
Qed.

Lemma fused_scores_keys ft sem p :
  In p (map SearchResult.path sem) ->
  In p (map fst (fst (fused_scores ft sem))).
Proof.
  intros H. unfold fused_scores.
  destruct (fuse_fulltext 0 ft ([], ∅)) as [s1 m1].
  apply fuse_semantic_keys. now right.
Qed.

Lemma Qc_ltb_lt a b : Qc_ltb a b = true <-> (a < b)%Qc.
Proof.
  unfold Qc_ltb, Qclt, Qccompare. rewrite Qlt_alt.
  destruct (this a ?= this b)%Q; intuition congruence.
Qed.

Lemma insert_desc_In {A} (key : A -> Qc) x l z :
  In z (insert_desc key x l) <-> z = x \/ In z l.
Proof.
  induction l as [|y l IH]; cbn [insert_desc In]; [intuition|].
  destruct (Qc_ltb (key x) (key y)); cbn [In]; [rewrite IH|]; intuition.
Qed.

Lemma sorted_desc_In {A} (key : A -> Qc) l z :
  In z (sorted_desc key l) <-> In z l.
Proof.
  unfold sorted_desc. induction l as [|y l IH]; cbn [foldr In]; [reflexivity|].
  rewrite insert_desc_In, IH. intuition.
Qed.

Lemma insert_desc_sorted {A} (key : A -> Qc) x l :
  StronglySorted (fun u v => (key v <= key u)%Qc) l ->
  StronglySorted (fun u v => (key v <= key u)%Qc) (insert_desc key x l).
Proof.
  induction 1 as [|y l Hs IH Hy]; cbn [insert_desc].
  - repeat constructor.
  - destruct (Qc_ltb (key x) (key y)) eqn:E.
    + apply Qc_ltb_lt in E. constructor; [exact IH|].
      apply Forall_forall. intros z Hz. apply list_elem_of_In, insert_desc_In in Hz.
      destruct Hz as [->|Hz]; [now apply Qclt_le_weak|].
      rewrite Forall_forall in Hy. apply Hy. now apply list_elem_of_In.
    + assert (Hle : (key y <= key x)%Qc).
      { apply Qcnot_lt_le. intros H. apply Qc_ltb_lt in H. congruence. }
      constructor; [now constructor|].
      constructor; [exact Hle|].
      eapply Forall_impl; [exact Hy|]. intros z Hz. cbn in Hz.
      eapply Qcle_trans; eauto.
Qed.

Lemma sorted_desc_sorted {A} (key : A -> Qc) l :
  StronglySorted (fun u v => (key v <= key u)%Qc) (sorted_desc key l).
Proof.
  unfold sorted_desc. induction l as [|y l IH]; cbn [foldr]; [constructor|].
  now apply insert_desc_sorted.
Qed.

Lemma strongly_sorted_lookup {A} (R : A -> A -> Prop) l : forall i j x y,
  StronglySorted R l -> i < j -> l !! i = Some x -> l !! j = Some y -> R x y.
Proof.
  induction l as [|z l IH]; intros i j x y Hs Hij Hi Hj; [discriminate|].
  apply StronglySorted_inv in Hs as [Hs Hz].
  destruct j as [|j]; [lia|]. cbn in Hj.
  destruct i as [|i]; cbn in Hi.
  - injection Hi as ->. rewrite Forall_forall in Hz. apply Hz.
    eapply list_elem_of_lookup_2; eauto.
  - eapply (IH i j); eauto. lia.
Qed.

Lemma sorted_desc_before {A} (key : A -> Qc) l a b i j :
  (key b < key a)%Qc ->
  sorted_desc key l !! i = Some a ->
  sorted_desc key l !! j = Some b ->
  i < j.
Proof.
  intros Hlt Hi Hj.
  destruct (Nat.lt_trichotomy i j) as [H|[->|H]]; [exact H| |].
  - rewrite Hi in Hj. injection Hj as ->. now apply Qclt_not_eq in Hlt.
  - pose proof (strongly_sorted_lookup _ _ j i b a (sorted_desc_sorted key l) H Hj Hi) as Hle.
    cbn in Hle. exfalso. now apply Qcle_not_lt in Hle.
Qed.

Lemma omap_results_paths (m : gmap string SearchResult.t)
    (f : string -> SearchResult.t -> SearchResult.t) l :
  (forall p r, SearchResult.path (f p r) = SearchResult.path r) ->
  (forall p, In p l -> is_Some (m !! p)) ->
  (forall p r, m !! p = Some r -> SearchResult.path r = p) ->
  map SearchResult.path
      (omap (fun path => match m !! path with
                         | Some result => Some (f path result)
                         | None => None
                         end) l)
  = l.
Proof.
  intros Hf Hk Hm. induction l as [|p l IH]; [reflexivity|].
  cbn [omap list_omap]. destruct (Hk p) as [r Hr]; [now left|].
  rewrite Hr. cbn [map]. rewrite Hf, (Hm p r Hr). f_equal.
  apply IH. intros q Hq. apply Hk. now right.
Qed.

Lemma rrf_fuse_paths limit ft sem :
  map SearchResult.path (rrf_fuse limit ft sem)
  = firstn limit (sorted_paths (fst (fused_scores ft sem))).
Proof.
  unfold rrf_fuse. pose proof (fused_scores_ok ft sem) as [Hk Hm].
  destruct (fused_scores ft sem) as [scores m]. cbn [fst snd] in *.
  apply (omap_results_paths m
           (fun path result =>
              SearchResult.set_search_type "hybrid"
                (SearchResult.set_score (scores_get path scores) result))).
  - reflexivity.
  - intros p Hp. apply Hk. apply (sorted_desc_In (fun p => scores_get p scores)).
    apply list_elem_of_In. apply list_elem_of_In in Hp.
    apply elem_of_take in Hp as (i & Hi & _). eapply list_elem_of_lookup_2; eauto.
  - exact Hm.
Qed.

(** The fused branch of [_hybrid_search]. *)
Lemma hybrid_search_fuses
    d fts5_select semantic_searcher query limit language path_filter ft sem :
  _fulltext_search d fts5_select query (limit * 2) language path_filter
  = Return ft ->
  _semantic_search d fts5_select semantic_searcher query (limit * 2)
                   language path_filter
  = Return sem ->
  _hybrid_search d fts5_select semantic_searcher query limit language path_filter
  = Return (rrf_fuse limit ft sem).
Proof. intros Hft Hsem. unfold _hybrid_search. now rewrite Hft, Hsem. Qed.

(** C9.  Let [a] and [b] both stand in the full-text list and in the
    semantic list, each list naming a path once, with [a] at a smaller
    rank than [b] in both.  Then the fused score of [a] is the sum of its
    two contributions [1 / (60 + rank + 1)], it is greater than the fused
    score of [b], [a] comes before [b] in the sorted paths, and wherever
    [b] stands in the returned list [a] stands before it. *)
Theorem rrf_monotone ft sem a b ra1 rb1 ra2 rb2 limit :
  NoDup (map SearchResult.path ft) ->
  NoDup (map SearchResult.path sem) ->
  map SearchResult.path ft !! ra1 = Some a ->
  map SearchResult.path ft !! rb1 = Some b ->
  map SearchResult.path sem !! ra2 = Some a ->
  map SearchResult.path sem !! rb2 = Some b ->
  ra1 < rb1 -> ra2 < rb2 ->
  let scores := fst (fused_scores ft sem) in
  let out := map SearchResult.path (rrf_fuse limit ft sem) in
  scores_get a scores = (rrf_score ra1 + rrf_score ra2)%Qc
  /\ scores_get b scores = (rrf_score rb1 + rrf_score rb2)%Qc
  /\ (scores_get b scores < scores_get a scores)%Qc
  /\ (forall i j, sorted_paths scores !! i = Some a ->
                  sorted_paths scores !! j = Some b -> i < j)
  /\ (forall j, out !! j = Some b -> exists i, i < j /\ out !! i = Some a).
Proof.
  intros Hft Hsem Ha1 Hb1 Ha2 Hb2 H1 H2 scores out.
  assert (Ha : scores_get a scores = (rrf_score ra1 + rrf_score ra2)%Qc)
    by now apply fused_score.
  assert (Hb : scores_get b scores = (rrf_score rb1 + rrf_score rb2)%Qc)
    by now apply fused_score.
  assert (Hlt : (scores_get b scores < scores_get a scores)%Qc).
  { rewrite Ha, Hb.
    apply Qclt_trans with (rrf_score ra1 + rrf_score rb2)%Qc.
    - apply Qcplus_lt_mono_r. now apply rrf_score_decreasing.
    - apply Qcplus_lt_mono_l. now apply rrf_score_decreasing. }
  assert (Hord : forall i j, sorted_paths scores !! i = Some a ->
                             sorted_paths scores !! j = Some b -> i < j).
  { intros i j. unfold sorted_paths. apply sorted_desc_before. exact Hlt. }
  repeat split; try assumption.
  intros j Hj. subst out. rewrite rrf_fuse_paths in *. fold scores in Hj |- *.
  apply lookup_take_Some in Hj as [Hj Hjl].
  assert (Hin : In a (sorted_paths scores)).
  { apply sorted_desc_In. apply fused_scores_keys.
    apply list_elem_of_In. eapply list_elem_of_lookup_2; eauto. }
  apply list_elem_of_In, list_elem_of_lookup_1 in Hin as [i Hi].
  exists i. pose proof (Hord i j Hi Hj) as Hij. split; [exact Hij|].
  rewrite lookup_take_lt by lia. exact Hi.
Qed.

Lemma rrf_monotone_witness :
  let scores := fst (fused_scores a_then_b a_then_b) in
  let out := map SearchResult.path (rrf_fuse 2 a_then_b a_then_b) in
  scores_get "a.py" scores = (rrf_score 0 + rrf_score 0)%Qc
  /\ scores_get "b.py" scores = (rrf_score 1 + rrf_score 1)%Qc
  /\ (scores_get "b.py" scores < scores_get "a.py" scores)%Qc
  /\ (forall i j, sorted_paths scores !! i = Some "a.py" ->
                  sorted_paths scores !! j = Some "b.py" -> i < j)
  /\ (forall j, out !! j = Some "b.py" ->
                exists i, i < j /\ out !! i = Some "a.py").
Proof.
  apply (rrf_monotone a_then_b a_then_b "a.py" "b.py" 0 1 0 1 2);
    [ compute_done | compute_done
    | reflexivity | reflexivity | reflexivity | reflexivity | lia | lia ].
Defined.

(** ** Storage: the full-text mirror *)

Lemma fts_entry_eqb_eq a b : fts_entry_eqb a b = true <-> a = b.
Proof.
  unfold fts_entry_eqb. rewrite !andb_true_iff, Nat.eqb_eq, !String.eqb_eq.
  destruct a, b; cbn. split.
  - intros [[[-> ->] ->] ->]. reflexivity.
  - intros [= -> -> -> ->]. auto.
Qed.

Lemma filter_filter_bool {A} (f g : A -> bool) l :
  List.filter f (List.filter g l) = List.filter (fun x => g x && f x) l.
Proof.
  induction l as [|x l IH]; [reflexivity|]. cbn [List.filter].
  destruct (g x); cbn [List.filter andb]; [destruct (f x)|]; now rewrite IH.
Qed.

Lemma filter_ext_in_bool {A} (f g : A -> bool) l :
  (forall x, In x l -> f x = g x) -> List.filter f l = List.filter g l.
Proof.
  induction l as [|x l IH]; intros H; [reflexivity|]. cbn [List.filter].
  rewrite (H x) by now left. rewrite IH; [reflexivity|].
  intros y Hy. apply H. now right.
Qed.

(** What a run of [files_ad] leaves in the index. *)
Lemma files_ad_fold gone : forall fts,
  fold_left (fun fts r => files_ad r fts) gone fts
  = List.filter
      (fun e => negb (existsb (fun r => fts_entry_eqb e (entry_of_row r)) gone))
      fts.
Proof.
  induction gone as [|r gone IH]; intros fts; cbn [fold_left existsb].
  - induction fts as [|e fts IHf]; [reflexivity|].
    cbn [List.filter negb]. now f_equal.
  - rewrite IH. unfold files_ad. rewrite filter_filter_bool.
    apply filter_ext_in_bool. intros e _. now rewrite negb_orb.
Qed.

Lemma same_id_same_row (l : list FileRow.t) x y :
  NoDup (map FileRow.id l) -> In x l -> In y l ->
  FileRow.id x = FileRow.id y -> x = y.
Proof.
  induction l as [|z l IH]; intros Hnd Hx Hy Hid; [destruct Hx|].
  cbn [map] in Hnd. apply NoDup_cons in Hnd as [Hz Hnd].
  destruct Hx as [->|Hx], Hy as [->|Hy]; auto.
  - exfalso. apply Hz. rewrite Hid. apply list_elem_of_In, in_map, Hy.
  - exfalso. apply Hz. rewrite <- Hid. apply list_elem_of_In, in_map, Hx.
Qed.

Lemma purge_deleted_rows cond (rows : list FileRow.t) :
  NoDup (map FileRow.id rows) ->
  List.filter
    (fun e => negb (existsb (fun r => fts_entry_eqb e (entry_of_row r))
                            (List.filter cond rows)))
    (map entry_of_row rows)
  = map entry_of_row (List.filter (fun r => negb (cond r)) rows).
Proof.
  intros Hnd.
  assert (H : forall l, (forall r, In r l -> In r rows) ->
    List.filter
      (fun e => negb (existsb (fun r => fts_entry_eqb e (entry_of_row r))
                              (List.filter cond rows)))
      (map entry_of_row l)
    = map entry_of_row (List.filter (fun r => negb (cond r)) l)).
  { induction l as [|x l IH]; intros Hl; [reflexivity|].
    cbn [map List.filter].
    assert (E : existsb (fun r => fts_entry_eqb (entry_of_row x) (entry_of_row r))
                        (List.filter cond rows) = cond x).
    { destruct (cond x) eqn:Hc.
      - apply existsb_exists. exists x. split.
        + apply filter_In. split; [apply Hl; now left | exact Hc].
        + now apply fts_entry_eqb_eq.
      - apply not_true_is_false. intros He.
        apply existsb_exists in He as (r & Hr & Heq).
        apply filter_In in Hr as [Hr Hcr]. apply fts_entry_eqb_eq in Heq.
        assert (x = r).
        { apply (same_id_same_row rows); auto; [apply Hl; now left|].
          now apply (f_equal FtsEntry.rowid) in Heq. }
        congruence. }
    rewrite E. destruct (cond x); cbn [negb map]; rewrite IH; auto;
      intros r Hr; apply Hl; now right. }
  apply H. auto.
Qed.

Lemma NoDup_map_filter {A B} (f : A -> B) (g : A -> bool) l :
  NoDup (map f l) -> NoDup (map f (List.filter g l)).
Proof.
  induction l as [|x l IH]; intros H; [constructor|].
  cbn [map] in H. apply NoDup_cons in H as [Hx H]. cbn [List.filter].
  destruct (g x); [|now apply IH].
  cbn [map]. apply NoDup_cons. split; [|now apply IH].
  intros Hin. apply Hx. apply list_elem_of_In in Hin. apply list_elem_of_In.
  apply in_map_iff in Hin as (y & Hy & Hin). apply filter_In in Hin as [Hin _].
  rewrite <- Hy. now apply in_map.
Qed.

Lemma Forall_filter_bool {A} (P : A -> Prop) (g : A -> bool) l :
  Forall P l -> Forall P (List.filter g l).
Proof.
  intros H. apply Forall_forall. intros x Hx. apply list_elem_of_In, filter_In in Hx as [Hx _].
  rewrite Forall_forall in H. apply H. now apply list_elem_of_In.
Qed.

Lemma delete_from_files_ok cond d : store_ok d -> store_ok (delete_from_files cond d).
Proof.
  intros (Hfts & Hnd & Hseq). unfold store_ok, delete_from_files. cbn [files files_fts files_seq].
  split; [|split].
  - rewrite files_ad_fold, Hfts. now apply purge_deleted_rows.
  - now apply NoDup_map_filter.
  - now apply Forall_filter_bool.
Qed.

Lemma insert_or_replace_ok path content language size last_modified h now d :
  store_ok d ->
  store_ok (insert_or_replace true path content language size last_modified h now d).
Proof.
  intros (Hfts & Hnd & Hseq). unfold store_ok, insert_or_replace.
  cbn [files files_fts files_seq]. split; [|split].
  - unfold files_ai. rewrite files_ad_fold, Hfts, purge_deleted_rows by exact Hnd.
    now rewrite map_app.
  - rewrite map_app. apply NoDup_app. split; [now apply NoDup_map_filter|]. split.
    + intros i Hi Hi2. apply list_elem_of_In in Hi2. cbn in Hi2.
      destruct Hi2 as [<-|[]].
      apply list_elem_of_In, in_map_iff in Hi as (r & Hr & Hin).
      apply filter_In in Hin as [Hin _].
      rewrite Forall_forall in Hseq. apply list_elem_of_In, Hseq in Hin. lia.
    + cbn. apply NoDup_singleton.
  - apply Forall_app. split.
    + apply Forall_filter_bool. eapply Forall_impl; [exact Hseq|]. cbn. intros; lia.
    + constructor; [cbn; lia | constructor].
Qed.

Lemma filter_none {A} (l : list A) : List.filter (fun _ => negb true) l = [].
Proof. induction l as [|x l IH]; [reflexivity|]. exact IH. Qed.

Lemma clear_index_ok d : store_ok d -> store_ok (clear_index d).
Proof.
  intros H. apply (delete_from_files_ok (fun _ => true)) in H.
  unfold clear_index, delete_from_files_fts.
  destruct H as (Hfts & Hnd & Hseq).
  assert (Hf : files (delete_from_files (fun _ => true) d) = [])
    by apply filter_none.
  unfold store_ok. cbn [files files_fts files_seq].
  rewrite Hf in *. cbn [fold_left]. auto.
Qed.

Lemma empty_database_ok : store_ok empty_database.
Proof. repeat split; constructor. Qed.

Lemma run_ops_ok ops : forall d, store_ok d -> store_ok (run_ops_with true ops d).
Proof.
  unfold run_ops_with.
  induction ops as [|o ops IH]; intros d Hd; [exact Hd|].
  cbn [fold_left]. apply IH. destruct o as [now f|p|]; cbn [run_op_with].
  - now apply insert_or_replace_ok.
  - now apply delete_from_files_ok.
  - now apply clear_index_ok.
Qed.

Lemma store_ok_parity d : store_ok d -> mirror_triples d = file_triples d.
Proof.
  intros (Hfts & _). unfold mirror_triples, file_triples.
  rewrite Hfts, map_map. reflexivity.
Qed.

(** With recursive triggers on, the mirror holds the triples of [files]
    after every script. *)
Lemma mirror_parity_with_recursive_triggers ops :
  mirror_triples (run_ops_with true ops empty_database)
  = file_triples (run_ops_with true ops empty_database).
Proof. apply store_ok_parity, run_ops_ok, empty_database_ok. Qed.

(** On a connection as the program opens it, a first upsert of a path
    is as good: no row is replaced, no trigger is missed. *)
Lemma save_file_new_path_ok now f d :
  store_ok d ->
  List.filter (fun r => String.eqb (FileRow.path r) (IndexedFile.path f)) (files d) = [] ->
  store_ok (_save_file now f d).
Proof.
  intros Hd Hnew.
  replace (_save_file now f d) with (_save_file_with true now f d).
  - now apply insert_or_replace_ok.
  - unfold _save_file, _save_file_with, insert_or_replace.
    rewrite Hnew. reflexivity.
Qed.

(** C2 (code_bug).  Starting from a new store, [a.py] is saved with the
    content [x] and saved again with the content [y].  The table holds
    the one triple of the new content; the mirror holds two entries for
    [a.py], the old one and the new one: the row that INSERT OR REPLACE
    takes out leaves without its delete trigger. *)
Theorem upsert_leaves_stale_mirror_entry :
  let d := run_ops [OpUpsert 1 version_x; OpUpsert 2 version_y] empty_database in
  file_triples d = [("a.py", "y", "python")]
  /\ mirror_triples d = [("a.py", "x", "python"); ("a.py", "y", "python")]
  /\ List.length (List.filter (fun t => String.eqb (fst (fst t)) "a.py")
                              (mirror_triples d)) = 2
  /\ In ("a.py", "x", "python") (mirror_triples d)
  /\ ~ In ("a.py", "x", "python") (file_triples d).
Proof.
  repeat split; try reflexivity.
  - now left.
  - intros [H|[]]. discriminate H.
Qed.

(** ** Indexer: incremental passes *)

Lemma get_file_hash_save now f d p :
  _get_file_hash p (_save_file now f d)
  = if String.eqb (IndexedFile.path f) p
    then Some (IndexedFile.content_hash f)
    else _get_file_hash p d.
Proof.
  unfold _get_file_hash, _save_file, _save_file_with, insert_or_replace.
  cbn [files]. rewrite List.filter_app, filter_filter_bool. cbn [List.filter FileRow.path].
  destruct (String.eqb_spec (IndexedFile.path f) p) as [->|Hne].
  - rewrite (filter_ext_in_bool _ (fun _ => false)).
    + replace (List.filter (fun _ => false) (files d)) with (@nil FileRow.t); [reflexivity|].
      induction (files d); [reflexivity|assumption].
    + intros r _. now destruct (String.eqb (FileRow.path r) p).
  - rewrite app_nil_r.
    rewrite (filter_ext_in_bool _ (fun r => String.eqb (FileRow.path r) p)); [reflexivity|].
    intros r _. destruct (String.eqb_spec (FileRow.path r) p) as [->|H]; [|apply andb_false_r].
    apply String.eqb_neq in Hne. rewrite String.eqb_sym in Hne. now rewrite Hne.
Qed.

Section IndexerFacts.
Variable sha256_hex16 : string -> string.


Lemma index_file_path f d x : index_file sha256_hex16 f d = Some x -> IndexedFile.path x = file_key f.
Proof.
  unfold index_file. destruct (FsFile.read f); [|discriminate].
  destruct (decide _); [discriminate|]. now intros [= <-].
Qed.

Lemma index_file_hash f d x c :
  index_file sha256_hex16 f d = Some x -> FsFile.read f = Some c ->
  IndexedFile.content_hash x = sha256_hex16 c.
Proof.
  unfold index_file. intros H Hc. rewrite Hc in H.
  destruct (decide _); [discriminate|]. now injection H as <-.
Qed.

Lemma index_file_none f d c :
  index_file sha256_hex16 f d = None -> FsFile.read f = Some c ->
  _get_file_hash (file_key f) d = Some (sha256_hex16 c).
Proof.
  unfold index_file. intros H Hc. rewrite Hc in H.
  destruct (decide _) as [E|]; [exact E|discriminate].
Qed.

Lemma index_file_unchanged f d :
  (forall c, FsFile.read f = Some c ->
             _get_file_hash (file_key f) d = Some (sha256_hex16 c)) ->
  index_file sha256_hex16 f d = None.
Proof.
  intros H. unfold index_file. destruct (FsFile.read f) as [c|]; [|reflexivity].
  specialize (H c eq_refl). unfold file_key in H.
  destruct (decide _) as [|N]; [reflexivity|]. now destruct N.
Qed.

(** After a pass every readable file of the scan has the hash of its
    content in the store. *)
Lemma first_pass_hashes rest : forall done st,
  NoDup (map file_key (done ++ rest)) ->
  hashes_ok sha256_hex16 done (Pass.db st) ->
  hashes_ok sha256_hex16 (done ++ rest) (Pass.db (fold_left (index_step sha256_hex16) rest st)).
Proof.
  induction rest as [|g rest IH]; intros done st Hnd Hdone.
  - now rewrite app_nil_r.
  - cbn [fold_left].
    replace (done ++ g :: rest) with ((done ++ [g]) ++ rest) in *
      by now rewrite <- app_assoc.
    apply IH; [exact Hnd|].
    assert (Hg : forall f, In f done -> file_key g <> file_key f).
    { intros f Hf E. rewrite !map_app in Hnd. apply NoDup_app in Hnd as [Hnd _].
      apply NoDup_app in Hnd as (_ & Hdis & _).
      apply (Hdis (file_key f)); [apply list_elem_of_In, in_map, Hf|].
      rewrite <- E. cbn. left. }
    intros f c Hf Hc. unfold index_step.
    destruct (index_file sha256_hex16 g (Pass.db st)) as [x|] eqn:E; cbn [Pass.db].
    + rewrite get_file_hash_save, (index_file_path _ _ _ E).
      apply in_app_or in Hf as [Hf|[<-|[]]].
      * pose proof (Hg f Hf) as Hne. apply String.eqb_neq in Hne.
        rewrite Hne. now apply Hdone.
      * rewrite String.eqb_refl. f_equal. eapply index_file_hash; eauto.
    + apply in_app_or in Hf as [Hf|[<-|[]]].
      * now apply Hdone.
      * eapply index_file_none; eauto.
Qed.

Lemma second_pass_skips files : forall st,
  hashes_ok sha256_hex16 files (Pass.db st) ->
  fold_left (index_step sha256_hex16) files st
  = Pass.mk (Pass.db st) (Pass.clock st) (Pass.total_lines st)
            (Pass.total_size st) (Pass.languages st) (Pass.indexed_count st)
            (Pass.skipped_count st + List.length files).
Proof.
  induction files as [|f files IH]; intros st Hok.
  - cbn. rewrite Nat.add_0_r. now destruct st.
  - cbn [fold_left]. unfold index_step at 2.
    rewrite index_file_unchanged by (intros c Hc; apply Hok; [now left|exact Hc]).
    rewrite IH.
    + cbn. f_equal. lia.
    + intros g c Hg Hc. cbn. apply Hok; [now right|exact Hc].
Qed.

(** On a tree that did not change, with no path listed twice, the
    second pass saves no file and leaves both tables as they are; the
    statistics it returns and stores are those of an empty pass. *)
Lemma second_pass_is_empty ignore_patterns tree clock d :
  NoDup (map file_key tree) ->
  let r1 := index_directory sha256_hex16 ignore_patterns tree clock d in
  let d1 := fst (fst r1) in
  let c1 := snd (fst r1) in
  let r2 := index_directory sha256_hex16 ignore_patterns tree c1 d1 in
  upserts sha256_hex16 ignore_patterns tree c1 d1 = 0
  /\ files (fst (fst r2)) = files d1
  /\ files_fts (fst (fst r2)) = files_fts d1
  /\ snd r2 = IndexStats.mk 0 0 0 ∅ (Some c1) "1.0"
  /\ get_stats (fst (fst r2)) = Some (snd r2).
Proof.
  intros Hnd r1 d1 c1 r2.
  assert (Hok : hashes_ok sha256_hex16 (_scan_files ignore_patterns tree) d1).
  { subst d1 r1. unfold index_directory. cbn [fst snd].
    intros f c Hf Hc. unfold _save_stats, _get_file_hash. cbn [files].
    apply (first_pass_hashes (_scan_files ignore_patterns tree) [] _); auto.
    - cbn [app]. unfold _scan_files. now apply NoDup_map_filter.
    - intros ? ? []. }
  subst r2. unfold upserts, index_directory.
  rewrite second_pass_skips by exact Hok. cbn.
  repeat split. unfold get_stats. cbn. now rewrite lookup_insert_eq.
Qed.
End IndexerFacts.

(** C1 (code_bug).  The tree holds the one file [hello.py]; it is
    indexed twice, nothing changing in between, whatever the hash
    function.  The first pass returns 1 file, 3 lines, 27 bytes and
    [python: 1].  The second pass saves no file, as claimed, but returns
    and stores 0 files, 0 lines, 0 bytes and an empty language map: the
    statistics count the files saved in the pass, not the files of the
    index. *)
Theorem reindex_unchanged_tree_resets_stats (sha256_hex16 : string -> string) :
  let r1 := index_directory sha256_hex16 DEFAULT_IGNORE_PATTERNS [hello_py]
                            0 empty_database in
  let r2 := index_directory sha256_hex16 DEFAULT_IGNORE_PATTERNS [hello_py]
                            (snd (fst r1)) (fst (fst r1)) in
  (IndexStats.total_files (snd r1), IndexStats.total_lines (snd r1),
   IndexStats.total_size (snd r1), IndexStats.languages (snd r1))
  = (1, 3, 27, {["python" := 1]})
  /\ upserts sha256_hex16 DEFAULT_IGNORE_PATTERNS [hello_py]
             (snd (fst r1)) (fst (fst r1)) = 0
  /\ (IndexStats.total_files (snd r2), IndexStats.total_lines (snd r2),
      IndexStats.total_size (snd r2), IndexStats.languages (snd r2))
     = (0, 0, 0, ∅)
  /\ get_stats (fst (fst r2)) = Some (snd r2).
Proof.
  intros r1 r2.
  destruct (second_pass_is_empty sha256_hex16 DEFAULT_IGNORE_PATTERNS [hello_py]
              0 empty_database) as (Hup & _ & _ & Hs2 & Hget).
  { compute_done. }
  fold r1 in Hup, Hs2, Hget. fold r2 in Hs2, Hget.
  split; [|split; [exact Hup|split; [now rewrite Hs2 | exact Hget]]].
  subst r1. vm_compute. reflexivity.
Qed.

(** ** Symbol planner: what is ranked *)

Lemma symbol_loop_firstn pats limit rows : forall acc,
  List.length acc < limit ->
  symbol_loop pats limit rows acc
  = acc ++ firstn (limit - List.length acc) (symbol_matches pats rows).
Proof.
  induction rows as [|row rows IH]; intros acc Hacc.
  - cbn. now rewrite firstn_nil, app_nil_r.
  - cbn [symbol_loop symbol_matches omap list_omap].
    fold (symbol_matches pats rows).
    destruct (symbol_result pats (FileRow.path row) (FileRow.content row))
      as [r|].
    + rewrite length_app. cbn [List.length].
      destruct (limit - List.length acc) as [|n] eqn:E; [lia|].
      cbn [firstn].
      destruct (Nat.leb_spec limit (List.length acc + 1)) as [H|H].
      * replace n with 0 by lia. now rewrite firstn_0.
      * rewrite IH by (rewrite length_app; cbn; lia).
        rewrite length_app. cbn [List.length].
        replace (limit - (List.length acc + 1)) with n by lia.
        now rewrite <- app_assoc.
    + destruct (Nat.leb_spec limit (List.length acc)) as [H|H]; [lia|].
      now apply IH.
Qed.

Lemma insert_desc_length {A} (key : A -> Qc) x l :
  List.length (insert_desc key x l) = S (List.length l).
Proof.
  induction l as [|y l IH]; [reflexivity|]. cbn [insert_desc].
  destruct (Qc_ltb (key x) (key y)); cbn [List.length]; [now rewrite IH|reflexivity].
Qed.

Lemma sorted_desc_length {A} (key : A -> Qc) l :
  List.length (sorted_desc key l) = List.length l.
Proof.
  unfold sorted_desc. induction l as [|y l IH]; [reflexivity|].
  cbn [foldr]. now rewrite insert_desc_length, IH.
Qed.

Lemma search_symbol_firstn d symbol symbol_type limit :
  search_symbol d symbol symbol_type limit
  = sorted_desc SearchResult.score
      (firstn limit
         (symbol_matches (search_patterns symbol symbol_type) (files d))).
Proof.
  unfold search_symbol. destruct limit as [|n]; [reflexivity|].
  rewrite symbol_loop_firstn by (cbn; lia).
  cbn [app List.length]. rewrite Nat.sub_0_r.
  apply firstn_all2. rewrite sorted_desc_length. apply firstn_le_length.
Qed.

(** X1.  [search_symbol] ranks the first [limit] matching files of the
    table, whatever their scores: the answer is the stable descending
    sort of the first [limit] results in table order. *)
Theorem search_symbol_ranks_first_matches d symbol symbol_type limit :
  search_symbol d symbol symbol_type limit
  = sorted_desc SearchResult.score
      (firstn limit
         (symbol_matches (search_patterns symbol symbol_type) (files d))).
Proof. apply search_symbol_firstn. Qed.

(** X2.  When at most [limit] stored files match, every one of them is
    in the answer, ranked by score. *)
Theorem search_symbol_complete_below_limit d symbol symbol_type limit :
  List.length (symbol_matches (search_patterns symbol symbol_type) (files d))
  <= limit ->
  search_symbol d symbol symbol_type limit
  = sorted_desc SearchResult.score
      (symbol_matches (search_patterns symbol symbol_type) (files d)).
Proof.
  intros Hlen. rewrite search_symbol_firstn. now rewrite (firstn_all2 _ Hlen).
Qed.

Lemma search_symbol_complete_below_limit_witness :
  search_symbol two_files "f" (Some "function") 2
  = sorted_desc SearchResult.score
      (symbol_matches (search_patterns "f" (Some "function")) (files two_files)).
Proof.
  apply (search_symbol_complete_below_limit two_files "f" (Some "function") 2).
  vm_compute. lia.
Defined.

Lemma count_char_take c s : forall n,
  count_char c (str_take n s) <= count_char c s.
Proof.
  induction s as [|a s IH]; intros [|n]; cbn; try lia.
  specialize (IH n). lia.
Qed.

Lemma split_acc_length sep s : forall cur,
  List.length (split_acc sep cur s) = count_char sep s + 1.
Proof.
  induction s as [|a s IH]; intros cur; [reflexivity|].
  cbn [split_acc count_char].
  destruct (Ascii.eqb a sep); cbn [List.length]; rewrite IH; lia.
Qed.

(** The number of lines is the number of newlines plus one. *)
Lemma split_length sep s : List.length (split sep s) = count_char sep s + 1.
Proof. apply split_acc_length. Qed.

Lemma Qc_of_nat_le a b : a <= b -> (Qc_of_nat a <= Qc_of_nat b)%Qc.
Proof.
  intros H. unfold Qc_of_nat, Qcle. cbn [this Q2Qc].
  rewrite !Qred_correct. rewrite <- Zle_Qle. lia.
Qed.

Lemma symbol_result_shape pats path content r :
  symbol_result pats path content = Some r ->
  SearchResult.path r = path
  /\ SearchResult.content r = str_take 500 content
  /\ SearchResult.search_type r = "symbol"
  /\ (Qc_of_nat 1 <= SearchResult.score r)%Qc
  /\ 1 <= SearchResult.line_number r <= List.length (split newline content)
  /\ 1 <= List.length (SearchResult.highlights r) <= 3.
Proof.
  induction pats as [|p pats IH]; [discriminate|].
  cbn [symbol_result]. destruct (finditer p content) as [|m ms]; [exact IH|].
  intros [= <-]. cbn [SearchResult.path SearchResult.content
    SearchResult.search_type SearchResult.score SearchResult.line_number
    SearchResult.highlights].
  repeat split; try lia.
  - apply Qc_of_nat_le. cbn. lia.
  - rewrite split_length.
    pose proof (count_char_take newline content (fst m)). lia.
  - cbn [firstn map List.length]. lia.
  - cbn [firstn map List.length].
    rewrite List.length_map, List.length_firstn. lia.
Qed.

(** X3.  Every result of [search_symbol] is of type [symbol], has a
    score of at least 1, belongs to a stored file and names a line of
    that file, with one to three highlights; there are at most [limit]
    results, in descending order of score. *)
Theorem search_symbol_results_shape d symbol symbol_type limit :
  let results := search_symbol d symbol symbol_type limit in
  Forall (fun r =>
            SearchResult.search_type r = "symbol"
            /\ (Qc_of_nat 1 <= SearchResult.score r)%Qc
            /\ 1 <= List.length (SearchResult.highlights r) <= 3
            /\ exists row, In row (files d)
                 /\ SearchResult.path r = FileRow.path row
                 /\ SearchResult.content r = str_take 500 (FileRow.content row)
                 /\ 1 <= SearchResult.line_number r
                    <= List.length (split newline (FileRow.content row)))
         results
  /\ List.length results <= limit
  /\ StronglySorted
       (fun r1 r2 => (SearchResult.score r2 <= SearchResult.score r1)%Qc)
       results.
Proof.
  intros results. subst results. rewrite search_symbol_firstn.
  split; [|split].
  - apply Forall_forall. intros r Hr.
    apply list_elem_of_In, sorted_desc_In, list_elem_of_In in Hr.
    apply elem_of_take in Hr as (i & Hi & _).
    apply list_elem_of_lookup_2 in Hi.
    unfold symbol_matches in Hi. apply list_elem_of_omap in Hi as (row & Hrow & Hres).
    apply symbol_result_shape in Hres as (Hp & Hc & Ht & Hs & Hl & Hh).
    repeat split; try tauto; try lia.
    exists row. rewrite Hp, Hc. repeat split; try lia.
    now apply list_elem_of_In.
  - rewrite sorted_desc_length. apply firstn_le_length.
  - apply sorted_desc_sorted.
Qed.

(** ** Match extractor: which line is reported *)

Lemma last_cons_some {A} (x : A) l :
  last (x :: l) = match last l with Some y => Some y | None => Some x end.
Proof.
  revert x. induction l as [|y l IH]; intros x; [reflexivity|].
  change (last (x :: y :: l)) with (last (y :: l)).
  rewrite (IH y). now destruct (last l).
Qed.

Lemma find_loop_closed lines q c rest : forall i st,
  List.length (MatchInfo.highlights st) < 3 ->
  find_loop lines q c i rest st
  = let hits := firstn (3 - List.length (MatchInfo.highlights st))
                       (matching_lines q i rest) in
    match last hits with
    | None => st
    | Some (j, _) =>
        MatchInfo.mk (j + 1) (context_around lines c j)
          (MatchInfo.highlights st ++ map (fun h => strip (snd h)) hits)
    end.
Proof.
  induction rest as [|line rest IH]; intros i st Hst.
  - cbn. now rewrite firstn_nil.
  - cbn [find_loop matching_lines].
    destruct (str_in q (lower line)); [|now apply IH].
    cbn [MatchInfo.highlights]. rewrite length_app. cbn [List.length].
    destruct (3 - List.length (MatchInfo.highlights st)) as [|n] eqn:E; [lia|].
    cbv zeta. cbn [firstn]. rewrite last_cons_some. cbn [map snd].
    destruct (Nat.leb_spec 3 (List.length (MatchInfo.highlights st) + 1)) as [H|H].
    + replace n with 0 by lia. rewrite firstn_0. reflexivity.
    + rewrite IH by (cbn [MatchInfo.highlights]; rewrite length_app; cbn; lia).
      cbv zeta. cbn [MatchInfo.highlights]. rewrite length_app. cbn [List.length].
      replace (3 - (List.length (MatchInfo.highlights st) + 1)) with n by lia.
      destruct (last (firstn n (matching_lines q (i + 1) rest)))
        as [[j l]|] eqn:EL.
      * now rewrite <- app_assoc.
      * apply last_None in EL. rewrite EL. reflexivity.
Qed.

Lemma find_matches_closed content query :
  _find_matches content query
  = let lines := split newline content in
    let hits := firstn 3 (matching_lines (lower query) 0 lines) in
    match last hits with
    | None => MatchInfo.mk 0 EmptyString []
    | Some (j, _) =>
        MatchInfo.mk (j + 1) (context_around lines 2 j)
                     (map (fun h => strip (snd h)) hits)
    end.
Proof.
  unfold _find_matches, _find_matches_ctx.
  rewrite find_loop_closed by (cbn; lia). reflexivity.
Qed.

(** X4.  [_find_matches] reports the line number and the context of
    the third matching line, or of the last matching line when fewer
    than three lines match; the highlights are the first three matching
    lines, trimmed; without a matching line the answer is line 0, no
    context, no highlight. *)
Theorem find_matches_reports_third_match content query :
  _find_matches content query
  = let lines := split newline content in
    let hits := firstn 3 (matching_lines (lower query) 0 lines) in
    match last hits with
    | None => MatchInfo.mk 0 EmptyString []
    | Some (j, _) =>
        MatchInfo.mk (j + 1) (context_around lines 2 j)
                     (map (fun h => strip (snd h)) hits)
    end.
Proof. apply find_matches_closed. Qed.

Lemma matching_lines_In q rest : forall i j line,
  In (j, line) (matching_lines q i rest) ->
  i <= j /\ rest !! (j - i) = Some line /\ str_in q (lower line) = true.
Proof.
  induction rest as [|l rest IH]; intros i j line H; [destruct H|].
  cbn [matching_lines] in H.
  assert (Hrec : In (j, line) (matching_lines q (i + 1) rest) ->
                 i <= j /\ (l :: rest) !! (j - i) = Some line
                 /\ str_in q (lower line) = true).
  { intros H'. apply IH in H' as (Hij & Hl & Hm).
    split; [lia|]. split; [|exact Hm].
    replace (j - i) with (S (j - (i + 1))) by lia. exact Hl. }
  destruct (str_in q (lower l)) eqn:E; [|now apply Hrec].
  destruct H as [[= <- <-]|H]; [|now apply Hrec].
  rewrite Nat.sub_diag. auto.
Qed.

Lemma matching_lines_nil q rest : forall i,
  matching_lines q i rest = [] <->
  Forall (fun line => str_in q (lower line) = false) rest.
Proof.
  induction rest as [|l rest IH]; intros i; cbn [matching_lines].
  - split; [constructor|reflexivity].
  - destruct (str_in q (lower l)) eqn:E.
    + split; [discriminate|]. intros H. apply Forall_cons in H as [H _]. congruence.
    + rewrite IH. split; [now constructor|]. intros H. now apply Forall_cons in H as [_ H].
Qed.

(** X5.  The line number is 0 exactly when no line holds the query, and
    exactly when there is no highlight; otherwise it names a line of the
    content that holds the query, case-insensitively.  There are never
    more than three highlights. *)
Theorem find_matches_line_is_a_match content query :
  let r := _find_matches content query in
  let lines := split newline content in
  (MatchInfo.line_number r = 0 <->
   Forall (fun line => str_in (lower query) (lower line) = false) lines)
  /\ (MatchInfo.line_number r = 0 <-> MatchInfo.highlights r = [])
  /\ (MatchInfo.line_number r = 0
      \/ exists line, lines !! (MatchInfo.line_number r - 1) = Some line
                      /\ str_in (lower query) (lower line) = true)
  /\ List.length (MatchInfo.highlights r) <= 3.
Proof.
  intros r lines. subst r. rewrite find_matches_closed. cbv zeta. fold lines.
  rewrite <- (matching_lines_nil (lower query) lines 0).
  destruct (matching_lines (lower query) 0 lines) as [|h hits] eqn:E.
  - cbn. repeat split; auto.
  - destruct (last (firstn 3 (h :: hits))) as [[j line]|] eqn:EL.
    2:{ apply last_None in EL. discriminate EL. }
    cbn [MatchInfo.line_number MatchInfo.highlights].
    split; [split; [lia|discriminate]|].
    split; [split; [lia|discriminate]|].
    split.
    + right. exists line.
      assert (Hin : In (j, line) (matching_lines (lower query) 0 lines)).
      { rewrite E. apply list_elem_of_In.
        apply last_Some_elem_of in EL.
        apply elem_of_take in EL as (n & Hn & _).
        eapply list_elem_of_lookup_2; eauto. }
      apply matching_lines_In in Hin as (_ & Hl & Hm).
      rewrite Nat.sub_0_r in Hl. replace (j + 1 - 1) with j by lia. auto.
    + rewrite List.length_map, List.length_firstn. lia.
Qed.

Lemma lower_char_idem c : lower_char (lower_char c) = lower_char c.
Proof. destruct c as [[] [] [] [] [] [] [] []]; reflexivity. Qed.

Lemma lower_idem s : lower (lower s) = lower s.
Proof.
  induction s as [|c s IH]; [reflexivity|].
  cbn [lower]. now rewrite lower_char_idem, IH.
Qed.

(** X6.  The case of the query does not matter: the lowered query gives
    the same line, context and highlights. *)
Theorem find_matches_query_case content query :
  _find_matches content (lower query) = _find_matches content query.
Proof.
  unfold _find_matches, _find_matches_ctx. now rewrite lower_idem.
Qed.

Lemma str_in_empty s : str_in EmptyString s = true.
Proof. destruct s; reflexivity. Qed.

Lemma matching_lines_empty_query rest : forall i,
  map snd (matching_lines EmptyString i rest) = rest
  /\ map fst (matching_lines EmptyString i rest) = seq i (List.length rest).
Proof.
  induction rest as [|l rest IH]; intros i; [split; reflexivity|].
  cbn [matching_lines]. rewrite str_in_empty. cbn [map fst snd List.length seq].
  destruct (IH (i + 1)) as [H1 H2]. rewrite H1, H2.
  now replace (i + 1) with (S i) by lia.
Qed.

(** X7.  With the empty query every line matches: the line number is 3,
    or the number of lines when the content has fewer, and the
    highlights are the first three lines, trimmed. *)
Theorem find_matches_empty_query content :
  let r := _find_matches content EmptyString in
  let lines := split newline content in
  MatchInfo.line_number r = Nat.min 3 (List.length lines)
  /\ MatchInfo.highlights r = map strip (firstn 3 lines)
  /\ 1 <= MatchInfo.line_number r.
Proof.
  intros r lines. subst r. rewrite find_matches_closed. cbv zeta. fold lines.
  change (lower EmptyString) with EmptyString.
  assert (Hne : 1 <= List.length lines)
    by (unfold lines; rewrite split_length; lia).
  destruct (matching_lines_empty_query lines 0) as [Hs Hf].
  set (hits := matching_lines EmptyString 0 lines) in *.
  assert (Hh : map (fun h : nat * string => strip (snd h)) (firstn 3 hits)
               = map strip (firstn 3 lines)).
  { rewrite <- Hs, firstn_map, map_map. reflexivity. }
  assert (Hl : fst <$> last (firstn 3 hits)
               = Some (Nat.min 3 (List.length lines) - 1)).
  { rewrite <- fmap_last. change (fst <$> firstn 3 hits) with (map fst (firstn 3 hits)).
    rewrite <- firstn_map, Hf.
    destruct lines as [|a [|b [|c rest]]]; cbn in *; try lia; reflexivity. }
  destruct (last (firstn 3 hits)) as [[j line]|]; [|discriminate Hl].
  assert (Hj : j = Nat.min 3 (List.length lines) - 1) by now injection Hl.
  cbn [MatchInfo.line_number MatchInfo.highlights].
  split; [lia|]. split; [exact Hh|lia].
Qed.

(** ** Query sanitizer: what comes out *)

Lemma collapse_ws_chars f s : forall started pending,
  f " "%char = false ->
  str_exists (fun c => negb (is_space c) && f c) s = false ->
  str_exists f (collapse_ws started pending s) = false.
Proof.
  induction s as [|c s IH]; intros started pending Hsp Hs; [reflexivity|].
  cbn [str_exists] in Hs. apply orb_false_iff in Hs as [Hc Hs].
  cbn [collapse_ws]. destruct (is_space c) eqn:E; [now apply IH|].
  cbn [negb andb] in Hc.
  destruct (started && pending); cbn [str_exists];
    rewrite ?Hsp, Hc, (IH true false Hsp Hs); reflexivity.
Qed.

Lemma blank_special_chars q :
  str_exists (fun c => negb (is_space c) && unsafe_char c) (blank_special q)
  = false.
Proof.
  unfold blank_special. induction q as [|c q IH]; [reflexivity|].
  cbn [str_map str_exists]. rewrite IH, orb_false_r.
  destruct c as [[] [] [] [] [] [] [] []]; reflexivity.
Qed.

(** X8.  A query that takes the bag-of-words branch comes out without
    any of the ten special characters and with no whitespace other than
    the space. *)
Theorem prepare_fts_query_bag_is_clean q :
  has_space q && negb (starts_with_dquote q) = false ->
  str_exists unsafe_char (_prepare_fts_query q) = false.
Proof.
  intros Hb. unfold _prepare_fts_query.
  rewrite str_in_space, startswith_dquote, Hb.
  rewrite replace_special_chars, join_split_ws.
  apply collapse_ws_chars; [reflexivity|apply blank_special_chars].
Qed.

Lemma prepare_fts_query_bag_is_clean_witness :
  str_exists unsafe_char (_prepare_fts_query "foo(bar):baz*") = false.
Proof.
  apply (prepare_fts_query_bag_is_clean "foo(bar):baz*"). reflexivity.
Defined.

Lemma unquote_body_double_quotes q :
  unquote_body (double_quotes q +:+ str1 dquote) = Some q.
Proof.
  induction q as [|c q IH]; [reflexivity|].
  cbn [double_quotes]. destruct (Ascii.eqb c dquote) eqn:E.
  - apply Ascii.eqb_eq in E. subst c.
    rewrite !append_cons. cbn [unquote_body].
    rewrite (Ascii.eqb_refl dquote), IH. reflexivity.
  - rewrite append_cons. cbn [unquote_body]. rewrite E, IH. reflexivity.
Qed.

(** X9.  A query that takes the phrase branch can be read back from the
    output: between the outer quotes, with every doubled quote read as
    one, stands the query itself, so no two such queries share an
    output. *)
Theorem prepare_fts_query_phrase_round_trip q :
  has_space q && negb (starts_with_dquote q) = true ->
  unquote (_prepare_fts_query q) = Some q.
Proof.
  intros Hb. unfold _prepare_fts_query.
  rewrite str_in_space, startswith_dquote, Hb, replace_dquote.
  unfold unquote, str1. rewrite append_cons. cbn [String.append].
  rewrite Ascii.eqb_refl. apply unquote_body_double_quotes.
Qed.

Lemma prepare_fts_query_phrase_round_trip_witness :
  unquote (_prepare_fts_query ("say " +:+ str1 dquote +:+ "hi" +:+ str1 dquote))
  = Some ("say " +:+ str1 dquote +:+ "hi" +:+ str1 dquote).
Proof.
  apply (prepare_fts_query_phrase_round_trip
           ("say " +:+ str1 dquote +:+ "hi" +:+ str1 dquote)).
  reflexivity.
Defined.

(** ** Fallback planner *)

Lemma pattern_compare_percent_unfold pat s :
  pattern_compare (String "%" pat) s
  = pattern_compare pat s
    || match s with
       | EmptyString => false
       | String _ s' => pattern_compare (String "%" pat) s'
       end.
Proof. destruct s; reflexivity. Qed.

Lemma pattern_compare_percent_only s : pattern_compare "%" s = true.
Proof.
  induction s as [|a s IH]; [reflexivity|].
  rewrite pattern_compare_percent_unfold, IH. apply orb_true_r.
Qed.

Lemma pattern_compare_prefix q : forall t,
  str_exists like_wildcard q = false ->
  pattern_compare (q +:+ "%") t
  = startswith (str_map like_fold t) (str_map like_fold q).
Proof.
  induction q as [|c q IH]; intros t Hq.
  - cbn [String.append str_map]. rewrite pattern_compare_percent_only.
    now destruct t.
  - cbn [str_exists] in Hq. apply orb_false_iff in Hq as [Hc Hq].
    unfold like_wildcard in Hc. apply orb_false_iff in Hc as [Hc1 Hc2].
    rewrite append_cons. cbn [pattern_compare]. rewrite Hc1.
    destruct t as [|a t]; [reflexivity|].
    rewrite Hc2. cbn [orb str_map startswith]. rewrite IH by exact Hq.
    now destruct (Ascii.eqb (like_fold c) (like_fold a)).
Qed.

Lemma pattern_compare_percent_query q s :
  str_exists like_wildcard q = false ->
  pattern_compare (percent q) s = contains_folded q s.
Proof.
  intros Hq. unfold percent, contains_folded.
  change ("%" +:+ q +:+ "%") with (String "%" (q +:+ "%")).
  induction s as [|a s IH].
  - rewrite pattern_compare_percent_unfold, pattern_compare_prefix by exact Hq.
    reflexivity.
  - rewrite pattern_compare_percent_unfold, pattern_compare_prefix, IH
      by exact Hq.
    reflexivity.
Qed.

(** A text without NUL is read whole. *)
Lemma c_str_id s : str_exists (Ascii.eqb nul) s = false -> c_str s = s.
Proof.
  induction s as [|c s IH]; [reflexivity|]. cbn [str_exists c_str].
  intros H. apply orb_false_iff in H as [Hc Hs].
  rewrite Ascii.eqb_sym, Hc. now rewrite IH.
Qed.

Lemma str_exists_append f a b :
  str_exists f (a +:+ b) = str_exists f a || str_exists f b.
Proof.
  induction a as [|c a IH]; [reflexivity|].
  rewrite append_cons. cbn [str_exists]. now rewrite IH, orb_assoc.
Qed.

Lemma c_str_percent q :
  str_exists (Ascii.eqb nul) q = false -> c_str (percent q) = percent q.
Proof.
  intros Hq. apply c_str_id. unfold percent.
  rewrite !str_exists_append, Hq. reflexivity.
Qed.

(** What is read of a text is its beginning. *)
Lemma c_str_prefix s : exists rest, s = c_str s +:+ rest.
Proof.
  induction s as [|c s [rest IH]]; [now exists EmptyString|].
  cbn [c_str]. destruct (Ascii.eqb c nul).
  - now exists (String c s).
  - exists rest. rewrite append_cons. now rewrite <- IH.
Qed.

(** The LIKE of the fallback for such a query: the query is part of what
    SQLite reads of the text. *)
Lemma like_match_percent_query q s :
  str_exists like_wildcard q = false ->
  str_exists (Ascii.eqb nul) q = false ->
  like_match (percent q) s = contains_folded q (c_str s).
Proof.
  intros Hw Hn. unfold like_match.
  rewrite c_str_percent by exact Hn.
  now apply pattern_compare_percent_query.
Qed.

(** With patterns that SQLite admits the WHERE clause of the fallback
    raises on no row. *)
Lemma fallback_where_total query language path_filter r :
  like_pattern_fits (percent query) = true ->
  opt_test (truthy path_filter) (fun p => like_pattern_fits (percent p))
  = true ->
  and_then (like (percent query) (FileRow.content r))
    (and_then
       (Return (opt_test (truthy language)
                  (fun l => String.eqb (FileRow.language r) l)))
       (match truthy path_filter with
        | Some p => like (percent p) (FileRow.path r)
        | None => Return true
        end))
  = Return (like_match (percent query) (FileRow.content r)
            && opt_test (truthy language)
                        (fun l => String.eqb (FileRow.language r) l)
            && opt_test (truthy path_filter)
                        (fun p => like_match (percent p) (FileRow.path r))).
Proof.
  intros Hq Hp. unfold like. rewrite Hq.
  destruct (like_match (percent query) (FileRow.content r)); [|reflexivity].
  cbn [and_then andb].
  destruct (opt_test (truthy language) _); [|reflexivity].
  cbn [and_then andb].
  destruct (truthy path_filter) as [p|]; [|reflexivity].
  cbn [opt_test] in *. now rewrite Hp.
Qed.

Lemma fallback_search_returns d query limit language path_filter :
  like_pattern_fits (percent query) = true ->
  opt_test (truthy path_filter) (fun p => like_pattern_fits (percent p))
  = true ->
  sqlite_int64 limit = true ->
  _fallback_search d query limit language path_filter
  = Return
      (map (fun r =>
              result_of (FileRow.path r) (FileRow.content r) 1%Qc "fulltext"
                        (_find_matches (FileRow.content r) query))
           (firstn limit
              (List.filter
                 (fun r =>
                    like_match (percent query) (FileRow.content r)
                    && opt_test (truthy language)
                                (fun l => String.eqb (FileRow.language r) l)
                    && opt_test (truthy path_filter)
                                (fun p => like_match (percent p)
                                                     (FileRow.path r)))
                 (files d)))).
Proof.
  intros Hq Hp Hl. unfold _fallback_search. rewrite Hl.
  erewrite select_where_total; [reflexivity|].
  intros r _. now apply fallback_where_total.
Qed.

(** A pattern of more bytes than SQLite admits ends the statement at
    the first row visited. *)
Lemma fallback_search_pattern_too_long
    d query limit language path_filter r rows :
  files d = r :: rows ->
  like_pattern_fits (percent query) = false ->
  sqlite_int64 (S limit) = true ->
  _fallback_search d query (S limit) language path_filter
  = Raise (OperationalError "LIKE or GLOB pattern too complex").
Proof.
  intros Hd Hq Hl. unfold _fallback_search. rewrite Hl, Hd.
  cbn [select_where]. unfold like. rewrite Hq. reflexivity.
Qed.

(** X10.  For a query without [%], [_] and NUL, with LIKE patterns that
    SQLite admits and a limit below [2^63], the fallback is a plain
    substring search that ignores the case of the letters A..Z: it
    returns the first [limit] stored files, in table order, whose
    content holds the query before its first NUL and which pass the
    language and path filters. *)
Theorem fallback_search_is_substring_search
    d query limit language path_filter :
  str_exists like_wildcard query = false ->
  str_exists (Ascii.eqb nul) query = false ->
  like_pattern_fits (percent query) = true ->
  opt_test (truthy path_filter) (fun p => like_pattern_fits (percent p))
  = true ->
  sqlite_int64 limit = true ->
  _fallback_search d query limit language path_filter
  = Return
      (map (fun r =>
              result_of (FileRow.path r) (FileRow.content r) 1%Qc "fulltext"
                        (_find_matches (FileRow.content r) query))
           (firstn limit
              (List.filter
                 (fun r =>
                    contains_folded query (c_str (FileRow.content r))
                    && opt_test (truthy language)
                                (fun l => String.eqb (FileRow.language r) l)
                    && opt_test (truthy path_filter)
                                (fun p => like_match (percent p)
                                                     (FileRow.path r)))
                 (files d)))).
Proof.
  intros Hw Hn Hq Hp Hl.
  rewrite fallback_search_returns by assumption.
  do 3 f_equal. apply filter_ext_in_bool. intros r _.
  now rewrite like_match_percent_query.
Qed.

Lemma fallback_search_is_substring_search_witness :
  _fallback_search nul_files "DEF" 5 None None
  = Return
      (map (fun r =>
              result_of (FileRow.path r) (FileRow.content r) 1%Qc "fulltext"
                        (_find_matches (FileRow.content r) "DEF"))
           (firstn 5
              (List.filter
                 (fun r =>
                    contains_folded "DEF" (c_str (FileRow.content r))
                    && opt_test (truthy None)
                                (fun l => String.eqb (FileRow.language r) l)
                    && opt_test (truthy None)
                                (fun p => like_match (percent p)
                                                     (FileRow.path r)))
                 (files nul_files)))).
Proof.
  apply (fallback_search_is_substring_search nul_files "DEF" 5 None None);
    reflexivity.
Defined.

(** The text after a NUL is not searched: of the three files that hold
    [def], the one that holds it behind a NUL is left out. *)
Example fallback_search_skips_after_nul :
  match _fallback_search nul_files "def" 5 None None with
  | Return results => map SearchResult.path results = ["a.py"; "b.py"]
  | Raise _ => False
  end.
Proof. reflexivity. Qed.

(** A query that is one NUL is read as the pattern [%]: every file
    comes back, with line 0 where the content holds no NUL. *)
Example fallback_search_nul_query :
  match _fallback_search nul_files (str1 nul) 5 None None with
  | Return results =>
      map (fun r => (SearchResult.path r, SearchResult.line_number r)) results
      = [("a.py", 0); ("b.py", 0); ("c.js", 1)]
  | Raise _ => False
  end.
Proof. reflexivity. Qed.

Lemma lower_char_like_fold c : lower_char (like_fold c) = lower_char c.
Proof. destruct c as [[] [] [] [] [] [] [] []]; reflexivity. Qed.

Lemma lower_like_fold s : lower (str_map like_fold s) = lower s.
Proof.
  induction s as [|c s IH]; [reflexivity|].
  cbn [str_map lower]. now rewrite lower_char_like_fold, IH.
Qed.

Lemma startswith_lower s : forall p,
  startswith s p = true -> startswith (lower s) (lower p) = true.
Proof.
  induction s as [|a s IH]; intros [|b p] H; try reflexivity; try discriminate.
  cbn [startswith lower] in *.
  destruct (Ascii.eqb_spec b a) as [->|]; [|discriminate].
  rewrite Ascii.eqb_refl. now apply IH.
Qed.

Lemma str_in_lower sub s :
  str_in sub s = true -> str_in (lower sub) (lower s) = true.
Proof.
  induction s as [|a s IH]; cbn [str_in lower]; intros H.
  - apply orb_true_iff in H as [H|H]; [|discriminate].
    apply startswith_lower in H. cbn [lower] in H. now rewrite H.
  - apply orb_true_iff in H as [H|H].
    + apply startswith_lower in H. cbn [lower] in H. now rewrite H.
    + rewrite (IH H). apply orb_true_r.
Qed.

Lemma startswith_before c q : forall a b,
  str_exists (Ascii.eqb c) q = false ->
  startswith (a +:+ String c b) q = true -> startswith a q = true.
Proof.
  induction q as [|x q IH]; intros a b Hq H; [now destruct a|].
  cbn [str_exists] in Hq. apply orb_false_iff in Hq as [Hx Hq].
  destruct a as [|y a].
  - change (EmptyString +:+ String c b) with (String c b) in H.
    cbn [startswith] in H. rewrite eqb_sym, Hx in H. discriminate.
  - rewrite append_cons in H. cbn [startswith] in *.
    destruct (Ascii.eqb x y); [|discriminate]. now apply (IH a b).
Qed.

Lemma str_in_nil_r q : str_in q EmptyString = true -> q = EmptyString.
Proof. destruct q; [reflexivity|discriminate]. Qed.

(** A text without [c] that is part of [a c b] is part of [a] or of [b]. *)
Lemma str_in_either_side c q a : forall b,
  str_exists (Ascii.eqb c) q = false ->
  str_in q (a +:+ String c b) = true ->
  str_in q a = true \/ str_in q b = true.
Proof.
  induction a as [|y a IH]; intros b Hq H.
  - change (EmptyString +:+ String c b) with (String c b) in H.
    cbn [str_in] in H. apply orb_true_iff in H as [H|H]; [|now right].
    left. change (String c b) with (EmptyString +:+ String c b) in H.
    apply (startswith_before c q EmptyString b Hq) in H.
    destruct q; [reflexivity|discriminate].
  - rewrite append_cons in H. cbn [str_in] in H.
    apply orb_true_iff in H as [H|H].
    + left. rewrite <- append_cons in H.
      apply (startswith_before c q _ b Hq) in H.
      cbn [str_in]. now rewrite H.
    + destruct (IH b Hq H) as [H'|H']; [left|now right].
      cbn [str_in]. rewrite H'. apply orb_true_r.
Qed.

Lemma split_acc_holds sep q s : forall cur,
  str_exists (Ascii.eqb sep) q = false ->
  str_in q (cur +:+ s) = true ->
  Exists (fun line => str_in q line = true) (split_acc sep cur s).
Proof.
  induction s as [|c s IH]; intros cur Hq H; cbn [split_acc].
  - rewrite append_nil_r in H. now constructor.
  - destruct (Ascii.eqb_spec c sep) as [->|Hne].
    + destruct (str_in_either_side sep q cur s Hq H) as [H'|H'].
      * now apply Exists_cons_hd.
      * apply Exists_cons_tl. now apply IH.
    + apply IH; [exact Hq|]. unfold str1. now rewrite append_assoc.
Qed.

Lemma lower_char_newline c : lower_char c = newline -> c = newline.
Proof. destruct c as [[] [] [] [] [] [] [] []]; (reflexivity || discriminate). Qed.

Lemma lower_has_newline q :
  str_exists (Ascii.eqb newline) (lower q) = str_exists (Ascii.eqb newline) q.
Proof.
  induction q as [|c q IH]; [reflexivity|].
  cbn [lower str_exists]. rewrite IH. f_equal.
  destruct (Ascii.eqb_spec newline c) as [<-|Hne]; [reflexivity|].
  apply Ascii.eqb_neq. intros E. apply Hne. symmetry.
  now apply lower_char_newline.
Qed.

Lemma lower_append a b : lower (a +:+ b) = lower a +:+ lower b.
Proof.
  induction a as [|c a IH]; [reflexivity|].
  rewrite append_cons. cbn [lower]. now rewrite append_cons, IH.
Qed.

Lemma split_acc_lower s : forall cur,
  split_acc newline (lower cur) (lower s) = map lower (split_acc newline cur s).
Proof.
  induction s as [|c s IH]; intros cur; [reflexivity|].
  cbn [lower split_acc].
  destruct (Ascii.eqb_spec c newline) as [->|Hne].
  - change (lower_char newline) with newline. rewrite Ascii.eqb_refl.
    cbn [map]. f_equal. apply (IH EmptyString).
  - destruct (Ascii.eqb_spec (lower_char c) newline) as [E|_].
    + now apply lower_char_newline in E.
    + rewrite <- IH. f_equal. now rewrite lower_append.
Qed.

(** A query without newline that is part of the content, whatever the
    case, is part of one of its lines. *)
Lemma some_line_holds query content :
  str_exists (Ascii.eqb newline) query = false ->
  str_in (lower query) (lower content) = true ->
  Exists (fun line => str_in (lower query) (lower line) = true)
         (split newline content).
Proof.
  intros Hq H.
  assert (Hs : Exists (fun line => str_in (lower query) line = true)
                      (split newline (lower content))).
  { unfold split. apply split_acc_holds; [now rewrite lower_has_newline|exact H]. }
  unfold split in *. change EmptyString with (lower EmptyString) in Hs.
  rewrite split_acc_lower in Hs. apply Exists_exists in Hs as (l & Hl & Hm).
  apply list_elem_of_In, in_map_iff in Hl as (line & <- & Hline).
  apply Exists_exists. exists line. split; [now apply list_elem_of_In|exact Hm].
Qed.

Lemma find_matches_line_zero content query :
  MatchInfo.line_number (_find_matches content query) = 0 ->
  Forall (fun line => str_in (lower query) (lower line) = false)
         (split newline content).
Proof.
  rewrite find_matches_closed. cbv zeta. intros H.
  apply (matching_lines_nil (lower query) _ 0).
  destruct (matching_lines (lower query) 0 (split newline content))
    as [|h hits]; [reflexivity|].
  destruct (last (firstn 3 (h :: hits))) as [[j line]|] eqn:EL.
  - cbn in H. lia.
  - apply last_None in EL. discriminate EL.
Qed.

Lemma startswith_app_l s : forall p t,
  startswith s p = true -> startswith (s +:+ t) p = true.
Proof.
  induction s as [|a s IH]; intros [|b p] t H; try reflexivity;
    try discriminate.
  - now destruct t.
  - rewrite append_cons. cbn [startswith] in *.
    destruct (Ascii.eqb b a); [|discriminate]. now apply IH.
Qed.

Lemma str_in_app_l q a b :
  str_in q a = true -> str_in q (a +:+ b) = true.
Proof.
  induction a as [|c a IH]; intros H.
  - apply str_in_nil_r in H. subst q. now destruct b.
  - rewrite append_cons. cbn [str_in] in *.
    apply orb_true_iff in H as [H|H].
    + rewrite <- append_cons, (startswith_app_l _ _ b H). reflexivity.
    + rewrite (IH H). apply orb_true_r.
Qed.

(** X11.  For a query without [%], [_], NUL and newline, with LIKE
    patterns that SQLite admits and a limit below [2^63], the fallback
    returns, and every file it returns comes with the number of a line
    that holds the query: the line number is never 0. *)
Theorem fallback_search_finds_a_line d query limit language path_filter :
  str_exists like_wildcard query = false ->
  str_exists (Ascii.eqb nul) query = false ->
  str_exists (Ascii.eqb newline) query = false ->
  like_pattern_fits (percent query) = true ->
  opt_test (truthy path_filter) (fun p => like_pattern_fits (percent p))
  = true ->
  sqlite_int64 limit = true ->
  exists results,
    _fallback_search d query limit language path_filter = Return results
    /\ Forall (fun r => 1 <= SearchResult.line_number r) results.
Proof.
  intros Hw Hz Hn Hq Hp Hl. eexists. split.
  { now apply fallback_search_returns. }
  apply Forall_map, Forall_forall.
  intros r Hr. apply elem_of_take in Hr as (i & Hi & _).
  apply list_elem_of_lookup_2, list_elem_of_In, filter_In in Hi as [_ Hr].
  apply andb_true_iff in Hr as [Hr _]. apply andb_true_iff in Hr as [Hr _].
  rewrite like_match_percent_query in Hr by assumption.
  unfold contains_folded in Hr. apply str_in_lower in Hr.
  rewrite !lower_like_fold in Hr.
  destruct (c_str_prefix (FileRow.content r)) as [rest Hrest].
  apply (str_in_app_l _ _ (lower rest)) in Hr.
  rewrite <- lower_append, <- Hrest in Hr.
  apply some_line_holds in Hr; [|exact Hn].
  unfold result_of. cbn [SearchResult.line_number].
  pose proof (find_matches_line_zero (FileRow.content r) query) as H0.
  destruct (MatchInfo.line_number (_find_matches (FileRow.content r) query));
    [|lia].
  specialize (H0 eq_refl). apply Exists_exists in Hr as (line & Hl' & Hm).
  rewrite Forall_forall in H0. rewrite (H0 line Hl') in Hm. discriminate.
Qed.

Lemma fallback_search_finds_a_line_witness :
  exists results,
    _fallback_search nul_files "PASS" 5 None None = Return results
    /\ Forall (fun r => 1 <= SearchResult.line_number r) results.
Proof.
  apply (fallback_search_finds_a_line nul_files "PASS" 5 None None);
    reflexivity.
Defined.

(** ** Hybrid planner: the fused list *)

Lemma hybrid_search_semantic_raises_witness :
  _hybrid_search empty_database two_hits backend_fails "foo" 1 None None
  = Return (firstn 1
      [ result_of "a.py" "x foo" (Qcabs (- Q2Qc (3 # 2))) "fulltext"
                  (_find_matches "x foo" "foo");
        result_of "b.py" "foo" (Qcabs (- 1)) "fulltext"
                  (_find_matches "foo" "foo") ]).
Proof.
  apply (hybrid_search_semantic_raises empty_database two_hits backend_fails
           "foo" 1 None None _ (OtherException "model file missing")).
  - reflexivity.
  - reflexivity.
  - discriminate.
Defined.

Lemma scores_add_keys_new key v scores :
  ~ In key (map fst scores) ->
  map fst (scores_add key v scores) = map fst scores ++ [key].
Proof.
  induction scores as [|[k' x] rest IH]; intros H; [reflexivity|].
  cbn [scores_add map fst]. cbn [map fst In] in H.
  destruct (String.eqb_spec k' key) as [->|Hne]; [tauto|].
  cbn [map fst app]. f_equal. apply IH. tauto.
Qed.

Lemma scores_add_keys_old key v scores :
  In key (map fst scores) ->
  map fst (scores_add key v scores) = map fst scores.
Proof.
  induction scores as [|[k' x] rest IH]; intros H; [destruct H|].
  cbn [scores_add map fst]. cbn [map fst In] in H.
  destruct (String.eqb_spec k' key) as [->|Hne]; [reflexivity|].
  cbn [map fst]. f_equal. apply IH. destruct H; [contradiction|assumption].
Qed.

Lemma scores_add_nodup key v scores :
  NoDup (map fst scores) -> NoDup (map fst (scores_add key v scores)).
Proof.
  intros H. destruct (in_dec String.string_dec key (map fst scores)) as [Hin|Hout].
  - now rewrite scores_add_keys_old.
  - rewrite scores_add_keys_new by exact Hout.
    apply NoDup_app. split; [exact H|]. split; [|apply NoDup_singleton].
    intros x Hx Hx'. apply list_elem_of_In in Hx'. cbn in Hx'.
    destruct Hx' as [<-|[]]. apply Hout. now apply list_elem_of_In.
Qed.

Lemma fuse_fulltext_nodup l : forall rank scores m,
  NoDup (map fst scores) ->
  NoDup (map fst (fst (fuse_fulltext rank l (scores, m)))).
Proof.
  induction l as [|r l IH]; intros rank scores m H; [exact H|].
  cbn [fuse_fulltext]. apply IH. now apply scores_add_nodup.
Qed.

Lemma fuse_semantic_nodup l : forall rank scores m,
  NoDup (map fst scores) ->
  NoDup (map fst (fst (fuse_semantic rank l (scores, m)))).
Proof.
  induction l as [|r l IH]; intros rank scores m H; [exact H|].
  cbn [fuse_semantic]. apply IH. now apply scores_add_nodup.
Qed.

Lemma fused_scores_nodup ft sem : NoDup (map fst (fst (fused_scores ft sem))).
Proof.
  unfold fused_scores.
  pose proof (fuse_fulltext_nodup ft 0 [] ∅ (NoDup_nil_2 : NoDup (map fst []))) as H.
  destruct (fuse_fulltext 0 ft ([], ∅)) as [s1 m1]. cbn [fst] in H.
  now apply fuse_semantic_nodup.
Qed.

Lemma insert_desc_nodup {A} (key : A -> Qc) x l :
  ~ In x l -> NoDup l -> NoDup (insert_desc key x l).
Proof.
  induction l as [|y l IH]; intros Hx Hl; cbn [insert_desc].
  - apply NoDup_singleton.
  - apply NoDup_cons in Hl as [Hy Hl].
    destruct (Qc_ltb (key x) (key y)).
    + apply NoDup_cons. split.
      * rewrite list_elem_of_In, insert_desc_In. intros [->|H].
        -- apply Hx. now left.
        -- apply Hy. now apply list_elem_of_In.
      * apply IH; [|exact Hl]. intros H. apply Hx. now right.
    + apply NoDup_cons. split; [now rewrite list_elem_of_In|].
      apply NoDup_cons. split; assumption.
Qed.

Lemma sorted_desc_nodup {A} (key : A -> Qc) l :
  NoDup l -> NoDup (sorted_desc key l).
Proof.
  unfold sorted_desc. induction l as [|y l IH]; intros H; [constructor|].
  apply NoDup_cons in H as [Hy H]. cbn [foldr].
  apply insert_desc_nodup; [|now apply IH].
  fold (sorted_desc key l). rewrite sorted_desc_In. now rewrite <- list_elem_of_In.
Qed.

Lemma fuse_fulltext_keys_inv l : forall rank scores m p,
  In p (map fst (fst (fuse_fulltext rank l (scores, m)))) ->
  In p (map fst scores) \/ In p (map SearchResult.path l).
Proof.
  induction l as [|r l IH]; intros rank scores m p H; [now left|].
  cbn [fuse_fulltext] in H. apply IH in H as [H|H].
  - apply scores_add_keys in H as [->|H]; [right; now left|now left].
  - right. now right.
Qed.

Lemma fuse_semantic_keys_inv l : forall rank scores m p,
  In p (map fst (fst (fuse_semantic rank l (scores, m)))) ->
  In p (map fst scores) \/ In p (map SearchResult.path l).
Proof.
  induction l as [|r l IH]; intros rank scores m p H; [now left|].
  cbn [fuse_semantic] in H. apply IH in H as [H|H].
  - apply scores_add_keys in H as [->|H]; [right; now left|now left].
  - right. now right.
Qed.

Lemma fused_scores_keys_inv ft sem p :
  In p (map fst (fst (fused_scores ft sem))) ->
  In p (map SearchResult.path ft) \/ In p (map SearchResult.path sem).
Proof.
  unfold fused_scores. intros H.
  destruct (fuse_fulltext 0 ft ([], ∅)) as [s1 m1] eqn:E.
  apply fuse_semantic_keys_inv in H as [H|H]; [|now right].
  replace s1 with (fst (fuse_fulltext 0 ft ([], ∅))) in H by now rewrite E.
  apply fuse_fulltext_keys_inv in H as [[]|H]. now left.
Qed.

Lemma rrf_fuse_In limit ft sem o :
  In o (rrf_fuse limit ft sem) ->
  exists r, snd (fused_scores ft sem) !! SearchResult.path o = Some r
            /\ o = SearchResult.set_search_type "hybrid"
                     (SearchResult.set_score
                        (scores_get (SearchResult.path o)
                                    (fst (fused_scores ft sem))) r).
Proof.
  unfold rrf_fuse. pose proof (fused_scores_ok ft sem) as [_ Hm].
  destruct (fused_scores ft sem) as [scores m]. cbn [fst snd] in *.
  intros H. apply list_elem_of_In, list_elem_of_omap in H as (p & _ & Hp).
  destruct (m !! p) as [r|] eqn:E; [|discriminate].
  injection Hp as <-. cbn [SearchResult.path SearchResult.set_search_type
    SearchResult.set_score].
  rewrite (Hm p r E). eauto.
Qed.

(** X14.  The fused branch returns at most [limit] results, all of type
    [hybrid], no path twice, each path taken from one of the two lists,
    each score the sum of the path's contributions. *)
Theorem rrf_fuse_results_shape limit ft sem :
  let out := rrf_fuse limit ft sem in
  List.length out <= limit
  /\ NoDup (map SearchResult.path out)
  /\ Forall (fun o =>
               SearchResult.search_type o = "hybrid"
               /\ (In (SearchResult.path o) (map SearchResult.path ft)
                   \/ In (SearchResult.path o) (map SearchResult.path sem))
               /\ SearchResult.score o
                  = (contrib (SearchResult.path o) 0 (map SearchResult.path ft)
                     + contrib (SearchResult.path o) 0 (map SearchResult.path sem))%Qc)
            out.
Proof.
  intros out. subst out. split; [|split].
  - rewrite <- (List.length_map SearchResult.path), rrf_fuse_paths.
    apply firstn_le_length.
  - rewrite rrf_fuse_paths.
    apply (sublist_NoDup _ (sorted_paths (fst (fused_scores ft sem))));
      [|apply sublist_take].
    unfold sorted_paths. apply sorted_desc_nodup, fused_scores_nodup.
  - apply Forall_forall. intros o Ho.
    assert (Hp : In (SearchResult.path o)
                    (map fst (fst (fused_scores ft sem)))).
    { apply list_elem_of_In in Ho.
      apply (in_map SearchResult.path) in Ho. rewrite rrf_fuse_paths in Ho.
      apply list_elem_of_In, elem_of_take in Ho as (i & Hi & _).
      apply list_elem_of_lookup_2, list_elem_of_In in Hi.
      unfold sorted_paths in Hi. now apply sorted_desc_In in Hi. }
    apply list_elem_of_In, rrf_fuse_In in Ho as (r & Hr & Ho).
    split; [now rewrite Ho|]. split; [now apply fused_scores_keys_inv|].
    rewrite Ho at 1. cbn [SearchResult.score SearchResult.set_search_type
      SearchResult.set_score].
    unfold fused_scores.
    destruct (fuse_fulltext 0 ft ([], ∅)) as [s1 m1] eqn:E.
    rewrite fuse_semantic_scores.
    replace s1 with (fst (fuse_fulltext 0 ft ([], ∅))) by now rewrite E.
    rewrite fuse_fulltext_scores. cbn. ring.
Qed.

Lemma fuse_fulltext_map_other l : forall rank scores m p,
  ~ In p (map SearchResult.path l) ->
  snd (fuse_fulltext rank l (scores, m)) !! p = m !! p.
Proof.
  induction l as [|r l IH]; intros rank scores m p Hp; [reflexivity|].
  cbn [fuse_fulltext]. cbn [map In] in Hp.
  rewrite IH by tauto. apply lookup_insert_ne. tauto.
Qed.

Lemma fuse_fulltext_map l : forall rank scores m r,
  NoDup (map SearchResult.path l) -> In r l ->
  snd (fuse_fulltext rank l (scores, m)) !! SearchResult.path r = Some r.
Proof.
  induction l as [|r0 l IH]; intros rank scores m r Hnd Hr; [destruct Hr|].
  cbn [map] in Hnd. apply NoDup_cons in Hnd as [H0 Hnd].
  cbn [fuse_fulltext]. destruct Hr as [->|Hr].
  - rewrite fuse_fulltext_map_other by now rewrite <- list_elem_of_In.
    apply lookup_insert_eq.
  - now apply IH.
Qed.

Lemma fuse_semantic_map_keep l : forall rank scores (m : gmap string SearchResult.t) p r,
  m !! p = Some r ->
  snd (fuse_semantic rank l (scores, m)) !! p = Some r.
Proof.
  induction l as [|r0 l IH]; intros rank scores m p r Hm; [exact Hm|].
  cbn [fuse_semantic]. apply IH.
  destruct (m !! SearchResult.path r0) eqn:E; [exact Hm|].
  rewrite lookup_insert_ne; [exact Hm|]. intros <-. congruence.
Qed.

Lemma fused_scores_map ft sem r :
  NoDup (map SearchResult.path ft) -> In r ft ->
  snd (fused_scores ft sem) !! SearchResult.path r = Some r.
Proof.
  intros Hnd Hr. unfold fused_scores.
  pose proof (fuse_fulltext_map ft 0 [] ∅ r Hnd Hr) as H.
  destruct (fuse_fulltext 0 ft ([], ∅)) as [s1 m1]. cbn [snd] in H.
  now apply fuse_semantic_map_keep.
Qed.

(** X15.  Full text is preferred: when the full-text list names a path,
    once, the returned result for that path is the full-text result with
    a new score and the type [hybrid], whatever the semantic list holds
    for the path. *)
Theorem rrf_fuse_prefers_fulltext limit ft sem r o :
  NoDup (map SearchResult.path ft) ->
  In r ft ->
  In o (rrf_fuse limit ft sem) ->
  SearchResult.path o = SearchResult.path r ->
  o = SearchResult.set_search_type "hybrid"
        (SearchResult.set_score (SearchResult.score o) r).
Proof.
  intros Hnd Hr Ho Hp.
  apply rrf_fuse_In in Ho as (r' & Hr' & Ho).
  rewrite Hp, (fused_scores_map ft sem r Hnd Hr) in Hr'.
  injection Hr' as <-.
  set (v := scores_get _ _) in Ho. clearbody v. subst o. reflexivity.
Qed.

Lemma rrf_fuse_prefers_fulltext_witness :
  let o := fused_twice 0 (hit "a.py") in
  o = SearchResult.set_search_type "hybrid"
        (SearchResult.set_score (SearchResult.score o) (hit "a.py")).
Proof.
  apply (rrf_fuse_prefers_fulltext 2 a_then_b [semantic_hit] (hit "a.py")
           (fused_twice 0 (hit "a.py"))).
  - compute_done.
  - now left.
  - left. unfold fused_twice.
    apply (f_equal (fun q =>
             SearchResult.set_search_type "hybrid"
               (SearchResult.set_score q (hit "a.py")))).
    now apply Qc_is_canon.
  - reflexivity.
Defined.

Lemma fuse_fulltext_keys_fresh l : forall rank scores m,
  NoDup (map fst scores ++ map SearchResult.path l) ->
  map fst (fst (fuse_fulltext rank l (scores, m)))
  = map fst scores ++ map SearchResult.path l.
Proof.
  induction l as [|r l IH]; intros rank scores m H; [now rewrite app_nil_r|].
  cbn [fuse_fulltext map] in *.
  assert (Hr : ~ In (SearchResult.path r) (map fst scores)).
  { apply NoDup_app in H as (_ & H & _). intros Hin.
    apply (H (SearchResult.path r)); [now apply list_elem_of_In|]. left. }
  rewrite IH; rewrite scores_add_keys_new by exact Hr;
    rewrite <- app_assoc; [reflexivity|exact H].
Qed.

Lemma fuse_semantic_keys_old l : forall rank scores m,
  (forall r, In r l -> In (SearchResult.path r) (map fst scores)) ->
  map fst (fst (fuse_semantic rank l (scores, m))) = map fst scores.
Proof.
  induction l as [|r l IH]; intros rank scores m H; [reflexivity|].
  cbn [fuse_semantic].
  rewrite IH; rewrite scores_add_keys_old by (apply H; now left);
    [reflexivity|].
  intros r' Hr'. apply H. now right.
Qed.

Lemma fused_scores_same_keys ft :
  NoDup (map SearchResult.path ft) ->
  map fst (fst (fused_scores ft ft)) = map SearchResult.path ft.
Proof.
  intros Hnd. unfold fused_scores.
  pose proof (fuse_fulltext_keys_fresh ft 0 [] ∅ Hnd) as H.
  destruct (fuse_fulltext 0 ft ([], ∅)) as [s1 m1]. cbn [fst map app] in H.
  rewrite fuse_semantic_keys_old; [exact H|].
  intros r Hr. rewrite H. now apply in_map.
Qed.

Lemma strongly_sorted_intro {A} (R : A -> A -> Prop) l :
  (forall i j x y, i < j -> l !! i = Some x -> l !! j = Some y -> R x y) ->
  StronglySorted R l.
Proof.
  induction l as [|x l IH]; intros H; constructor.
  - apply IH. intros i j a b Hij Ha Hb. apply (H (S i) (S j)); auto. lia.
  - apply Forall_forall. intros y Hy.
    apply list_elem_of_lookup_1 in Hy as [j Hj].
    apply (H 0 (S j)); auto. lia.
Qed.

Lemma sorted_desc_id {A} (key : A -> Qc) l :
  StronglySorted (fun x y => (key y <= key x)%Qc) l ->
  sorted_desc key l = l.
Proof.
  unfold sorted_desc. induction 1 as [|x l Hs IH Hx]; [reflexivity|].
  cbn [foldr]. rewrite IH. destruct l as [|y l]; [reflexivity|].
  cbn [insert_desc]. apply Forall_cons in Hx as [Hy _].
  destruct (Qc_ltb (key x) (key y)) eqn:E; [|reflexivity].
  apply Qc_ltb_lt in E. now apply Qcle_not_lt in Hy.
Qed.

Lemma rrf_fuse_same_list limit ft :
  NoDup (map SearchResult.path ft) ->
  map SearchResult.path (rrf_fuse limit ft ft)
  = firstn limit (map SearchResult.path ft)
  /\ forall i r, i < limit -> ft !! i = Some r ->
                 rrf_fuse limit ft ft !! i = Some (fused_twice i r).
Proof.
  intros Hnd.
  assert (Hkey : forall i p, map SearchResult.path ft !! i = Some p ->
            scores_get p (fst (fused_scores ft ft))
            = (rrf_score i + rrf_score i)%Qc).
  { intros i p Hi. now apply fused_score. }
  assert (Hsp : sorted_paths (fst (fused_scores ft ft))
                = map SearchResult.path ft).
  { unfold sorted_paths. rewrite fused_scores_same_keys by exact Hnd.
    apply sorted_desc_id, strongly_sorted_intro.
    intros i j x y Hij Hx Hy. rewrite (Hkey i x Hx), (Hkey j y Hy).
    apply Qclt_le_weak.
    apply Qclt_trans with (rrf_score i + rrf_score j)%Qc.
    - apply Qcplus_lt_mono_r. now apply rrf_score_decreasing.
    - apply Qcplus_lt_mono_l. now apply rrf_score_decreasing. }
  assert (Hpaths : map SearchResult.path (rrf_fuse limit ft ft)
                   = firstn limit (map SearchResult.path ft))
    by now rewrite rrf_fuse_paths, Hsp.
  split; [exact Hpaths|].
  intros i r Hi Hr.
  assert (Hpi : map SearchResult.path (rrf_fuse limit ft ft) !! i
                = Some (SearchResult.path r)).
  { rewrite Hpaths, lookup_take_lt by exact Hi.
    change (map SearchResult.path ft) with (SearchResult.path <$> ft).
    now rewrite list_lookup_fmap, Hr. }
  change (map SearchResult.path (rrf_fuse limit ft ft))
    with (SearchResult.path <$> rrf_fuse limit ft ft) in Hpi.
  rewrite list_lookup_fmap in Hpi.
  destruct (rrf_fuse limit ft ft !! i) as [o|] eqn:Eo; [|discriminate].
  injection Hpi as Hpo. f_equal.
  assert (Ho : In o (rrf_fuse limit ft ft))
    by (apply list_elem_of_In; eapply list_elem_of_lookup_2; eauto).
  apply rrf_fuse_In in Ho as (r' & Hr' & Ho).
  assert (Hin : In r ft)
    by (apply list_elem_of_In; eapply list_elem_of_lookup_2; eauto).
  rewrite Hpo, (fused_scores_map ft ft r Hnd Hin) in Hr'.
  injection Hr' as <-.
  rewrite Hpo in Ho. rewrite (Hkey i (SearchResult.path r)) in Ho; [exact Ho|].
  change (map SearchResult.path ft) with (SearchResult.path <$> ft).
  now rewrite list_lookup_fmap, Hr.
Qed.

(** X13.  With the semantic backend not installed the hybrid search
    keeps the full-text order and nothing else: the result at rank [i]
    is the full-text result at rank [i] with the score
    [2 / (60 + i + 1)] and the type [hybrid]. *)
Theorem hybrid_search_not_installed
    d fts5_select semantic_searcher query limit language path_filter ft msg :
  _fulltext_search d fts5_select query (limit * 2) language path_filter
  = Return ft ->
  semantic_searcher query (limit * 2) language path_filter
  = Raise (ImportError msg) ->
  NoDup (map SearchResult.path ft) ->
  exists results,
    _hybrid_search d fts5_select semantic_searcher query limit
                   language path_filter
    = Return results
    /\ map SearchResult.path results = firstn limit (map SearchResult.path ft)
    /\ forall i r, i < limit -> ft !! i = Some r ->
                   results !! i = Some (fused_twice i r).
Proof.
  intros Hft Hsem Hnd. exists (rrf_fuse limit ft ft). split.
  - apply hybrid_search_fuses; [exact Hft|].
    unfold _semantic_search. now rewrite Hsem.
  - now apply rrf_fuse_same_list.
Qed.

Lemma hybrid_search_not_installed_witness :
  exists results,
    _hybrid_search empty_database two_hits not_installed "foo" 1 None None
    = Return results
    /\ map SearchResult.path results
       = firstn 1 (map SearchResult.path
           [ result_of "a.py" "x foo" (Qcabs (- Q2Qc (3 # 2))) "fulltext"
                       (_find_matches "x foo" "foo");
             result_of "b.py" "foo" (Qcabs (- 1)) "fulltext"
                       (_find_matches "foo" "foo") ])
    /\ forall i r, i < 1 ->
         [ result_of "a.py" "x foo" (Qcabs (- Q2Qc (3 # 2))) "fulltext"
                     (_find_matches "x foo" "foo");
           result_of "b.py" "foo" (Qcabs (- 1)) "fulltext"
                     (_find_matches "foo" "foo") ] !! i = Some r ->
         results !! i = Some (fused_twice i r).
Proof.
  apply (hybrid_search_not_installed empty_database two_hits not_installed
           "foo" 1 None None _ "No module named codex_lens.semantic").
  - reflexivity.
  - reflexivity.
  - compute_done.
Defined.

(** ** Indexer: what a pass does to the store *)

Lemma in_save_file_other now f d row :
  In row (files d) -> FileRow.path row <> IndexedFile.path f ->
  In row (files (_save_file now f d)).
Proof.
  intros Hin Hne. unfold _save_file, _save_file_with, insert_or_replace.
  cbn [files]. apply in_or_app. left. apply filter_In. split; [exact Hin|].
  apply negb_true_iff. now apply String.eqb_neq.
Qed.

Section PassFacts.

Variable sha256_hex16 : string -> string.

Lemma index_step_keeps_row st f row :
  In row (files (Pass.db st)) -> FileRow.path row <> file_key f ->
  In row (files (Pass.db (index_step sha256_hex16 st f))).
Proof.
  intros Hin Hne. unfold index_step.
  destruct (index_file sha256_hex16 f (Pass.db st)) as [x|] eqn:E;
    cbn [Pass.db]; [|exact Hin].
  apply in_save_file_other; [exact Hin|].
  now rewrite (index_file_path _ _ _ _ E).
Qed.

Lemma fold_index_step_keeps_row files0 row : forall st,
  In row (files (Pass.db st)) ->
  (forall f, In f files0 -> FileRow.path row <> file_key f) ->
  In row (files (Pass.db (fold_left (index_step sha256_hex16) files0 st))).
Proof.
  induction files0 as [|f files0 IH]; intros st Hin Hne; [exact Hin|].
  cbn [fold_left]. apply IH.
  - apply index_step_keeps_row; [exact Hin|]. apply Hne. now left.
  - intros g Hg. apply Hne. now right.
Qed.

(** X16.  After a pass over a tree without repeated paths the store
    holds, for every scanned file that can be read, the hash of the
    content the file has now. *)
Theorem index_directory_stores_hashes ignore_patterns tree clock d f c :
  NoDup (map file_key tree) ->
  In f (_scan_files ignore_patterns tree) ->
  FsFile.read f = Some c ->
  _get_file_hash (file_key f)
    (fst (fst (index_directory sha256_hex16 ignore_patterns tree clock d)))
  = Some (sha256_hex16 c).
Proof.
  intros Hnd Hf Hc. unfold index_directory. cbn [fst].
  unfold _save_stats, _get_file_hash. cbn [files].
  apply (first_pass_hashes sha256_hex16 (_scan_files ignore_patterns tree) []
           (Pass.mk d clock 0 0 ∅ 0 0)); auto.
  - cbn [app]. unfold _scan_files. now apply NoDup_map_filter.
  - intros ? ? [].
Qed.

(** X17.  A second pass over a tree that did not change saves no file
    and leaves the file table and the full-text index as they are; what
    it returns and stores as statistics are zeros and an empty language
    map. *)
Theorem second_pass_saves_nothing ignore_patterns tree clock d :
  NoDup (map file_key tree) ->
  let r1 := index_directory sha256_hex16 ignore_patterns tree clock d in
  let d1 := fst (fst r1) in
  let c1 := snd (fst r1) in
  let r2 := index_directory sha256_hex16 ignore_patterns tree c1 d1 in
  upserts sha256_hex16 ignore_patterns tree c1 d1 = 0
  /\ files (fst (fst r2)) = files d1
  /\ files_fts (fst (fst r2)) = files_fts d1
  /\ snd r2 = IndexStats.mk 0 0 0 ∅ (Some c1) "1.0"
  /\ get_stats (fst (fst r2)) = Some (snd r2).
Proof. apply second_pass_is_empty. Qed.

(** X18.  A pass never removes a stored file: a row whose path is not
    the path of a scanned file, the file being gone from the tree or
    ignored by now, is still in the table afterwards. *)
Theorem index_directory_never_prunes ignore_patterns tree clock d row :
  In row (files d) ->
  (forall f, In f (_scan_files ignore_patterns tree) ->
             FileRow.path row <> file_key f) ->
  In row (files (fst (fst
    (index_directory sha256_hex16 ignore_patterns tree clock d)))).
Proof.
  intros Hin Hne. unfold index_directory. cbn [fst _save_stats files].
  now apply fold_index_step_keeps_row.
Qed.

End PassFacts.

Lemma index_directory_stores_hashes_witness :
  _get_file_hash (file_key hello_py)
    (fst (fst (index_directory (fun s => s) DEFAULT_IGNORE_PATTERNS small_tree
                               0 old_store)))
  = Some (nl "def greet():" (nl "    return hi" EmptyString)).
Proof.
  apply (index_directory_stores_hashes (fun s => s) DEFAULT_IGNORE_PATTERNS
           small_tree 0 old_store hello_py).
  - compute_done.
  - vm_compute. now left.
  - reflexivity.
Defined.

Lemma second_pass_saves_nothing_witness :
  let r1 := index_directory (fun s => s) DEFAULT_IGNORE_PATTERNS small_tree
                            0 old_store in
  let d1 := fst (fst r1) in
  let c1 := snd (fst r1) in
  let r2 := index_directory (fun s => s) DEFAULT_IGNORE_PATTERNS small_tree
                            c1 d1 in
  upserts (fun s => s) DEFAULT_IGNORE_PATTERNS small_tree c1 d1 = 0
  /\ files (fst (fst r2)) = files d1
  /\ files_fts (fst (fst r2)) = files_fts d1
  /\ snd r2 = IndexStats.mk 0 0 0 ∅ (Some c1) "1.0"
  /\ get_stats (fst (fst r2)) = Some (snd r2).
Proof.
  apply (second_pass_saves_nothing (fun s => s) DEFAULT_IGNORE_PATTERNS
           small_tree 0 old_store).
  compute_done.
Defined.

Lemma index_directory_never_prunes_witness :
  In one_def (files (fst (fst
    (index_directory (fun s => s) DEFAULT_IGNORE_PATTERNS small_tree
                     0 old_store)))).
Proof.
  apply (index_directory_never_prunes (fun s => s) DEFAULT_IGNORE_PATTERNS
           small_tree 0 old_store one_def).
  - now left.
  - vm_compute. intros f [<-|[<-|[]]]; discriminate.
Defined.

Lemma language_count_insert (m : gmap string nat) lang l :
  language_count (<[lang := default 0 (m !! lang) + 1]> m) l
  = language_count m l + (if String.eqb lang l then 1 else 0).
Proof.
  unfold language_count. destruct (String.eqb_spec lang l) as [->|Hne].
  - now rewrite lookup_insert_eq.
  - rewrite lookup_insert_ne by exact Hne. lia.
Qed.

Lemma index_file_new sha256_hex16 f d :
  _get_file_hash (file_key f) d = None ->
  index_file sha256_hex16 f d
  = option_map
      (fun c => new_IndexedFile sha256_hex16 (file_key f) c
                  (_detect_language (FsFile.path f))
                  (FsFile.st_size f) (FsFile.st_mtime f))
      (FsFile.read f).
Proof.
  intros H. unfold index_file. fold (file_key f). rewrite H.
  destruct (FsFile.read f) as [c|]; [|reflexivity]. cbn [option_map].
  destruct (decide (None = Some _)) as [|_]; [discriminate|reflexivity].
Qed.

Lemma sum_nat_app l1 l2 : sum_nat (l1 ++ l2) = sum_nat l1 + sum_nat l2.
Proof.
  induction l1 as [|x l1 IH]; [reflexivity|].
  cbn [app]. unfold sum_nat in *. cbn [fold_right]. rewrite IH. lia.
Qed.

Lemma readable_cons f rest : readable (f :: rest) = readable [f] ++ readable rest.
Proof. unfold readable. cbn [omap list_omap]. now destruct (FsFile.read f). Qed.

Lemma index_step_counts sha256_hex16 st f :
  _get_file_hash (file_key f) (Pass.db st) = None ->
  let st' := index_step sha256_hex16 st f in
  let rs := readable [f] in
  Pass.indexed_count st' = Pass.indexed_count st + List.length rs
  /\ Pass.total_lines st'
     = Pass.total_lines st
       + sum_nat (map (fun fc => count_char newline (snd fc) + 1) rs)
  /\ Pass.total_size st'
     = Pass.total_size st + sum_nat (map (fun fc => FsFile.st_size (fst fc)) rs)
  /\ forall lang,
       language_count (Pass.languages st') lang
       = language_count (Pass.languages st) lang
         + List.length
             (List.filter
                (fun fc => String.eqb (_detect_language (FsFile.path (fst fc)))
                                      lang)
                rs).
Proof.
  intros Hnone. cbv zeta. unfold index_step, readable.
  rewrite (index_file_new sha256_hex16 f (Pass.db st) Hnone).
  cbn [omap list_omap]. destruct (FsFile.read f) as [c|]; cbn.
  - split; [lia|]. split; [lia|]. split; [lia|].
    intros lang. rewrite language_count_insert.
    destruct (String.eqb (_detect_language (FsFile.path f)) lang); cbn; lia.
  - split; [lia|]. split; [lia|]. split; [lia|]. intros lang. lia.
Qed.

Lemma first_pass_counts sha256_hex16 rest : forall st,
  NoDup (map file_key rest) ->
  (forall f, In f rest -> _get_file_hash (file_key f) (Pass.db st) = None) ->
  let st' := fold_left (index_step sha256_hex16) rest st in
  let rs := readable rest in
  Pass.indexed_count st' = Pass.indexed_count st + List.length rs
  /\ Pass.total_lines st'
     = Pass.total_lines st
       + sum_nat (map (fun fc => count_char newline (snd fc) + 1) rs)
  /\ Pass.total_size st'
     = Pass.total_size st + sum_nat (map (fun fc => FsFile.st_size (fst fc)) rs)
  /\ forall lang,
       language_count (Pass.languages st') lang
       = language_count (Pass.languages st) lang
         + List.length
             (List.filter
                (fun fc => String.eqb (_detect_language (FsFile.path (fst fc)))
                                      lang)
                rs).
Proof.
  induction rest as [|f rest IH]; intros st Hnd Hnone.
  - cbn. repeat split; intros; lia.
  - cbn [map] in Hnd. apply NoDup_cons in Hnd as [Hf Hnd].
    cbn [fold_left]. cbv zeta.
    assert (Hstep : forall g, In g rest ->
              _get_file_hash (file_key g)
                (Pass.db (index_step sha256_hex16 st f)) = None).
    { intros g Hg. unfold index_step.
      destruct (index_file sha256_hex16 f (Pass.db st)) as [x|] eqn:E;
        cbn [Pass.db]; [|apply Hnone; now right].
      rewrite get_file_hash_save, (index_file_path _ _ _ _ E).
      destruct (String.eqb_spec (file_key f) (file_key g)) as [Heq|_].
      - exfalso. apply Hf. rewrite Heq. now apply list_elem_of_In, in_map.
      - apply Hnone. now right. }
    destruct (IH (index_step sha256_hex16 st f) Hnd Hstep)
      as (H1 & H2 & H3 & H4).
    destruct (index_step_counts sha256_hex16 st f (Hnone f (or_introl eq_refl)))
      as (S1 & S2 & S3 & S4).
    rewrite (readable_cons f rest), H1, H2, H3, S1, S2, S3.
    rewrite length_app, !map_app, !sum_nat_app.
    split; [lia|]. split; [lia|]. split; [lia|].
    intros lang. rewrite H4, S4, List.filter_app, length_app. lia.
Qed.

(** X19.  When the store holds none of the scanned files, as on the
    first indexing of a tree, the statistics count every scanned file
    that can be read: their number, their lines (newlines plus one each),
    their sizes, and their number per language. *)
Theorem first_index_counts_readable_files
    sha256_hex16 ignore_patterns tree clock d :
  NoDup (map file_key tree) ->
  (forall f, In f (_scan_files ignore_patterns tree) ->
             _get_file_hash (file_key f) d = None) ->
  let stats := snd (index_directory sha256_hex16 ignore_patterns tree clock d) in
  let rs := readable (_scan_files ignore_patterns tree) in
  IndexStats.total_files stats = List.length rs
  /\ IndexStats.total_lines stats
     = sum_nat (map (fun fc => count_char newline (snd fc) + 1) rs)
  /\ IndexStats.total_size stats
     = sum_nat (map (fun fc => FsFile.st_size (fst fc)) rs)
  /\ forall lang,
       language_count (IndexStats.languages stats) lang
       = List.length
           (List.filter
              (fun fc => String.eqb (_detect_language (FsFile.path (fst fc)))
                                    lang)
              rs).
Proof.
  intros Hnd Hnone stats rs. subst stats rs. unfold index_directory.
  cbn [snd IndexStats.total_files IndexStats.total_lines IndexStats.total_size
       IndexStats.languages].
  assert (Hnd' : NoDup (map file_key (_scan_files ignore_patterns tree)))
    by (unfold _scan_files; now apply NoDup_map_filter).
  destruct (first_pass_counts sha256_hex16 (_scan_files ignore_patterns tree)
              (Pass.mk d clock 0 0 ∅ 0 0) Hnd' Hnone) as (H1 & H2 & H3 & H4).
  cbn [Pass.indexed_count Pass.total_lines Pass.total_size Pass.languages] in *.
  split; [exact H1|]. split; [exact H2|]. split; [exact H3|].
  intros lang. rewrite H4. unfold language_count. now rewrite lookup_empty.
Qed.

Lemma first_index_counts_readable_files_witness :
  let stats := snd (index_directory (fun s => s) DEFAULT_IGNORE_PATTERNS
                                    small_tree 0 empty_database) in
  let rs := readable (_scan_files DEFAULT_IGNORE_PATTERNS small_tree) in
  IndexStats.total_files stats = List.length rs
  /\ IndexStats.total_lines stats
     = sum_nat (map (fun fc => count_char newline (snd fc) + 1) rs)
  /\ IndexStats.total_size stats
     = sum_nat (map (fun fc => FsFile.st_size (fst fc)) rs)
  /\ forall lang,
       language_count (IndexStats.languages stats) lang
       = List.length
           (List.filter
              (fun fc => String.eqb (_detect_language (FsFile.path (fst fc)))
                                    lang)
              rs).
Proof.
  apply (first_index_counts_readable_files (fun s => s)
           DEFAULT_IGNORE_PATTERNS small_tree 0 empty_database).
  - compute_done.
  - intros f _. reflexivity.
Defined.

Lemma assoc_get_In {V} key (d : list (string * V)) v :
  assoc_get key d = Some v -> In v (map snd d).
Proof.
  induction d as [|[k' x] d IH]; [discriminate|]. cbn [assoc_get map snd].
  destruct (String.eqb k' key); [intros [= ->]; now left|].
  intros H. right. now apply IH.
Qed.

Lemma scanned_language ignore_patterns tree f :
  In f (_scan_files ignore_patterns tree) ->
  In (_detect_language (FsFile.path f)) (map snd LANGUAGE_MAP).
Proof.
  unfold _scan_files. intros H. apply filter_In in H as [_ H].
  apply andb_true_iff in H as [_ H].
  unfold in_LANGUAGE_MAP in H. unfold _detect_language.
  destruct (assoc_get (lower (path_suffix (FsFile.path f))) LANGUAGE_MAP)
    as [lang|] eqn:E; [|discriminate].
  now apply assoc_get_In in E.
Qed.

Lemma languages_kept sha256_hex16 ignore_patterns tree rest : forall st,
  (forall f, In f rest -> In f (_scan_files ignore_patterns tree)) ->
  Forall (fun r => In (FileRow.language r) (map snd LANGUAGE_MAP))
         (files (Pass.db st)) ->
  Forall (fun r => In (FileRow.language r) (map snd LANGUAGE_MAP))
         (files (Pass.db (fold_left (index_step sha256_hex16) rest st))).
Proof.
  induction rest as [|f rest IH]; intros st Hsub Hst; [exact Hst|].
  cbn [fold_left]. apply IH; [intros g Hg; apply Hsub; now right|].
  unfold index_step.
  destruct (index_file sha256_hex16 f (Pass.db st)) as [x|] eqn:E;
    cbn [Pass.db]; [|exact Hst].
  unfold _save_file, _save_file_with, insert_or_replace. cbn [files].
  apply Forall_app. split; [now apply Forall_filter_bool|].
  constructor; [|constructor]. cbn [FileRow.language].
  unfold index_file in E. destruct (FsFile.read f); [|discriminate].
  destruct (decide _); [discriminate|]. injection E as <-.
  cbn [IndexedFile.language new_IndexedFile].
  apply (scanned_language ignore_patterns tree). apply Hsub. now left.
Qed.

(** X20.  Language closure: a pass writes only rows whose language is a
    tag of the language table, so a store whose rows all carry such a
    tag still does after the pass; [unknown] is no such tag. *)
Theorem index_directory_language_closure
    sha256_hex16 ignore_patterns tree clock d :
  Forall (fun r => In (FileRow.language r) (map snd LANGUAGE_MAP)) (files d) ->
  Forall (fun r => In (FileRow.language r) (map snd LANGUAGE_MAP)
                   /\ FileRow.language r <> "unknown")
         (files (fst (fst
            (index_directory sha256_hex16 ignore_patterns tree clock d)))).
Proof.
  intros Hd. unfold index_directory. cbn [fst _save_stats files].
  eapply Forall_impl;
    [apply (languages_kept sha256_hex16 ignore_patterns tree); auto|].
  cbn beta. intros r Hr. split; [exact Hr|].
  intros E. rewrite E in Hr. revert Hr. clear. cbn.
  intros H. repeat (destruct H as [H|H]; [discriminate H|]). exact H.
Qed.

Lemma index_directory_language_closure_witness :
  Forall (fun r => In (FileRow.language r) (map snd LANGUAGE_MAP)
                   /\ FileRow.language r <> "unknown")
         (files (fst (fst
            (index_directory (fun s => s) DEFAULT_IGNORE_PATTERNS small_tree
                             0 old_store)))).
Proof.
  apply (index_directory_language_closure (fun s => s)
           DEFAULT_IGNORE_PATTERNS small_tree 0 old_store).
  vm_compute. repeat constructor.
Defined.

(** ** Ignore matcher: what a pattern catches *)

Lemma translate_literal pat :
  str_exists glob_meta pat = false ->
  forall s, glob_match (translate_from 0 pat) s = String.eqb s pat.
Proof.
  induction pat as [|c pat IH]; intros Hp s.
  - now destruct s.
  - cbn [str_exists] in Hp. apply orb_false_iff in Hp as [Hc Hp].
    unfold glob_meta in Hc. apply orb_false_iff in Hc as [Hc H3].
    apply orb_false_iff in Hc as [H1 H2].
    cbn [translate_from]. rewrite H1, H2, H3. cbn [glob_match].
    destruct s as [|a s]; [reflexivity|].
    cbn [String.eqb]. rewrite (IH Hp s). now destruct (Ascii.eqb a c).
Qed.

Lemma fnmatch_literal name pat :
  literal_pattern pat = true -> fnmatch name pat = String.eqb name pat.
Proof.
  unfold literal_pattern, fnmatch, translate. intros H.
  apply negb_true_iff in H. now apply translate_literal.
Qed.

Lemma ignore_test_literal path p :
  literal_pattern p = true ->
  fnmatch (path_name path) p
  || fnmatch (path_str path) p
  || existsb (fun parent => fnmatch parent p || String.eqb parent p)
             (parents path)
  = matches_literally path p.
Proof.
  intros Hp. unfold matches_literally.
  rewrite !(fnmatch_literal _ p Hp).
  replace (existsb (fun parent => fnmatch parent p || String.eqb parent p)
                   (parents path))
    with (existsb (fun parent => String.eqb parent p) (parents path));
    [reflexivity|].
  induction (parents path) as [|q qs IHq]; [reflexivity|].
  cbn [existsb]. rewrite IHq, (fnmatch_literal _ p Hp).
  now destruct (String.eqb q p).
Qed.

(** X21.  With patterns that hold no [*], [?] or [[], a file is ignored
    exactly when one of them is its name, its whole relative path, or
    one of its parent paths as a whole; a pattern never matches a
    directory name inside a longer parent path. *)
Theorem should_ignore_literal_patterns patterns path :
  forallb literal_pattern patterns = true ->
  _should_ignore patterns path = existsb (matches_literally path) patterns.
Proof.
  intros H. unfold _should_ignore.
  induction patterns as [|p patterns IH]; [reflexivity|].
  cbn [forallb] in H. apply andb_true_iff in H as [Hp H].
  cbn [existsb]. now rewrite (IH H), (ignore_test_literal path p Hp).
Qed.

Lemma should_ignore_literal_patterns_witness :
  _should_ignore ["node_modules"; "dist"] ["src"; "node_modules"; "x.js"]
  = existsb (matches_literally ["src"; "node_modules"; "x.js"])
            ["node_modules"; "dist"].
Proof.
  apply (should_ignore_literal_patterns ["node_modules"; "dist"]
           ["src"; "node_modules"; "x.js"]).
  reflexivity.
Defined.

Lemma glob_star_unfold ts s :
  glob_match (GStar :: ts) s
  = glob_match ts s || match s with
                       | EmptyString => false
                       | String _ s' => glob_match (GStar :: ts) s'
                       end.
Proof. destruct s; reflexivity. Qed.

Lemma glob_star_suffix ts pre : forall s,
  glob_match ts s = true -> glob_match (GStar :: ts) (pre +:+ s) = true.
Proof.
  induction pre as [|c pre IH]; intros s H.
  - change (EmptyString +:+ s) with s. rewrite glob_star_unfold, H. reflexivity.
  - rewrite append_cons, glob_star_unfold, (IH s H). apply orb_true_r.
Qed.

Lemma fnmatch_star_suffix pre suffix :
  literal_pattern suffix = true ->
  fnmatch (pre +:+ suffix) ("*" +:+ suffix) = true.
Proof.
  intros H. unfold fnmatch, translate.
  change ("*" +:+ suffix) with (String "*" suffix).
  cbn [translate_from]. rewrite Ascii.eqb_refl.
  apply glob_star_suffix. unfold literal_pattern in H.
  apply negb_true_iff in H. rewrite (translate_literal suffix H).
  apply String.eqb_refl.
Qed.

(** X22.  A pattern made of a star and a text without wildcards, such
    as [*.pyc], ignores every file whose name ends with that text, at
    any depth. *)
Theorem should_ignore_star_suffix patterns suffix path pre :
  In ("*" +:+ suffix) patterns ->
  literal_pattern suffix = true ->
  path_name path = pre +:+ suffix ->
  _should_ignore patterns path = true.
Proof.
  intros Hin Hlit Hname. unfold _should_ignore. apply existsb_exists.
  exists ("*" +:+ suffix). split; [exact Hin|].
  rewrite Hname, (fnmatch_star_suffix pre suffix Hlit). reflexivity.
Qed.

Lemma should_ignore_star_suffix_witness :
  _should_ignore DEFAULT_IGNORE_PATTERNS ["a"; "b"; "c"; "mod.pyc"] = true.
Proof.
  apply (should_ignore_star_suffix DEFAULT_IGNORE_PATTERNS ".pyc"
           ["a"; "b"; "c"; "mod.pyc"] "mod").
  - vm_compute. tauto.
  - reflexivity.
  - reflexivity.
Defined.

Lemma should_ignore_top_component_witness :
  _should_ignore DEFAULT_IGNORE_PATTERNS ["node_modules"; "foo"; "bar.js"]
  = true.
Proof.
  apply (should_ignore_top_component DEFAULT_IGNORE_PATTERNS
           "node_modules" "foo" ["bar.js"]).
  now left.
Defined.

(** ** Storage: round trips *)

Lemma get_file_hash_rows_at p d :
  _get_file_hash p d = match rows_at p d with
                       | [] => None
                       | r :: _ => Some (FileRow.content_hash r)
                       end.
Proof. reflexivity. Qed.

Lemma filter_false {A} (l : list A) : List.filter (fun _ => false) l = [].
Proof. induction l as [|x l IH]; [reflexivity|exact IH]. Qed.

Lemma rows_at_save now f d p :
  rows_at p (_save_file now f d)
  = if String.eqb (IndexedFile.path f) p
    then [FileRow.mk (files_seq d + 1) (IndexedFile.path f)
            (IndexedFile.content f) (IndexedFile.language f)
            (IndexedFile.size f) (IndexedFile.last_modified f)
            (IndexedFile.content_hash f) now]
    else rows_at p d.
Proof.
  unfold rows_at, _save_file, _save_file_with, insert_or_replace.
  cbn [files]. rewrite List.filter_app, filter_filter_bool.
  cbn [List.filter FileRow.path].
  destruct (String.eqb_spec (IndexedFile.path f) p) as [->|Hne].
  - rewrite (filter_ext_in_bool _ (fun _ => false)); [now rewrite filter_false|].
    intros r _. now destruct (String.eqb (FileRow.path r) p).
  - rewrite app_nil_r. apply filter_ext_in_bool. intros r _.
    destruct (String.eqb_spec (FileRow.path r) p) as [->|H]; [|apply andb_false_r].
    apply String.eqb_neq in Hne. rewrite String.eqb_sym in Hne. now rewrite Hne.
Qed.

(** X24.  [_save_file] inserts or replaces by path: afterwards the table
    holds exactly one row for the path of the saved file, with its
    content, language and hash, whatever was stored before, and the rows
    of every other path are as they were. *)
Theorem save_file_replaces_by_path now f d :
  (exists r, rows_at (IndexedFile.path f) (_save_file now f d) = [r]
             /\ FileRow.content r = IndexedFile.content f
             /\ FileRow.language r = IndexedFile.language f
             /\ FileRow.content_hash r = IndexedFile.content_hash f
             /\ FileRow.indexed_at r = now)
  /\ _get_file_hash (IndexedFile.path f) (_save_file now f d)
     = Some (IndexedFile.content_hash f)
  /\ forall p, p <> IndexedFile.path f ->
               rows_at p (_save_file now f d) = rows_at p d.
Proof.
  split; [|split].
  - rewrite rows_at_save, String.eqb_refl. eexists. split; [reflexivity|].
    repeat split.
  - rewrite get_file_hash_rows_at, rows_at_save, String.eqb_refl. reflexivity.
  - intros p Hp. rewrite rows_at_save.
    apply not_eq_sym, String.eqb_neq in Hp. now rewrite Hp.
Qed.

Lemma rows_at_remove p q d :
  rows_at q (remove_file p d)
  = if String.eqb p q then [] else rows_at q d.
Proof.
  unfold rows_at, remove_file, delete_from_files. cbn [files].
  rewrite filter_filter_bool.
  destruct (String.eqb_spec p q) as [->|Hne].
  - rewrite (filter_ext_in_bool _ (fun _ => false)); [apply filter_false|].
    intros r _. now destruct (String.eqb (FileRow.path r) q).
  - apply filter_ext_in_bool. intros r _.
    destruct (String.eqb_spec (FileRow.path r) q) as [->|H]; [|apply andb_false_r].
    apply not_eq_sym, String.eqb_neq in Hne. now rewrite Hne.
Qed.

(** X25.  [remove_file] forgets one path and nothing else: no row and
    no hash are left for it, the rows of the other paths stay, and a
    consistent store stays consistent, so neither table holds a triple
    for the path. *)
Theorem remove_file_forgets_path p d :
  store_ok d ->
  rows_at p (remove_file p d) = []
  /\ _get_file_hash p (remove_file p d) = None
  /\ (forall q, q <> p -> rows_at q (remove_file p d) = rows_at q d)
  /\ mirror_triples (remove_file p d) = file_triples (remove_file p d)
  /\ Forall (fun t => fst (fst t) <> p) (mirror_triples (remove_file p d)).
Proof.
  intros Hd.
  assert (H0 : rows_at p (remove_file p d) = [])
    by now rewrite rows_at_remove, String.eqb_refl.
  assert (Hok : store_ok (remove_file p d)) by now apply delete_from_files_ok.
  split; [exact H0|]. split; [now rewrite get_file_hash_rows_at, H0|].
  split.
  - intros q Hq. rewrite rows_at_remove.
    apply not_eq_sym, String.eqb_neq in Hq. now rewrite Hq.
  - split; [now apply store_ok_parity|].
    rewrite (store_ok_parity _ Hok). unfold file_triples.
    apply Forall_map, Forall_forall. intros r Hr. cbn [fst].
    intros E. apply list_elem_of_In in Hr.
    assert (Hin : In r (rows_at p (remove_file p d))).
    { apply filter_In. split; [exact Hr|]. now apply String.eqb_eq. }
    rewrite H0 in Hin. destruct Hin.
Qed.

Lemma remove_file_forgets_path_witness :
  rows_at "a.py" (remove_file "a.py" old_store) = []
  /\ _get_file_hash "a.py" (remove_file "a.py" old_store) = None
  /\ (forall q, q <> "a.py" ->
        rows_at q (remove_file "a.py" old_store)
        = rows_at q old_store)
  /\ mirror_triples (remove_file "a.py" old_store)
     = file_triples (remove_file "a.py" old_store)
  /\ Forall (fun t => fst (fst t) <> "a.py")
            (mirror_triples (remove_file "a.py" old_store)).
Proof.
  apply (remove_file_forgets_path "a.py" old_store).
  split; [reflexivity|]. split; [compute_done|].
  repeat constructor; cbn; lia.
Defined.

(** X26.  [clear_index] on a consistent store leaves nothing: no row,
    no document in the full-text index, no statistics, no hash for any
    path. *)
Theorem clear_index_leaves_nothing d :
  store_ok d ->
  files (clear_index d) = []
  /\ files_fts (clear_index d) = []
  /\ get_stats (clear_index d) = None
  /\ forall p, _get_file_hash p (clear_index d) = None.
Proof.
  intros Hd. pose proof (clear_index_ok d Hd) as (Hfts & _).
  assert (Hf : files (clear_index d) = []).
  { unfold clear_index, delete_from_files_fts. cbn [files]. apply filter_none. }
  split; [exact Hf|]. split; [now rewrite Hfts, Hf|]. split.
  - unfold get_stats, clear_index. cbn [index_stats]. apply lookup_empty.
  - intros p. unfold _get_file_hash. now rewrite Hf.
Qed.

Lemma clear_index_leaves_nothing_witness :
  files (clear_index old_store) = []
  /\ files_fts (clear_index old_store) = []
  /\ get_stats (clear_index old_store) = None
  /\ forall p, _get_file_hash p (clear_index old_store) = None.
Proof.
  apply (clear_index_leaves_nothing old_store).
  split; [reflexivity|]. split; [compute_done|].
  repeat constructor; cbn; lia.
Defined.

Lemma fresh_upserts_ok ops : forall d,
  store_ok d -> fresh_upserts ops d = true -> store_ok (run_ops ops d).
Proof.
  unfold run_ops, run_ops_with.
  induction ops as [|o ops IH]; intros d Hd Hfresh; [exact Hd|].
  cbn [fresh_upserts] in Hfresh. apply andb_true_iff in Hfresh as [Ho Hrest].
  cbn [fold_left]. apply IH; [|exact Hrest].
  destruct o as [now f|p|]; cbn [run_op_with].
  - apply save_file_new_path_ok; [exact Hd|].
    unfold _get_file_hash in Ho.
    destruct (List.filter _ (files d)); [reflexivity|discriminate].
  - now apply delete_from_files_ok.
  - now apply clear_index_ok.
Qed.

(** X27.  Mirror parity without overwriting: after a script of upserts,
    deletes and clears in which every upsert meets a store without a row
    for its path, the full-text mirror holds the triples of the file
    table, one entry per row. *)
Theorem mirror_parity_without_overwrite ops d :
  store_ok d ->
  fresh_upserts ops d = true ->
  mirror_triples (run_ops ops d) = file_triples (run_ops ops d)
  /\ files_fts (run_ops ops d) = map entry_of_row (files (run_ops ops d)).
Proof.
  intros Hd Hfresh. pose proof (fresh_upserts_ok ops d Hd Hfresh) as Hok.
  split; [now apply store_ok_parity|]. now destruct Hok.
Qed.

Lemma mirror_parity_without_overwrite_witness :
  let ops := [OpUpsert 1 version_x; OpDelete "a.py"; OpUpsert 2 version_y;
              OpClear; OpUpsert 3 version_x] in
  mirror_triples (run_ops ops empty_database)
  = file_triples (run_ops ops empty_database)
  /\ files_fts (run_ops ops empty_database)
     = map entry_of_row (files (run_ops ops empty_database)).
Proof.
  apply (mirror_parity_without_overwrite
           [OpUpsert 1 version_x; OpDelete "a.py"; OpUpsert 2 version_y;
            OpClear; OpUpsert 3 version_x] empty_database).
  - repeat split; constructor.
  - reflexivity.
Defined.

(** ** The search entry point *)

(** X28.  With the semantic backend not installed every mode but
    [hybrid] gives the outcome of the full-text planner as it is: the
    semantic mode degrades to it, and a mode the engine does not know is
    taken for full text. *)
Theorem search_without_backend_is_fulltext
    search_mode d fts5_select semantic_searcher query limit
    language path_filter msg :
  semantic_searcher query limit language path_filter
  = Raise (ImportError msg) ->
  search_mode <> "hybrid" ->
  search search_mode d fts5_select semantic_searcher query limit
         language path_filter
  = _fulltext_search d fts5_select query limit language path_filter.
Proof.
  intros Hsem Hmode. unfold search.
  apply String.eqb_neq in Hmode. rewrite Hmode.
  destruct (String.eqb search_mode "semantic"); [|reflexivity].
  unfold _semantic_search. now rewrite Hsem.
Qed.

Lemma search_without_backend_is_fulltext_witness :
  search "semantic" empty_database two_hits not_installed "foo" 5 None None
  = _fulltext_search empty_database two_hits "foo" 5 None None.
Proof.
  apply (search_without_backend_is_fulltext "semantic" empty_database
           two_hits not_installed "foo" 5 None None
           "No module named codex_lens.semantic").
  - reflexivity.
  - discriminate.
Defined.

(** ** Listings ordered by path *)

Lemma path_leb_total a b : path_leb a b = false -> path_leb b a = true.
Proof.
  unfold path_leb. rewrite (String.compare_antisym b a).
  now destruct (String.compare a b).
Qed.

Lemma insert_by_path_In r l x :
  In x (insert_by_path r l) <-> x = r \/ In x l.
Proof.
  induction l as [|y l IH]; cbn [insert_by_path In]; [intuition|].
  destruct (path_leb (FileRow.path r) (FileRow.path y)); cbn [In];
    [|rewrite IH]; intuition.
Qed.

Lemma insert_by_path_perm r l : insert_by_path r l ≡ₚ r :: l.
Proof.
  induction l as [|y l IH]; [reflexivity|]. cbn [insert_by_path].
  destruct (path_leb (FileRow.path r) (FileRow.path y)); [reflexivity|].
  rewrite IH. apply Permutation_swap.
Qed.

Lemma order_by_path_perm rows : order_by_path rows ≡ₚ rows.
Proof.
  unfold order_by_path. induction rows as [|r rows IH]; [reflexivity|].
  cbn [foldr]. now rewrite insert_by_path_perm, IH.
Qed.

Lemma insert_by_path_sorted r l :
  Sorted (fun a b => path_leb (FileRow.path a) (FileRow.path b) = true) l ->
  Sorted (fun a b => path_leb (FileRow.path a) (FileRow.path b) = true)
         (insert_by_path r l).
Proof.
  induction 1 as [|y l Hs IH Hy]; cbn [insert_by_path].
  - repeat constructor.
  - destruct (path_leb (FileRow.path r) (FileRow.path y)) eqn:E.
    + constructor; [now constructor|]. now constructor.
    + constructor; [exact IH|].
      destruct l as [|z l]; cbn [insert_by_path].
      * constructor. now apply path_leb_total.
      * destruct (path_leb (FileRow.path r) (FileRow.path z)).
        -- constructor. now apply path_leb_total.
        -- constructor. now inversion Hy.
Qed.

Lemma order_by_path_sorted rows :
  Sorted (fun a b => path_leb (FileRow.path a) (FileRow.path b) = true)
         (order_by_path rows).
Proof.
  unfold order_by_path. induction rows as [|r rows IH]; [constructor|].
  cbn [foldr]. now apply insert_by_path_sorted.
Qed.

Lemma sorted_firstn {A} (R : A -> A -> Prop) l : forall n,
  Sorted R l -> Sorted R (firstn n l).
Proof.
  induction l as [|x l IH]; intros n Hs; [now rewrite firstn_nil|].
  destruct n as [|n]; [constructor|]. cbn [firstn].
  apply Sorted_inv in Hs as [Hs Hx]. constructor; [now apply IH|].
  destruct l as [|y l]; [rewrite firstn_nil; constructor|].
  destruct n as [|n]; [constructor|]. cbn [firstn]. constructor.
  now inversion Hx.
Qed.

Lemma sorted_map {A B} (f : A -> B) (R : B -> B -> Prop) l :
  Sorted (fun a b => R (f a) (f b)) l -> Sorted R (map f l).
Proof.
  induction 1 as [|x l Hs IH Hx]; [constructor|]. cbn [map].
  constructor; [exact IH|]. destruct Hx; cbn [map]; now constructor.
Qed.

Lemma path_leb_spec a b :
  path_leb a b = true <-> a = b \/ String_as_OT.lt a b.
Proof.
  unfold path_leb. destruct (String.compare a b) eqn:E.
  - apply String_as_OT.cmp_eq in E. tauto.
  - apply String_as_OT.cmp_lt in E. tauto.
  - split; [discriminate|]. intros [->|H].
    + assert (E' : String.compare b b = Eq) by now apply String_as_OT.cmp_eq.
      rewrite E' in E. discriminate.
    + apply String_as_OT.cmp_lt in H. unfold String_as_OT.cmp in H.
      rewrite H in E. discriminate.
Qed.

Lemma path_leb_trans a b c :
  path_leb a b = true -> path_leb b c = true -> path_leb a c = true.
Proof.
  rewrite !path_leb_spec. intros [->|Hab] [->|Hbc]; auto.
  right. now apply (String_as_OT.lt_trans a b c).
Qed.

Lemma strongly_sorted_filter {A} (R : A -> A -> Prop) (f : A -> bool) l :
  StronglySorted R l -> StronglySorted R (List.filter f l).
Proof.
  induction 1 as [|x l Hs IH Hx]; [constructor|]. cbn [List.filter].
  destruct (f x); [|exact IH]. constructor; [exact IH|].
  apply Forall_forall. intros y Hy.
  apply list_elem_of_In, filter_In in Hy as [Hy _].
  rewrite Forall_forall in Hx. apply Hx. now apply list_elem_of_In.
Qed.

Lemma sorted_filter_by_path (f : FileRow.t -> bool) l :
  Sorted (fun a b => path_leb (FileRow.path a) (FileRow.path b) = true) l ->
  Sorted (fun a b => path_leb (FileRow.path a) (FileRow.path b) = true)
         (List.filter f l).
Proof.
  intros Hs. apply StronglySorted_Sorted, strongly_sorted_filter.
  apply Sorted_StronglySorted; [|exact Hs].
  intros a b c. apply path_leb_trans.
Qed.

Lemma search_file_returns d pattern limit :
  sqlite_int64 limit = true ->
  like_pattern_fits (percent (sql_pattern pattern)) = true ->
  search_file d pattern limit
  = Return
      (map (fun r =>
              SearchResult.mk (FileRow.path r)
                              (file_summary (FileRow.content r))
                              1%Qc 0 EmptyString "file" [])
           (firstn limit
              (List.filter
                 (fun r => like_match (percent (sql_pattern pattern))
                                      (FileRow.path r))
                 (order_by_path (files d))))).
Proof.
  intros Hl Hp. unfold search_file. rewrite Hl.
  erewrite select_where_total; [reflexivity|].
  intros r _. unfold like. now rewrite Hp.
Qed.

(** A limit of [2^63] or more does not reach SQLite. *)
Lemma search_file_overflow d pattern limit :
  sqlite_int64 limit = false ->
  search_file d pattern limit = Raise bind_overflow.
Proof. intros H. unfold search_file. now rewrite H. Qed.

(** X29.  For a limit below [2^63] and a pattern whose LIKE form SQLite
    admits, [search_file] returns at most [limit] stored files whose
    path, read up to its first NUL, matches the pattern, in ascending
    order of path; every result carries the summary of its file (lines
    and length) as content, the score 1, the line number 0, the type
    [file] and no highlight. *)
Theorem search_file_results_shape d pattern limit :
  sqlite_int64 limit = true ->
  like_pattern_fits (percent (sql_pattern pattern)) = true ->
  exists out,
    search_file d pattern limit = Return out
    /\ List.length out <= limit
    /\ Sorted (fun a b => path_leb a b = true) (map SearchResult.path out)
    /\ Forall (fun o =>
                 SearchResult.score o = 1%Qc
                 /\ SearchResult.line_number o = 0
                 /\ SearchResult.match_context o = EmptyString
                 /\ SearchResult.search_type o = "file"
                 /\ SearchResult.highlights o = []
                 /\ exists row, In row (files d)
                      /\ SearchResult.path o = FileRow.path row
                      /\ SearchResult.content o
                         = file_summary (FileRow.content row)
                      /\ like_match (percent (sql_pattern pattern))
                                    (FileRow.path row)
                         = true)
              out.
Proof.
  intros Hl Hp. eexists. split; [now apply search_file_returns|].
  split; [|split].
  - rewrite List.length_map. apply firstn_le_length.
  - rewrite map_map. cbn [SearchResult.path].
    apply (sorted_map FileRow.path (fun a b => path_leb a b = true)).
    apply sorted_firstn, sorted_filter_by_path, order_by_path_sorted.
  - apply Forall_map, Forall_forall. intros r Hr.
    cbn [SearchResult.score SearchResult.line_number SearchResult.match_context
         SearchResult.search_type SearchResult.highlights SearchResult.path
         SearchResult.content].
    repeat split. exists r.
    apply elem_of_take in Hr as (i & Hi & _).
    apply list_elem_of_lookup_2, list_elem_of_In, filter_In in Hi
      as [Hin Hlike].
    apply list_elem_of_In in Hin. rewrite order_by_path_perm in Hin.
    apply list_elem_of_In in Hin.
    repeat split; assumption.
Qed.

Lemma search_file_results_shape_witness :
  exists out,
    search_file nul_paths "*.py" 1 = Return out
    /\ List.length out <= 1
    /\ Sorted (fun a b => path_leb a b = true) (map SearchResult.path out)
    /\ Forall (fun o =>
                 SearchResult.score o = 1%Qc
                 /\ SearchResult.line_number o = 0
                 /\ SearchResult.match_context o = EmptyString
                 /\ SearchResult.search_type o = "file"
                 /\ SearchResult.highlights o = []
                 /\ exists row, In row (files nul_paths)
                      /\ SearchResult.path o = FileRow.path row
                      /\ SearchResult.content o
                         = file_summary (FileRow.content row)
                      /\ like_match (percent (sql_pattern "*.py"))
                                    (FileRow.path row)
                         = true)
              out.
Proof.
  apply (search_file_results_shape nul_paths "*.py" 1); reflexivity.
Defined.

(** The rows come in order of path, not of table, and a path is matched
    up to its first NUL: [d<NUL>e.py] is read as [d]. *)
Example search_file_by_path :
  match search_file nul_paths "*.py" 5 with
  | Return out => map SearchResult.path out = ["a.py"; "b.py"]
  | Raise _ => False
  end
  /\ match search_file nul_paths "d" 5 with
     | Return out =>
         map SearchResult.path out = ["d" +:+ str1 nul +:+ "e.py"]
     | Raise _ => False
     end
  /\ match search_file nul_paths (str1 nul) 5 with
     | Return out =>
         map SearchResult.path out
         = ["a.py"; "b.py"; "d" +:+ str1 nul +:+ "e.py"]
     | Raise _ => False
     end.
Proof. repeat split; reflexivity. Qed.

(** X30.  [get_indexed_files] lists the path of every stored file, or
    of every stored file of the given language, once per row and in
    ascending order; an empty language string lists all files, like no
    language. *)
Theorem get_indexed_files_lists_all d language :
  get_indexed_files d language
  ≡ₚ map FileRow.path
       (List.filter
          (fun r => match language with
                    | Some (String c l) =>
                        String.eqb (FileRow.language r) (String c l)
                    | _ => true
                    end)
          (files d))
  /\ Sorted (fun a b => path_leb a b = true) (get_indexed_files d language)
  /\ get_indexed_files d (Some EmptyString) = get_indexed_files d None.
Proof.
  unfold get_indexed_files. split; [|split].
  - rewrite order_by_path_perm. apply Permutation_map.
    replace (List.filter _ (files d))
      with (List.filter
              (fun r => match language with
                        | Some (String c l) =>
                            String.eqb (FileRow.language r) (String c l)
                        | _ => true
                        end) (files d)); [reflexivity|].
    apply filter_ext_in_bool. intros r _. now destruct language as [[|c l]|].
  - apply (sorted_map FileRow.path (fun a b => path_leb a b = true)).
    apply order_by_path_sorted.
  - reflexivity.
Qed.
